(** * Itinerary synthesis pipeline of the smart-tourism backend

    A shallow embedding of [Backend/src/services/localAIService.js] (class
    [LocalAIService]) and of [trafficService.getTrafficTime], with the
    properties of the pipeline stated and proved over that embedding;
    then of the other methods of the two services and of the plans that
    [Backend/src/controllers/localAIController.js] builds.

    Conventions of the embedding.
    - A JavaScript string is a [string] / [list ascii] of code units below
      256; quotation marks inside literals are written ['] and turned into
      the real character by [js].
    - A JavaScript number that the code only ever adds, divides by 60 and
      compares is an exact rational ([Q]) or integer ([Z]); [NaN] and
      [Invalid Date] are [None].  Module [Binary64] re-runs the fallback
      clock with IEEE doubles where rounding changes the outcome.
    - A [Date] built by [new Date(); setHours(h, m, 0, 0)] is the number of
      minutes since local midnight of the current day. *)

From Stdlib Require Import Bool Arith List Ascii String ZArith NArith QArith Qround.
From Stdlib Require Import Lia Lqa.
From Stdlib Require Import Permutation.
From Stdlib Require Import Floats.
From Stdlib Require Sorted.
Import ListNotations.

Set Implicit Arguments.
Close Scope Q_scope.
Open Scope nat_scope.

(* ================================================================= *)
(** ** JavaScript strings *)

Module JsString.

Definition str := list ascii.

Definition dq : ascii := ascii_of_nat 34.

(** Literals are written with ['] where the source text has a quotation
    mark. *)
Definition js (s : string) : str :=
  map (fun c => if Ascii.eqb c "'"%char then dq else c) (list_ascii_of_string s).

Definition code (c : ascii) : nat := nat_of_ascii c.

(** [\s] of a regular expression, and the characters [trim] removes. *)
Definition is_space (c : ascii) : bool :=
  let n := code c in
  ((9 <=? n) && (n <=? 13)) || (n =? 32) || (n =? 160).

Definition is_digit (c : ascii) : bool :=
  let n := code c in (48 <=? n) && (n <=? 57).

Definition any_char (_ : ascii) : bool := true.

Definition lower_char (c : ascii) : ascii :=
  let n := code c in
  if ((65 <=? n) && (n <=? 90))
     || ((192 <=? n) && (n <=? 222) && negb (n =? 215))
  then ascii_of_nat (n + 32) else c.

Definition toLowerCase (s : str) : str := map lower_char s.

Fixpoint str_eqb (a b : str) : bool :=
  match a, b with
  | [], [] => true
  | x :: a', y :: b' => Ascii.eqb x y && str_eqb a' b'
  | _, _ => false
  end.

Fixpoint starts_with (p s : str) : bool :=
  match p, s with
  | [], _ => true
  | x :: p', y :: s' => Ascii.eqb x y && starts_with p' s'
  | _ :: _, [] => false
  end.

(** [s.includes(p)] *)
Fixpoint includes (s p : str) : bool :=
  starts_with p s ||
  match s with
  | [] => false
  | _ :: s' => includes s' p
  end.

(** [s.substring(0, n)] *)
Definition substring0 (n : nat) (s : str) : str := firstn n s.

Fixpoint drop_spaces (s : str) : str :=
  match s with
  | c :: s' => if is_space c then drop_spaces s' else s
  | [] => []
  end.

Fixpoint drop_trailing_spaces (s : str) : str :=
  match s with
  | [] => []
  | c :: s' =>
      match drop_trailing_spaces s' with
      | [] => if is_space c then [] else [c]
      | r => c :: r
      end
  end.

(** [s.trim()] *)
Definition trim (s : str) : str :=
  drop_trailing_spaces (drop_spaces s).

(** [s.split(c)] for a one-character separator. *)
Fixpoint split_char (sep : ascii) (s : str) : list str :=
  match s with
  | [] => [[]]
  | c :: s' =>
      if Ascii.eqb c sep then [] :: split_char sep s'
      else match split_char sep s' with
           | piece :: rest => (c :: piece) :: rest
           | [] => [[c]]
           end
  end.

(** [s.lastIndexOf(c)], [None] for [-1]. *)
Fixpoint lastIndexOf (c : ascii) (s : str) : option nat :=
  match s with
  | [] => None
  | x :: s' =>
      match lastIndexOf c s' with
      | Some i => Some (S i)
      | None => if Ascii.eqb x c then Some 0%nat else None
      end
  end.

Definition digit_val (c : ascii) : Z := Z.of_nat (code c - 48).

Fixpoint digits_prefix (s : str) : str :=
  match s with
  | c :: s' => if is_digit c then c :: digits_prefix s' else []
  | [] => []
  end.

Definition digits_value (ds : str) : Z :=
  fold_left (fun acc c => 10 * acc + digit_val c)%Z ds 0%Z.

Definition hex_val (c : ascii) : option Z :=
  let n := code c in
  if is_digit c then Some (Z.of_nat (n - 48))
  else if (97 <=? n) && (n <=? 102) then Some (Z.of_nat (n - 87))
  else if (65 <=? n) && (n <=? 70) then Some (Z.of_nat (n - 55))
  else None.

Fixpoint hex_prefix (s : str) : list Z :=
  match s with
  | c :: s' => match hex_val c with
               | Some v => v :: hex_prefix s'
               | None => []
               end
  | [] => []
  end.

Definition parse_magnitude (s : str) : option Z :=
  match s with
  | z :: x :: s' =>
      if Ascii.eqb z "0"%char && (Ascii.eqb x "x"%char || Ascii.eqb x "X"%char)
      then match hex_prefix s' with
           | [] => None
           | hs => Some (fold_left (fun acc v => 16 * acc + v)%Z hs 0%Z)
           end
      else match digits_prefix s with
           | [] => None
           | ds => Some (digits_value ds)
           end
  | _ => match digits_prefix s with
         | [] => None
         | ds => Some (digits_value ds)
         end
  end.

(** [parseInt(s)] with no radix; [None] is [NaN]. *)
Definition parseInt (s : str) : option Z :=
  match drop_spaces s with
  | c :: s' =>
      if Ascii.eqb c "-"%char then option_map Z.opp (parse_magnitude s')
      else if Ascii.eqb c "+"%char then parse_magnitude s'
      else parse_magnitude (c :: s')
  | [] => None
  end.

(** [parseInt(x)] where [x] may be [undefined] (a missing array slot). *)
Definition parseInt_opt (x : option str) : option Z :=
  match x with
  | Some s => parseInt s
  | None => None
  end.

Definition digit_char (d : nat) : ascii := ascii_of_nat (48 + d).

Fixpoint pos_digits (fuel : nat) (n : N) (acc : str) : str :=
  match fuel with
  | O => acc
  | S fuel' =>
      let acc' := digit_char (N.to_nat (n mod 10)) :: acc in
      if (n <? 10)%N then acc' else pos_digits fuel' (n / 10)%N acc'
  end.

(** [n.toString()] for an integer. *)
Definition int_toString (z : Z) : str :=
  let n := Z.to_N (Z.abs z) in
  let ds := pos_digits (S (N.to_nat (N.log2 n))) n [] in
  if (z <? 0)%Z then "-"%char :: ds else ds.

(** [s.padStart(n, '0')] *)
Definition padStart0 (n : nat) (s : str) : str :=
  repeat "0"%char (n - List.length s) ++ s.

End JsString.

Import JsString.

(* ================================================================= *)
(** ** Regular expressions

    The fragment of JavaScript regular expressions the service uses:
    literals, one-character classes, greedy counted repetition of a
    class, capture groups, [$] and the look-ahead of the block splitter.
    Matching is the backtracking search of the language, written in
    continuation-passing style. *)

Module Regex.

Inductive regex : Type :=
| RLit (l : str)                                   (* literal text *)
| RClass (p : ascii -> bool)                       (* one character of a class *)
| RRep (lo : nat) (hi : option nat) (p : ascii -> bool)  (* p{lo,hi}, greedy *)
| RSeq (r1 r2 : regex)
| RGroup (r : regex)                               (* ( r ) *)
| REnd                                             (* $ *)
| RLook (r : regex).                               (* (?= r ) *)

Definition caps := list str.

Fixpoint lit_match (l s : str) : option str :=
  match l, s with
  | [], _ => Some s
  | x :: l', y :: s' => if Ascii.eqb x y then lit_match l' s' else None
  | _ :: _, [] => None
  end.

Definition may_repeat (hi : option nat) : bool :=
  match hi with
  | Some O => false
  | _ => true
  end.

Definition dec_hi (hi : option nat) : option nat := option_map pred hi.

(** Greedy repetition: take one more character when allowed and when the
    rest of the pattern then succeeds, otherwise stop here. *)
Fixpoint rep_match (A : Type) (p : ascii -> bool) (lo : nat) (hi : option nat)
    (s : str) (k : str -> option A) {struct s} : option A :=
  let stop := match lo with O => k s | S _ => None end in
  match s with
  | c :: s' =>
      if p c && may_repeat hi then
        match rep_match p (pred lo) (dec_hi hi) s' k with
        | Some r => Some r
        | None => stop
        end
      else stop
  | [] => stop
  end.

Fixpoint rmatch (A : Type) (r : regex) (s : str) (cs : caps)
    (k : str -> caps -> option A) {struct r} : option A :=
  match r with
  | RLit l =>
      match lit_match l s with
      | Some s' => k s' cs
      | None => None
      end
  | RClass p =>
      match s with
      | c :: s' => if p c then k s' cs else None
      | [] => None
      end
  | RRep lo hi p => rep_match p lo hi s (fun s' => k s' cs)
  | RSeq r1 r2 => rmatch r1 s cs (fun s1 cs1 => rmatch r2 s1 cs1 k)
  | RGroup r1 =>
      rmatch r1 s cs
        (fun s' cs' => k s' (cs' ++ [firstn (List.length s - List.length s') s]))
  | REnd =>
      match s with
      | [] => k [] cs
      | _ :: _ => None
      end
  | RLook r1 =>
      match rmatch r1 s cs (fun _ cs' => Some cs') with
      | Some cs' => k s cs'
      | None => None
      end
  end.

(** A match anchored at the head of [s]: the number of characters it
    consumes and the captured groups. *)
Definition match_at (r : regex) (s : str) : option (nat * caps) :=
  rmatch r s [] (fun s' cs => Some (List.length s - List.length s', cs)).

(** Replacement text: literal pieces and [$n] references. *)
Inductive piece : Type :=
| PLit (l : str)
| PGroup (n : nat).

Definition template := list piece.

Definition expand (t : template) (cs : caps) : str :=
  flat_map (fun p => match p with
                     | PLit l => l
                     | PGroup n => nth (pred n) cs []
                     end) t.

(** [s.replace(/r/g, t)]: leftmost matches, scanning on after each one.
    [skip] counts the characters of the current match still to be passed
    over. *)
Fixpoint replace_from (r : regex) (t : template) (skip : nat) (s : str) : str :=
  match skip with
  | S skip' =>
      match s with
      | _ :: s' => replace_from r t skip' s'
      | [] => []
      end
  | O =>
      match match_at r s with
      | Some (n, cs) =>
          match n, s with
          | O, c :: s' => expand t cs ++ c :: replace_from r t 0 s'
          | S n', _ :: s' => expand t cs ++ replace_from r t n' s'
          | _, [] => expand t cs
          end
      | None =>
          match s with
          | c :: s' => c :: replace_from r t 0 s'
          | [] => []
          end
      end
  end.

Definition replace_all (r : regex) (t : template) (s : str) : str :=
  replace_from r t 0 s.

(** [s.replace(/r/, t)] without the [g] flag: the leftmost match only. *)
Fixpoint replace_first (r : regex) (t : template) (s : str) : str :=
  match match_at r s with
  | Some (n, cs) => expand t cs ++ skipn n s
  | None =>
      match s with
      | c :: s' => c :: replace_first r t s'
      | [] => []
      end
  end.

(** [s.match(/r/)]: the text of the leftmost match and its groups. *)
Fixpoint match_first (r : regex) (s : str) : option (str * caps) :=
  match match_at r s with
  | Some (n, cs) => Some (firstn n s, cs)
  | None =>
      match s with
      | _ :: s' => match_first r s'
      | [] => None
      end
  end.

(** [s.match(/r/g)]: the texts of all matches ([[]] when there is none,
    where the source writes [|| []]). *)
Fixpoint match_all_from (r : regex) (skip : nat) (s : str) : list str :=
  match skip with
  | S skip' =>
      match s with
      | _ :: s' => match_all_from r skip' s'
      | [] => []
      end
  | O =>
      match match_at r s with
      | Some (n, _) =>
          firstn n s ::
          match s with
          | _ :: s' => match_all_from r (pred n) s'
          | [] => []
          end
      | None =>
          match s with
          | _ :: s' => match_all_from r 0 s'
          | [] => []
          end
      end
  end.

Definition match_all (r : regex) (s : str) : list str := match_all_from r 0 s.

(** [s.split(/(?=r)/)]: cut before every position, other than the start
    of a piece, at which [r] matches. *)
Fixpoint split_before (r : regex) (fresh : bool) (s : str) : list str :=
  match s with
  | [] => [[]]
  | c :: s' =>
      let rest := split_before r false s' in
      let glued := match rest with
                   | p :: ps => (c :: p) :: ps
                   | [] => [[c]]
                   end in
      if fresh then glued
      else match match_at (RLook r) s with
           | Some _ => [] :: glued
           | None => glued
           end
  end.

Definition split_lookahead (r : regex) (s : str) : list str :=
  split_before r true s.

(** Shorthands for the patterns of the source. *)
Definition star (p : ascii -> bool) : regex := RRep 0 None p.
Definition plus (p : ascii -> bool) : regex := RRep 1 None p.
Definition is_char (c : ascii) : ascii -> bool := fun x => Ascii.eqb x c.

Fixpoint seq (rs : list regex) : regex :=
  match rs with
  | [] => RLit []
  | [r] => r
  | r :: rs' => RSeq r (seq rs')
  end.

End Regex.

Import Regex.

(* ================================================================= *)
(** ** Output repair: the text passes of [generateDirectTripPlan] *)

Module Repair.

Open Scope bool_scope.

(** One step of the cleaning chain. *)
Inductive pass : Type :=
| ReplaceAll (r : regex) (t : template)      (* .replace(/r/g, t) *)
| ReplaceFirst (r : regex) (t : template)    (* .replace(/r/, t)  *)
| Trim.                                      (* .trim()           *)

Definition run_pass (p : pass) (s : str) : str :=
  match p with
  | ReplaceAll r t => replace_all r t s
  | ReplaceFirst r t => replace_first r t s
  | Trim => trim s
  end.

Definition run_passes (ps : list pass) (s : str) : str :=
  fold_left (fun acc p => run_pass p acc) ps s.

Definition lit (s : string) : regex := RLit (js s).
Definition txt (s : string) : piece := PLit (js s).
Definition newline : ascii := ascii_of_nat 10.
Definition closer (c : ascii) : bool := Ascii.eqb c "}" || Ascii.eqb c "]".
Definition digits (lo : nat) (hi : option nat) : regex := RGroup (RRep lo hi is_digit).

(** Whitespace passes: [/\n\s*/g], [/\s+/g], [trim]. *)
Definition whitespace_passes : list pass :=
  [ ReplaceAll (seq [RLit [newline]; star is_space]) [txt " "];
    ReplaceAll (plus is_space) [txt " "];
    Trim ].

(** Separator passes. *)
Definition separator_passes : list pass :=
  [ (* /,(\s*[}\]])/g -> $1 *)
    ReplaceAll (seq [lit ","; RGroup (seq [star is_space; RClass closer])]) [PGroup 1];
    (* /:\s+'/g *)
    ReplaceAll (seq [lit ":"; plus is_space; lit "'"]) [txt ": '"];
    (* /',\s+/g *)
    ReplaceAll (seq [lit "',"; plus is_space]) [txt "', "];
    (* /,\s*$/ *)
    ReplaceFirst (seq [lit ","; star is_space; REnd]) [];
    (* /}\s*$/ *)
    ReplaceFirst (seq [lit "}"; star is_space; REnd]) [txt "}"] ].

(** Quoted [null], split times, quoted numbers, quoted booleans. *)
Definition value_passes : list pass :=
  [ ReplaceAll (lit "'null,'") [txt "null"];
    ReplaceAll (lit "': 'null,'") [txt "': null"];
    (* /': '(\d{1,2}):\s*'(\d{2})','/g *)
    ReplaceAll (seq [lit "': '"; digits 1 (Some 2); lit ":"; star is_space; lit "'";
                     digits 2 (Some 2); lit "','"])
               [txt "': '"; PGroup 1; txt ":"; PGroup 2; txt "'"];
    (* /': '(\d{1,2}):\s*'(\d{2})'/g *)
    ReplaceAll (seq [lit "': '"; digits 1 (Some 2); lit ":"; star is_space; lit "'";
                     digits 2 (Some 2); lit "'"])
               [txt "': '"; PGroup 1; txt ":"; PGroup 2; txt "'"];
    (* /': '(\d+)\s*}'/g *)
    ReplaceAll (seq [lit "': '"; digits 1 None; star is_space; lit "}'"])
               [txt "': "; PGroup 1; txt "}"];
    (* /': '(\d+)\s*',/g *)
    ReplaceAll (seq [lit "': '"; digits 1 None; star is_space; lit "',"])
               [txt "': "; PGroup 1; txt ","];
    (* /': '(\d+)'/g *)
    ReplaceAll (seq [lit "': '"; digits 1 None; lit "'"]) [txt "': "; PGroup 1];
    (* /'visitOrder': '(\d+),'/g *)
    ReplaceAll (seq [lit "'visitOrder': '"; digits 1 None; lit ",'"])
               [txt "'visitOrder': "; PGroup 1];
    ReplaceAll (lit "': 'true'") [txt "': true"];
    ReplaceAll (lit "': 'false'") [txt "': false"];
    ReplaceAll (lit "': 'null'") [txt "': null"] ].

(** Qualitative cost words where a number is expected. *)
Definition cost_word_passes : list pass :=
  [ ReplaceAll (lit "': low,") [txt "': 400,"];
    ReplaceAll (lit "': medium,") [txt "': 800,"];
    ReplaceAll (lit "': high,") [txt "': 1500,"];
    ReplaceAll (seq [lit "': low"; REnd]) [txt "': 400"];
    ReplaceAll (seq [lit "': medium"; REnd]) [txt "': 800"];
    ReplaceAll (seq [lit "': high"; REnd]) [txt "': 1500"];
    ReplaceAll (lit "': low'") [txt "': 400"];
    ReplaceAll (lit "': medium'") [txt "': 800"];
    ReplaceAll (lit "': high'") [txt "': 1500"];
    ReplaceAll (lit ": low,") [txt ": 400,"];
    ReplaceAll (lit ": medium,") [txt ": 800,"];
    ReplaceAll (lit ": high,") [txt ": 1500,"];
    ReplaceAll (seq [lit ": low"; REnd]) [txt ": 400"];
    ReplaceAll (seq [lit ": medium"; REnd]) [txt ": 800"];
    ReplaceAll (seq [lit ": high"; REnd]) [txt ": 1500"] ].

(** Left-over quotes: [/'{2,}/g] and [/',+/g]. *)
Definition quote_passes : list pass :=
  [ ReplaceAll (RRep 2 None (is_char dq)) [txt "'"];
    ReplaceAll (seq [lit "'"; plus (is_char ","%char)]) [txt "',"] ].

(** The chain applied to [jsonStr], in the order of the source. *)
Definition cleaning_passes : list pass :=
  whitespace_passes ++ separator_passes ++ value_passes
  ++ cost_word_passes ++ quote_passes.

Definition cleanJson (jsonStr : str) : str := run_passes cleaning_passes jsonStr.

(** The first three passes on their own. *)
Definition normalizeWhitespace (s : str) : str := run_passes whitespace_passes s.

(** [/\{[\s\S]*\}/] *)
Definition brace_span : regex := seq [lit "{"; star any_char; lit "}"].

(** [/'selectedAttractions'\s*:\s*\[[\s\S]*/] *)
Definition attractions_tail : regex :=
  seq [lit "'selectedAttractions'"; star is_space; lit ":"; star is_space;
       lit "["; star any_char].

(** [/'duration'\s*:\s*(\d+)/g] *)
Definition duration_field : regex :=
  seq [lit "'duration'"; star is_space; lit ":"; star is_space; digits 1 None].

(** [parseInt(match.match(/\d+/)[0])] on one match of [duration_field]. *)
Definition first_number (m : str) : Z :=
  match match_first (plus is_digit) m with
  | Some (ds, _) => match parseInt ds with Some z => z | None => 0%Z end
  | None => 0%Z
  end.

(** Closing an unclosed selection list after its last complete object. *)
Definition close_list (attractionsStr : str) : str :=
  if includes attractionsStr (js "]") then attractionsStr
  else match lastIndexOf "}"%char attractionsStr with
       | Some lastBrace => firstn (lastBrace + 1) attractionsStr ++ js "]"
       | None => attractionsStr
       end.

(** The reconstruction of a truncated answer. *)
Definition reconstruct (attractionsMatch : str) : str :=
  let attractionsStr := close_list attractionsMatch in
  let attractionMatches := match_all duration_field attractionsStr in
  let summed := fold_left (fun sum m => (sum + first_number m)%Z) attractionMatches 0%Z in
  let totalDuration := if (summed =? 0)%Z then 270%Z else summed in
  let estimatedCost := if (200 <? totalDuration)%Z then 800%Z else 600%Z in
  js "{" ++ attractionsStr ++ js ",'totalDuration':" ++ int_toString totalDuration
     ++ js ",'estimatedCost':" ++ int_toString estimatedCost ++ js "}".

(** The text handed to the cleaning chain: [jsonMatch[0]], if any. *)
Definition jsonCandidate (aiResponse : str) : option str :=
  let jsonMatch := option_map fst (match_first brace_span aiResponse) in
  let incomplete :=
    match jsonMatch with None => true | Some _ => false end
    || negb (includes aiResponse (js "totalDuration"))
    || negb (includes aiResponse (js "estimatedCost")) in
  if incomplete then
    match match_first attractions_tail aiResponse with
    | Some (attractionsMatch, _) => Some (reconstruct attractionsMatch)
    | None => jsonMatch
    end
  else jsonMatch.

End Repair.

Import Repair.

(* ================================================================= *)
(** ** Data model *)

Module Model.

(** A value read out of an object literal: a number of the table, or a
    member inherited from [Object.prototype] (a function or object, hence
    truthy and not a number). *)
Inductive PriceValue : Type :=
| Price (n : Z)
| Inherited (member : str).

(** An entry of the candidate catalog ([TouristAttraction]). *)
Record Attraction : Type := mkAttraction {
  id : str;
  name : str;
  description : option str;
  category : str;
  priceRange : option str;
  estimatedVisitTime : Z
}.

(** One route of the traffic matrix built by [processTrafficMatrix]. *)
Record Route : Type := mkRoute {
  from : str;
  to : str;
  trafficDuration : Z
}.

Record TrafficMatrix : Type := mkTrafficMatrix {
  routes : list Route
}.

Record Weather : Type := mkWeather {
  weatherCondition : option str;
  condition : option str;
  weatherDescription : option str;
  temperature : option Q;
  uvIndex : option Q;
  airQuality : option Q
}.

Record Alert : Type := mkAlert {
  alertTitle : str
}.

Record RealTimeData : Type := mkRealTimeData {
  weather : option Weather;
  alerts : option (list Alert);
  traffic : option TrafficMatrix
}.

(** One element of [selectedAttractions] in the generator's answer; a
    field is absent ([None]) or has the type of the prompt's schema. *)
Record Selected : Type := mkSelected {
  attractionId : option str;
  reason : option str;
  visitOrder : option Z;
  suggestedTime : option str;
  duration : option Z
}.

(** The deserialized answer of the generator. *)
Record AiTripPlan : Type := mkAiTripPlan {
  selectedAttractions : option (list Selected);
  totalDuration : option Z;
  aiEstimatedCost : option Z
}.

(** [plannedStartTime] is a string on the generator paths and a [Date]
    on the fallback path. *)
Inductive StartTime : Type :=
| StartString (s : str)
| StartDate (d : option Z).

Record PlannedAttraction : Type := mkPlanned {
  attraction : Attraction;            (* the catalog entry that is spread *)
  recReason : option str;             (* aiRecommendation.reason *)
  recVisitOrder : Z;                  (* aiRecommendation.visitOrder *)
  recPriority : Z;                    (* aiRecommendation.priority *)
  plannedStartTime : StartTime;
  plannedEndTime : option Z;
  estimatedCost : PriceValue;
  priority : Z
}.

(** The returned trip plan: the visits, the totals of the day itinerary
    ([None] where the path computes none, or where the sum is not a
    number) and the provider tag. *)
Record TripPlan : Type := mkTripPlan {
  plannedAttractions : list PlannedAttraction;
  totalTime : option Z;
  totalCost : option Z;
  aiProvider : str
}.

(** JavaScript truthiness of the optional fields. *)
Definition truthy_num (x : option Z) : option Z :=
  match x with
  | Some n => if (n =? 0)%Z then None else Some n
  | None => None
  end.

Definition truthy_str (x : option str) : option str :=
  match x with
  | Some (c :: s) => Some (c :: s)
  | _ => None
  end.

(** [x || y] on numbers. *)
Definition or_else (x : option Z) (y : Z) : Z :=
  match truthy_num x with
  | Some n => n
  | None => y
  end.

End Model.

Import Model.

(* ================================================================= *)
(** ** [trafficService.getTrafficTime] *)

Module TrafficService.

Open Scope bool_scope.

(** The class declares [getTrafficTime] twice; the later declaration, by
    attraction names, is the method in effect. *)
Definition route_matches (fromAttractionName toAttractionName : str) (r : Route) : bool :=
  let fromMatch :=
    includes (toLowerCase (from r)) (toLowerCase fromAttractionName)
    || includes (toLowerCase fromAttractionName) (toLowerCase (from r)) in
  let toMatch :=
    includes (toLowerCase (to r)) (toLowerCase toAttractionName)
    || includes (toLowerCase toAttractionName) (toLowerCase (to r)) in
  fromMatch && toMatch.

Definition getTrafficTime (trafficMatrix : option TrafficMatrix)
    (fromAttractionName toAttractionName : str) : Z :=
  match trafficMatrix with
  | None => 0%Z
  | Some m =>
      match find (route_matches fromAttractionName toAttractionName) (routes m) with
      | Some route =>
          if (0 <? trafficDuration route)%Z then trafficDuration route else 0%Z
      | None => 0%Z
      end
  end.

End TrafficService.

Import TrafficService.

(* ================================================================= *)
(** ** [LocalAIService]: prices, clocks and dates *)

Module Clock.

Open Scope bool_scope.

(** Truncation toward zero, the integer part used by [%] and by [Date]. *)
Definition Qtrunc (q : Q) : Z :=
  if Qle_bool 0 q then Qfloor q else Qceiling q.

(** [x % 1] *)
Definition mod1 (q : Q) : Q := (q - inject_Z (Qtrunc q))%Q.

(** [Math.round(x)] *)
Definition Math_round (q : Q) : Z := Qfloor (q + (1 # 2))%Q.

(** [n.toString()] where [n] may be [NaN]. *)
Definition num_toString (x : option Z) : str :=
  match x with
  | Some z => int_toString z
  | None => js "NaN"
  end.

(** The [HH:MM] text built from [currentTime] for a later visit. *)
Definition formatClock (currentTime : option Q) : str :=
  let hours := option_map Qfloor currentTime in
  let minutes := option_map (fun t => Math_round (mod1 t * 60)%Q) currentTime in
  padStart0 2 (num_toString hours) ++ js ":" ++ padStart0 2 (num_toString minutes).

(** [parseInt(hours) + parseInt(minutes) / 60] after [split(':')]. *)
Definition clockOfString (startTimeStr : str) : option Q :=
  let parts := split_char ":"%char startTimeStr in
  match parseInt_opt (nth_error parts 0), parseInt_opt (nth_error parts 1) with
  | Some h, Some m => Some (inject_Z h + inject_Z m / 60)%Q
  | _, _ => None
  end.

(** [new Date(); setHours(parseInt(hours), parseInt(minutes), 0, 0)], in
    minutes since local midnight; [None] is [Invalid Date]. *)
Definition dateOfString (startTimeStr : str) : option Z :=
  let parts := split_char ":"%char startTimeStr in
  match parseInt_opt (nth_error parts 0), parseInt_opt (nth_error parts 1) with
  | Some h, Some m => Some (h * 60 + m)%Z
  | _, _ => None
  end.

(** [setHours(Math.floor(currentTime), (currentTime % 1) * 60, 0, 0)]:
    the minute argument is truncated to an integer. *)
Definition dateOfClock (currentTime : Q) : Z :=
  (Qfloor currentTime * 60 + Qtrunc (mod1 currentTime * 60)%Q)%Z.

(** [end.setMinutes(end.getMinutes() + d)] on a copy of [start]. *)
Definition addMinutes (start : option Z) (d : Z) : option Z :=
  option_map (fun t => (t + d)%Z) start.

(** [currentTime += d / 60 + t / 60] *)
Definition advance (currentTime : option Q) (d t : Z) : option Q :=
  option_map (fun c => (c + (inject_Z d / 60 + inject_Z t / 60))%Q) currentTime.

(** The start of a visit in minutes since midnight, whichever way the
    plan carries it. *)
Definition startMinutes (s : StartTime) : option Z :=
  match s with
  | StartString t => dateOfString t
  | StartDate d => d
  end.

End Clock.

Import Clock.

Module Prices.

Definition priceRangeValues : list (str * Z) :=
  [ (js "free", 0); (js "low", 25); (js "medium", 125);
    (js "high", 350); (js "luxury", 750) ]%Z.

(** What every object literal inherits from [Object.prototype]. *)
Definition object_prototype_members : list str :=
  map js [ "constructor"; "__defineGetter__"; "__defineSetter__";
           "hasOwnProperty"; "__lookupGetter__"; "__lookupSetter__";
           "isPrototypeOf"; "propertyIsEnumerable"; "toString"; "valueOf";
           "__proto__"; "toLocaleString" ]%string.

(** [table[key]]: an own property, else an inherited member, else
    [undefined]. *)
Definition lookup (table : list (str * Z)) (key : str) : option PriceValue :=
  match find (fun kv => str_eqb (fst kv) key) table with
  | Some kv => Some (Price (snd kv))
  | None =>
      if existsb (str_eqb key) object_prototype_members
      then Some (Inherited key) else None
  end.

(** The property key of a possibly absent [priceRange]. *)
Definition property_key (priceRange : option str) : str :=
  match priceRange with
  | Some k => k
  | None => js "undefined"
  end.

(** [priceRangeValues[priceRange] || 0] *)
Definition getPriceEstimate (priceRange : option str) : PriceValue :=
  match lookup priceRangeValues (property_key priceRange) with
  | Some (Price n) => if (n =? 0)%Z then Price 0 else Price n
  | Some (Inherited m) => Inherited m
  | None => Price 0
  end.

(** [total + cost] inside a [reduce]; adding a non-number turns the sum
    into a string, written [None]. *)
Definition add_cost (total : option Z) (cost : PriceValue) : option Z :=
  match total, cost with
  | Some t, Price n => Some (t + n)%Z
  | _, _ => None
  end.

Definition sum_costs (pas : list PlannedAttraction) : option Z :=
  fold_left (fun total pa => add_cost total (estimatedCost pa)) pas (Some 0%Z).

End Prices.

Import Prices.

(* ================================================================= *)
(** ** [processDirectTripPlan] *)

Module Scheduler.

Open Scope bool_scope.

Definition has_id (wanted : option str) (a : Attraction) : bool :=
  match wanted with
  | Some i => str_eqb (id a) i
  | None => false
  end.

(** [availableAttractions.find(a => a.id === attractionId)] *)
Definition findAttraction (availableAttractions : list Attraction)
    (wanted : option str) : option Attraction :=
  find (has_id wanted) availableAttractions.

(** [find(...) || availableAttractions[0]] *)
Definition resolveAttraction (availableAttractions : list Attraction)
    (wanted : option str) : option Attraction :=
  match findAttraction availableAttractions wanted with
  | Some a => Some a
  | None => nth_error availableAttractions 0
  end.

(** The travel time added after a generator-selected visit: 90 minutes
    unless traffic data, both attractions and a positive time exist. *)
Definition travelTimeMinutes (trafficData : option TrafficMatrix)
    (attraction : Attraction) (nextAttraction : option Attraction) : Z :=
  match trafficData, nextAttraction with
  | Some _, Some next =>
      let trafficTime := getTrafficTime trafficData (name attraction) (name next) in
      if (0 <? trafficTime)%Z then trafficTime else 90%Z
  | _, _ => 90%Z
  end.

(** The body of the [map] over [selectedAttractions]; [currentTime] is
    the variable the callback updates, [None] a thrown [TypeError]. *)
Fixpoint planSelected (availableAttractions : list Attraction)
    (trafficData : option TrafficMatrix) (index : nat) (currentTime : option Q)
    (sel : list Selected) {struct sel} : option (list PlannedAttraction) :=
  match sel with
  | [] => Some []
  | selected :: rest =>
      match resolveAttraction availableAttractions (attractionId selected) with
      | None => None
      | Some attraction =>
          let first :=
            match truthy_str (suggestedTime selected) with
            | Some t => t
            | None => js "09:00"
            end in
          let startTimeStr :=
            match index with
            | O => first
            | S _ => formatClock currentTime
            end in
          let currentTime1 :=
            match index with
            | O => clockOfString first
            | S _ => currentTime
            end in
          let startTime := dateOfString startTimeStr in
          let duration :=
            or_else (duration selected)
                    (or_else (Some (estimatedVisitTime attraction)) 120) in
          let endTime := addMinutes startTime duration in
          let currentTime2 :=
            match rest with
            | next :: _ =>
                let nextAttraction :=
                  findAttraction availableAttractions (attractionId next) in
                advance currentTime1 duration
                        (travelTimeMinutes trafficData attraction nextAttraction)
            | [] => currentTime1
            end in
          let order := or_else (visitOrder selected) (Z.of_nat index + 1) in
          match planSelected availableAttractions trafficData (S index) currentTime2 rest with
          | Some planned =>
              Some ({| attraction := attraction;
                       recReason := reason selected;
                       recVisitOrder := order;
                       recPriority := Z.of_nat index + 1;
                       plannedStartTime := StartString startTimeStr;
                       plannedEndTime := endTime;
                       estimatedCost := getPriceEstimate (priceRange attraction);
                       priority := order |} :: planned)
          | None => None
          end
      end
  end.

(** [x || []] on the selection list. *)
Definition selection (aiTripPlan : AiTripPlan) : list Selected :=
  match selectedAttractions aiTripPlan with
  | Some l => l
  | None => []
  end.

(** The sum the itinerary falls back on for [totalTime]. *)
Definition catalogVisitTime (pas : list PlannedAttraction) : Z :=
  fold_left (fun total pa =>
               total + or_else (Some (estimatedVisitTime (attraction pa))) 120)%Z
            pas 0%Z.

Definition processDirectTripPlan (aiTripPlan : AiTripPlan) (userText : str)
    (availableAttractions : list Attraction) (trafficData : option TrafficMatrix)
    : option TripPlan :=
  match planSelected availableAttractions trafficData 0 (Some (inject_Z 9))
                     (selection aiTripPlan) with
  | None => None
  | Some planned =>
      Some {| plannedAttractions := planned;
              totalTime :=
                Some (or_else (totalDuration aiTripPlan) (catalogVisitTime planned));
              totalCost :=
                match truthy_num (aiEstimatedCost aiTripPlan) with
                | Some c => Some c
                | None => sum_costs planned
                end;
              aiProvider := js "Local Llama 3.1" |}
  end.

End Scheduler.

Import Scheduler.

(* ================================================================= *)
(** ** [extractTripPlanFromText] *)

Module Extraction.

Open Scope bool_scope.

Definition not_quote (c : ascii) : bool := negb (Ascii.eqb c dq).

(** [/'key':\s*'([^']+)'/] *)
Definition string_field (key : string) : regex :=
  seq [RLit (js "'" ++ js key ++ js "':"); star is_space; lit "'";
       RGroup (plus not_quote); lit "'"].

(** [/'duration':\s*(\d+)/] *)
Definition number_field : regex :=
  seq [lit "'duration':"; star is_space; digits 1 None].

(** [/(?=\s*{\s*'attractionId')/] *)
Definition block_start : regex :=
  seq [star is_space; lit "{"; star is_space; lit "'attractionId'"].

(** The first capture group of a match. *)
Definition group1 (r : regex) (block : str) : option str :=
  match match_first r block with
  | Some (_, g :: _) => Some g
  | _ => None
  end.

Record Extracted : Type := mkExtracted {
  exAttraction : Attraction;
  exSuggestedTime : str;
  exDuration : option Z;       (* [parseInt] of digits, or the catalog time *)
  exReason : str
}.

Definition extractBlock (availableAttractions : list Attraction) (block : str)
    : list Extracted :=
  if negb (includes block (js "attractionId")) then []
  else
    match group1 (string_field "attractionId") block,
          group1 (string_field "name") block with
    | Some attractionId, Some _ =>
        match findAttraction availableAttractions (Some attractionId) with
        | Some foundAttraction =>
            [ {| exAttraction := foundAttraction;
                 exSuggestedTime :=
                   match group1 (string_field "suggestedTime") block with
                   | Some t => t
                   | None => js "09:00"
                   end;
                 exDuration :=
                   match group1 number_field block with
                   | Some d => parseInt d
                   | None => Some (estimatedVisitTime foundAttraction)
                   end;
                 exReason :=
                   match group1 (string_field "reason") block with
                   | Some r => r
                   | None => js "Selected by AI"
                   end |} ]
        | None => []
        end
    | _, _ => []
    end.

(** The name-containment fallback: catalog order, at most four. *)
Definition mentioned (aiResponse : str) (availableAttractions : list Attraction)
    : list Attraction :=
  filter (fun a => includes (toLowerCase aiResponse) (toLowerCase (name a)))
         availableAttractions.

Fixpoint mentionedItems (index : nat) (l : list Attraction) : list Extracted :=
  match l with
  | [] => []
  | a :: l' =>
      {| exAttraction := a;
         exSuggestedTime := int_toString (9 + Z.of_nat index * 2) ++ js ":00";
         exDuration := Some (estimatedVisitTime a);
         exReason := js "Mentioned in AI response" |}
      :: mentionedItems (S index) l'
  end.

Fixpoint planExtracted (index : nat) (items : list Extracted) : list PlannedAttraction :=
  match items with
  | [] => []
  | item :: rest =>
      let startTime := dateOfString (exSuggestedTime item) in
      let endTime :=
        match exDuration item with
        | Some d => addMinutes startTime d
        | None => None
        end in
      {| attraction := exAttraction item;
         recReason := Some (exReason item);
         recVisitOrder := Z.of_nat index + 1;
         recPriority := Z.of_nat index + 1;
         plannedStartTime := StartString (exSuggestedTime item);
         plannedEndTime := endTime;
         estimatedCost := getPriceEstimate (priceRange (exAttraction item));
         priority := Z.of_nat index + 1 |}
      :: planExtracted (S index) rest
  end.

(** [None] is the [null] the function returns when nothing is found. *)
Definition extractTripPlanFromText (aiResponse userText : str)
    (availableAttractions : list Attraction) : option TripPlan :=
  let attractionBlocks := split_lookahead block_start aiResponse in
  let attractions := flat_map (extractBlock availableAttractions) attractionBlocks in
  let attractions' :=
    match attractions with
    | [] => mentionedItems 0 (firstn 4 (mentioned aiResponse availableAttractions))
    | _ :: _ => attractions
    end in
  match attractions' with
  | [] => None
  | _ :: _ =>
      let planned := planExtracted 0 attractions' in
      Some {| plannedAttractions := planned;
              totalTime := None;
              totalCost := sum_costs planned;
              aiProvider := js "Local Llama 3.1 (Text Extraction)" |}
  end.

End Extraction.

Import Extraction.

(* ================================================================= *)
(** ** [getDirectFallbackTripPlan] *)

Module Fallback.

Open Scope bool_scope.

Inductive WeatherPreference : Type := AnyWeather | Indoor | Mixed.

Definition is_indoor (w : WeatherPreference) : bool :=
  match w with
  | Indoor => true
  | _ => false
  end.

Definition gtQ (x : option Q) (bound : Z) : bool :=
  match x with
  | Some q => negb (Qle_bool q (inject_Z bound))
  | None => false
  end.

Definition ltQ (x : option Q) (bound : Z) : bool :=
  match x with
  | Some q => negb (Qle_bool (inject_Z bound) q)
  | None => false
  end.

(** The first of [weatherCondition], [condition], [description] that is a
    non-empty string, lower-cased. *)
Definition conditionText (w : Weather) : str :=
  match truthy_str (weatherCondition w) with
  | Some s => toLowerCase s
  | None =>
      match truthy_str (condition w) with
      | Some s => toLowerCase s
      | None =>
          match truthy_str (weatherDescription w) with
          | Some s => toLowerCase s
          | None => []
          end
      end
  end.

Definition hasAlerts (rtd : RealTimeData) : bool :=
  match alerts rtd with
  | Some (_ :: _) => true
  | _ => false
  end.

Definition weatherPreferenceOf (realTimeData : option RealTimeData) : WeatherPreference :=
  match realTimeData with
  | Some rtd =>
      match weather rtd with
      | Some w =>
          let weatherCondition := conditionText w in
          if includes weatherCondition (js "rain")
             || includes weatherCondition (js "storm")
             || includes weatherCondition (js "shower")
             || hasAlerts rtd
          then Indoor
          else if gtQ (temperature w) 30 || gtQ (uvIndex w) 8 then Mixed
          else if ltQ (airQuality w) 50 then Indoor
          else AnyWeather
      | None => AnyWeather
      end
  | None => AnyWeather
  end.

Definition category_in (cats : list string) (a : Attraction) : bool :=
  existsb (fun c => str_eqb (category a) (js c)) cats.

Definition name_has (a : Attraction) (word : string) : bool :=
  includes (toLowerCase (name a)) (js word).

Definition description_has (a : Attraction) (word : string) : bool :=
  match description a with
  | Some d => includes (toLowerCase d) (js word)
  | None => false
  end.

(** The request names a cultural interest together with a meal. *)
Definition wantsCulturalAndFood (text : str) : bool :=
  includes text (js "cultural")
  && (includes text (js "dimsum") || includes text (js "dim sum")
      || includes text (js "food") || includes text (js "lunch")).

Definition culturalFilter (w : WeatherPreference) (a : Attraction) : bool :=
  if is_indoor w && negb (category_in ["museum"; "cultural"; "shopping"]%string a)
  then false
  else category_in ["cultural"]%string a
       || name_has a "temple" || name_has a "museum" || name_has a "heritage".

Definition foodFilter (a : Attraction) : bool :=
  category_in ["food"]%string a
  || name_has a "market" || name_has a "restaurant" || name_has a "dim sum"
  || name_has a "tea" || description_has a "dim sum".

Definition singleFilter (w : WeatherPreference) (text : str) (a : Attraction) : bool :=
  if is_indoor w
     && negb (category_in ["museum"; "cultural"; "shopping"; "food"]%string a)
  then false
  else if includes text (js "cultural") || includes text (js "harbor")
          || includes text (js "history")
  then category_in ["cultural"]%string a
  else if includes text (js "nature") || includes text (js "peak")
          || includes text (js "mountain")
  then negb (is_indoor w) && category_in ["nature"]%string a
  else if includes text (js "food") || includes text (js "market")
          || includes text (js "eat") || includes text (js "dimsum")
  then category_in ["food"]%string a
  else true.

(** The keyword selection before the minimum is enforced. *)
Definition keywordSelection (text : str) (w : WeatherPreference)
    (availableAttractions : list Attraction) : list Attraction :=
  if wantsCulturalAndFood text then
    let culturalAttractions := firstn 2 (filter (culturalFilter w) availableAttractions) in
    let foodAttractions := firstn 2 (filter foodFilter availableAttractions) in
    culturalAttractions ++ foodAttractions
  else firstn 5 (filter (singleFilter w text) availableAttractions).

Definition already_selected (selectedAttractions : list Attraction) (a : Attraction) : bool :=
  existsb (fun s => str_eqb (id s) (id a)) selectedAttractions.

(** Nothing selected: the first four of the catalog; fewer than three:
    topped up towards four from the rest of the catalog. *)
Definition ensureEnough (selectedAttractions availableAttractions : list Attraction)
    : list Attraction :=
  match selectedAttractions with
  | [] => firstn 4 availableAttractions
  | _ :: _ =>
      if List.length selectedAttractions <? 3 then
        let additionalAttractions :=
          firstn (4 - List.length selectedAttractions)
                 (filter (fun a => negb (already_selected selectedAttractions a))
                         availableAttractions) in
        selectedAttractions ++ additionalAttractions
      else selectedAttractions
  end.

Definition selectAttractions (userText : str) (availableAttractions : list Attraction)
    (realTimeData : option RealTimeData) : list Attraction :=
  let text := toLowerCase userText in
  let weatherPreference := weatherPreferenceOf realTimeData in
  ensureEnough (keywordSelection text weatherPreference availableAttractions)
               availableAttractions.

(** The traffic matrix the fallback may read: [realTimeData &&
    realTimeData.traffic]. *)
Definition trafficOf (realTimeData : option RealTimeData) : option TrafficMatrix :=
  match realTimeData with
  | Some rtd => traffic rtd
  | None => None
  end.

(** [travelTimeHours]: one and a half hours unless the matrix gives a
    positive time. *)
Definition travelTimeHours (realTimeData : option RealTimeData)
    (attraction nextAttraction : Attraction) : Q :=
  match trafficOf realTimeData with
  | Some m =>
      let trafficTime := getTrafficTime (Some m) (name attraction) (name nextAttraction) in
      if (0 <? trafficTime)%Z then (inject_Z trafficTime / 60)%Q else (3 # 2)%Q
  | None => (3 # 2)%Q
  end.

(** The body of the [map] over the selected attractions. *)
Fixpoint planFallback (realTimeData : option RealTimeData) (index : nat)
    (currentTime : Q) (sel : list Attraction) {struct sel} : list PlannedAttraction :=
  match sel with
  | [] => []
  | attraction :: rest =>
      let startTime := dateOfClock currentTime in
      let visitDuration := or_else (Some (estimatedVisitTime attraction)) 120 in
      let endTime := (startTime + visitDuration)%Z in
      let currentTime' :=
        match rest with
        | nextAttraction :: _ =>
            (currentTime + (inject_Z visitDuration / 60
                            + travelTimeHours realTimeData attraction nextAttraction))%Q
        | [] => currentTime
        end in
      {| attraction := attraction;
         recReason := Some (js "Matches keywords from your request");
         recVisitOrder := Z.of_nat index + 1;
         recPriority := Z.of_nat index + 1;
         plannedStartTime := StartDate (Some startTime);
         plannedEndTime := Some endTime;
         estimatedCost := getPriceEstimate (priceRange attraction);
         priority := Z.of_nat index + 1 |}
      :: planFallback realTimeData (S index) currentTime' rest
  end.

Definition getDirectFallbackTripPlan (userText : str)
    (availableAttractions : list Attraction) (realTimeData : option RealTimeData)
    : TripPlan :=
  let selectedAttractions := selectAttractions userText availableAttractions realTimeData in
  let planned := planFallback realTimeData 0 (inject_Z 9) selectedAttractions in
  {| plannedAttractions := planned;
     totalTime :=
       Some (fold_left (fun total pa => total + estimatedVisitTime (attraction pa))%Z
                       planned 0%Z);
     totalCost := sum_costs planned;
     aiProvider := js "Keyword Fallback" |}.

End Fallback.

Import Fallback.

(* ================================================================= *)
(** ** [generateDirectTripPlan] *)

Module Pipeline.

(** The fields of the service object the method reads and writes. *)
Record Service : Type := mkService {
  isAvailable : bool;
  currentRequest : option str
}.

(** Calls that leave the process. *)
Inductive Call : Type :=
| TrafficRequest        (* trafficService.getTrafficMatrix *)
| GeneratorRequest.     (* axios.post to the generator *)

Record Outcome : Type := mkOutcome {
  plan : TripPlan;
  service : Service;
  calls : list Call
}.

Definition same_key (marker : option str) (key : str) : bool :=
  match marker with
  | Some k => str_eqb k key
  | None => false
  end.

(** The deduplication key: the first 50 characters of the request and
    the clock reading. *)
Definition requestKey (userText : str) (now : Z) : str :=
  substring0 50 userText ++ js "-" ++ int_toString now.

(** [{ ...realTimeData, traffic: trafficData }] *)
Definition withTraffic (realTimeData : option RealTimeData)
    (trafficData : option TrafficMatrix) : option RealTimeData :=
  match realTimeData with
  | Some rtd => Some {| weather := weather rtd; alerts := alerts rtd; traffic := trafficData |}
  | None => Some {| weather := None; alerts := None; traffic := trafficData |}
  end.

Section WithEnvironment.

(** The collaborators: [JSON.parse] followed by the reading of the fields
    ([None] when it throws), the traffic provider, and the generator
    ([None] when the request fails). *)
Variable JSON_parse : str -> option AiTripPlan.
Variable getTrafficMatrix : list Attraction -> option TrafficMatrix.
Variable generator : str -> list Attraction -> option RealTimeData -> option str.

(** The [catch] block of the method. *)
Definition recover (userText : str) (availableAttractions : list Attraction)
    (realTimeData : option RealTimeData) : TripPlan :=
  let trafficData := getTrafficMatrix availableAttractions in
  getDirectFallbackTripPlan userText availableAttractions
                            (withTraffic realTimeData trafficData).

(** The [try] block once the generator has answered: [inl] a returned
    plan, [inr] an exception reaching the [catch] block. *)
Definition interpret (aiResponse userText : str) (availableAttractions : list Attraction)
    (trafficData : option TrafficMatrix) : TripPlan + unit :=
  match jsonCandidate aiResponse with
  | Some jsonStr =>
      let cleaned := cleanJson jsonStr in
      let direct :=
        match JSON_parse cleaned with
        | Some tripPlan =>
            processDirectTripPlan tripPlan userText availableAttractions trafficData
        | None => None
        end in
      match direct with
      | Some p => inl p
      | None =>
          match extractTripPlanFromText aiResponse userText availableAttractions with
          | Some fallbackPlan => inl fallbackPlan
          | None => inr tt
          end
      end
  | None => inr tt
  end.

Definition generateDirectTripPlan (this : Service) (now : Z) (userText : str)
    (availableAttractions : list Attraction) (realTimeData : option RealTimeData)
    : Outcome :=
  let key := requestKey userText now in
  if same_key (currentRequest this) key then
    {| plan := getDirectFallbackTripPlan userText availableAttractions realTimeData;
       service := this;
       calls := [] |}
  else
    let this' := {| isAvailable := isAvailable this; currentRequest := Some key |} in
    if negb (isAvailable this) then
      {| plan := recover userText availableAttractions realTimeData;
         service := this';
         calls := [TrafficRequest] |}
    else
      let trafficData := getTrafficMatrix availableAttractions in
      let enhancedRealTimeData := withTraffic realTimeData trafficData in
      match generator userText availableAttractions enhancedRealTimeData with
      | Some aiResponse =>
          match interpret aiResponse userText availableAttractions trafficData with
          | inl p =>
              {| plan := p; service := this';
                 calls := [TrafficRequest; GeneratorRequest] |}
          | inr _ =>
              {| plan := recover userText availableAttractions realTimeData;
                 service := this';
                 calls := [TrafficRequest; GeneratorRequest; TrafficRequest] |}
          end
      | None =>
          {| plan := recover userText availableAttractions realTimeData;
             service := this';
             calls := [TrafficRequest; GeneratorRequest; TrafficRequest] |}
      end.

End WithEnvironment.

End Pipeline.

Import Pipeline.

(* ================================================================= *)
(** ** [JSON.parse]

    The built-in deserializer, following the JSON grammar (ECMA-404):
    what it accepts, and the tree it builds.  String bodies are kept as
    written, escapes included. *)

Module Json.

Open Scope bool_scope.
#[local] Set Warnings "-register-all".

Inductive json : Type :=
| JNull
| JBool (b : bool)
| JNumber (literal : str)
| JString (body : str)
| JArray (elements : list json)
| JObject (members : list (str * json)).

Definition json_ws (c : ascii) : bool :=
  let n := code c in (n =? 32) || (n =? 9) || (n =? 10) || (n =? 13).

Fixpoint skip_ws (s : str) : str :=
  match s with
  | c :: s' => if json_ws c then skip_ws s' else s
  | [] => []
  end.

Definition is_hex (c : ascii) : bool :=
  match hex_val c with
  | Some _ => true
  | None => false
  end.

Definition simple_escape (c : ascii) : bool :=
  existsb (Ascii.eqb c) (dq :: list_ascii_of_string "\/bfnrt").

Definition push (c : ascii) (r : option (str * str)) : option (str * str) :=
  match r with
  | Some (body, rest) => Some (c :: body, rest)
  | None => None
  end.

(** The characters of a string after its opening quotation mark, up to
    the closing one. *)
Fixpoint string_body (s : str) : option (str * str) :=
  match s with
  | [] => None
  | c :: s' =>
      if Ascii.eqb c dq then Some ([], s')
      else if code c <? 32 then None
      else if Ascii.eqb c "\"%char then
        match s' with
        | e :: s'' =>
            if simple_escape e then push c (push e (string_body s''))
            else if Ascii.eqb e "u"%char then
              match s'' with
              | h1 :: h2 :: h3 :: h4 :: s3 =>
                  if is_hex h1 && is_hex h2 && is_hex h3 && is_hex h4
                  then push c (push e (push h1 (push h2 (push h3 (push h4
                         (string_body s3))))))
                  else None
              | _ => None
              end
            else None
        | [] => None
        end
      else push c (string_body s')
  end.

(** A number: the length of the longest prefix of [s] that is one. *)
Definition digits_len (s : str) : nat := List.length (digits_prefix s).

Definition int_len (s : str) : option nat :=
  match s with
  | c :: s' =>
      if Ascii.eqb c "0"%char then Some 1
      else if is_digit c then Some (S (digits_len s'))
      else None
  | [] => None
  end.

Definition frac_len (s : str) : option nat :=
  match s with
  | c :: s' =>
      if Ascii.eqb c "."%char then
        match digits_len s' with
        | O => None
        | n => Some (S n)
        end
      else Some 0
  | [] => Some 0
  end.

Definition exp_len (s : str) : option nat :=
  match s with
  | c :: s' =>
      if Ascii.eqb c "e"%char || Ascii.eqb c "E"%char then
        let signed :=
          match s' with
          | g :: _ => Ascii.eqb g "+"%char || Ascii.eqb g "-"%char
          | [] => false
          end in
        let k := if signed then 1 else 0 in
        match digits_len (skipn k s') with
        | O => None
        | n => Some (S (k + n))
        end
      else Some 0
  | [] => Some 0
  end.

Definition number_len (s : str) : option nat :=
  let k := match s with
           | c :: _ => if Ascii.eqb c "-"%char then 1 else 0
           | [] => 0
           end in
  match int_len (skipn k s) with
  | Some i =>
      match frac_len (skipn (k + i) s) with
      | Some f =>
          match exp_len (skipn (k + i + f) s) with
          | Some e => Some (k + i + f + e)
          | None => None
          end
      | None => None
      end
  | None => None
  end.

Definition keyword (w : string) (v : json) (s : str) : option (json * str) :=
  match lit_match (js w) s with
  | Some rest => Some (v, rest)
  | None => None
  end.

Fixpoint parse_value (fuel : nat) (s : str) {struct fuel} : option (json * str) :=
  match fuel with
  | O => None
  | S fuel' =>
      match skip_ws s with
      | [] => None
      | c :: s' =>
          if Ascii.eqb c "{"%char then
            match skip_ws s' with
            | d :: s'' =>
                if Ascii.eqb d "}"%char then Some (JObject [], s'')
                else match parse_members fuel' (d :: s'') with
                     | Some (ms, rest) => Some (JObject ms, rest)
                     | None => None
                     end
            | [] => None
            end
          else if Ascii.eqb c "["%char then
            match skip_ws s' with
            | d :: s'' =>
                if Ascii.eqb d "]"%char then Some (JArray [], s'')
                else match parse_elements fuel' (d :: s'') with
                     | Some (vs, rest) => Some (JArray vs, rest)
                     | None => None
                     end
            | [] => None
            end
          else if Ascii.eqb c dq then
            match string_body s' with
            | Some (body, rest) => Some (JString body, rest)
            | None => None
            end
          else if Ascii.eqb c "t"%char then keyword "true" (JBool true) (c :: s')
          else if Ascii.eqb c "f"%char then keyword "false" (JBool false) (c :: s')
          else if Ascii.eqb c "n"%char then keyword "null" JNull (c :: s')
          else
            match number_len (c :: s') with
            | Some n => Some (JNumber (firstn n (c :: s')), skipn n (c :: s'))
            | None => None
            end
      end
  end

with parse_elements (fuel : nat) (s : str) {struct fuel} : option (list json * str) :=
  match fuel with
  | O => None
  | S fuel' =>
      match parse_value fuel' s with
      | Some (v, rest) =>
          match skip_ws rest with
          | c :: rest' =>
              if Ascii.eqb c ","%char then
                match parse_elements fuel' rest' with
                | Some (vs, rest'') => Some (v :: vs, rest'')
                | None => None
                end
              else if Ascii.eqb c "]"%char then Some ([v], rest')
              else None
          | [] => None
          end
      | None => None
      end
  end

with parse_members (fuel : nat) (s : str) {struct fuel} : option (list (str * json) * str) :=
  match fuel with
  | O => None
  | S fuel' =>
      match skip_ws s with
      | q :: s' =>
          if Ascii.eqb q dq then
            match string_body s' with
            | Some (key, rest) =>
                match skip_ws rest with
                | c :: rest1 =>
                    if Ascii.eqb c ":"%char then
                      match parse_value fuel' rest1 with
                      | Some (v, rest2) =>
                          match skip_ws rest2 with
                          | d :: rest3 =>
                              if Ascii.eqb d ","%char then
                                match parse_members fuel' rest3 with
                                | Some (ms, rest4) => Some ((key, v) :: ms, rest4)
                                | None => None
                                end
                              else if Ascii.eqb d "}"%char then Some ([(key, v)], rest3)
                              else None
                          | [] => None
                          end
                      | None => None
                      end
                    else None
                | [] => None
                end
            | None => None
            end
          else None
      | [] => None
      end
  end.

(** [JSON.parse(text)]; [None] is the [SyntaxError] it throws.  The fuel
    exceeds the number of calls a text of that length can cause. *)
Definition parse (text : str) : option json :=
  match parse_value (2 * List.length text + 4) text with
  | Some (v, rest) =>
      match skip_ws rest with
      | [] => Some v
      | _ :: _ => None
      end
  | None => None
  end.

(** [object[key]]: the last member of that name. *)
Definition member (key : string) (j : json) : option json :=
  match j with
  | JObject ms =>
      option_map snd (find (fun kv => str_eqb (fst kv) (js key)) (rev ms))
  | _ => None
  end.

(** Reading the fields the scheduler uses.  A field is taken when it has
    the type of the prompt's schema; [null] and [false] are as good as
    absent; any other shape makes the reading fail. *)
Definition plain_body (body : str) : option str :=
  if existsb (Ascii.eqb "\"%char) body then None else Some body.

Definition plain_int (literal : str) : option Z :=
  match literal with
  | c :: ds =>
      if Ascii.eqb c "-"%char
      then if str_eqb (digits_prefix ds) ds then option_map Z.opp (parseInt ds) else None
      else if str_eqb (digits_prefix literal) literal then parseInt literal else None
  | [] => None
  end.

Definition read_number (x : option json) : option (option Z) :=
  match x with
  | None | Some JNull | Some (JBool false) => Some None
  | Some (JNumber l) => option_map Some (plain_int l)
  | _ => None
  end.

Definition read_string (x : option json) : option (option str) :=
  match x with
  | None | Some JNull | Some (JBool false) => Some None
  | Some (JString b) => option_map Some (plain_body b)
  | _ => None
  end.

Definition read_selected (j : json) : option Selected :=
  match j with
  | JObject _ =>
      match read_string (member "attractionId" j), read_string (member "reason" j),
            read_number (member "visitOrder" j), read_string (member "suggestedTime" j),
            read_number (member "duration" j) with
      | Some i, Some r, Some v, Some t, Some d =>
          Some {| attractionId := i; reason := r; visitOrder := v;
                  suggestedTime := t; duration := d |}
      | _, _, _, _, _ => None
      end
  | _ => None
  end.

Fixpoint read_all (js : list json) : option (list Selected) :=
  match js with
  | [] => Some []
  | j :: js' =>
      match read_selected j, read_all js' with
      | Some x, Some xs => Some (x :: xs)
      | _, _ => None
      end
  end.

Definition read_selection (x : option json) : option (option (list Selected)) :=
  match x with
  | None | Some JNull | Some (JBool false) => Some None
  | Some (JArray l) => option_map Some (read_all l)
  | _ => None
  end.

Definition readTripPlan (j : json) : option AiTripPlan :=
  match j with
  | JObject _ =>
      match read_selection (member "selectedAttractions" j),
            read_number (member "totalDuration" j),
            read_number (member "estimatedCost" j) with
      | Some s, Some t, Some c =>
          Some {| selectedAttractions := s; totalDuration := t; aiEstimatedCost := c |}
      | _, _, _ => None
      end
  | _ => None
  end.

(** [JSON.parse] as the pipeline uses it, on answers within the schema. *)
Definition parseTripPlan (text : str) : option AiTripPlan :=
  match parse text with
  | Some j => readTripPlan j
  | None => None
  end.

End Json.

(* ================================================================= *)
(** ** The fallback clock in IEEE double precision

    [currentTime] is a binary64 number in the running service.  The
    generator path rounds the minute it prints ([Math.round]); the
    fallback path hands [(currentTime % 1) * 60] to [setHours], which
    truncates it.  This module runs the fallback clock with the
    arithmetic of the machine. *)

Module Binary64.

Open Scope bool_scope.

(** The integer part of a finite double, toward zero. *)
Definition truncZ (x : float) : Z :=
  match Prim2SF x with
  | S754_finite s m e =>
      let a := if (0 <=? e)%Z then (Zpos m * 2 ^ e)%Z
               else (Zpos m / 2 ^ (- e))%Z in
      if s then (- a)%Z else a
  | _ => 0%Z
  end.

(** An integer below 2^53 as a double. *)
Definition ofZ (z : Z) : float :=
  if (z <? 0)%Z then PrimFloat.opp (PrimFloat.of_uint63 (Uint63.of_Z (- z)))
  else PrimFloat.of_uint63 (Uint63.of_Z z).

Definition is_integer (x : float) : bool := PrimFloat.eqb x (ofZ (truncZ x)).

(** [Math.floor(x)] *)
Definition floorZ (x : float) : Z :=
  if PrimFloat.ltb x 0 && negb (is_integer x) then (truncZ x - 1)%Z else truncZ x.

(** [x % 1]: the remainder has the sign of [x] and is exact. *)
Definition mod1 (x : float) : float := PrimFloat.sub x (ofZ (truncZ x)).

(** [setHours(Math.floor(currentTime), (currentTime % 1) * 60, 0, 0)] *)
Definition dateOfClock (currentTime : float) : Z :=
  (floorZ currentTime * 60 + truncZ (PrimFloat.mul (mod1 currentTime) (ofZ 60)))%Z.

Definition travelTimeHours (realTimeData : option RealTimeData)
    (attraction nextAttraction : Attraction) : float :=
  match trafficOf realTimeData with
  | Some m =>
      let trafficTime := getTrafficTime (Some m) (name attraction) (name nextAttraction) in
      if (0 <? trafficTime)%Z then PrimFloat.div (ofZ trafficTime) (ofZ 60)
      else 1.5%float
  | None => 1.5%float
  end.

Fixpoint planFallback (realTimeData : option RealTimeData) (index : nat)
    (currentTime : float) (sel : list Attraction) {struct sel} : list PlannedAttraction :=
  match sel with
  | [] => []
  | attraction :: rest =>
      let startTime := dateOfClock currentTime in
      let visitDuration := or_else (Some (estimatedVisitTime attraction)) 120 in
      let endTime := (startTime + visitDuration)%Z in
      let currentTime' :=
        match rest with
        | nextAttraction :: _ =>
            PrimFloat.add currentTime
              (PrimFloat.add (PrimFloat.div (ofZ visitDuration) (ofZ 60))
                             (travelTimeHours realTimeData attraction nextAttraction))
        | [] => currentTime
        end in
      {| attraction := attraction;
         recReason := Some (js "Matches keywords from your request");
         recVisitOrder := Z.of_nat index + 1;
         recPriority := Z.of_nat index + 1;
         plannedStartTime := StartDate (Some startTime);
         plannedEndTime := Some endTime;
         estimatedCost := getPriceEstimate (priceRange attraction);
         priority := Z.of_nat index + 1 |}
      :: planFallback realTimeData (S index) currentTime' rest
  end.

(** The visits of [getDirectFallbackTripPlan] as the machine schedules
    them. *)
Definition fallbackVisits (userText : str) (availableAttractions : list Attraction)
    (realTimeData : option RealTimeData) : list PlannedAttraction :=
  planFallback realTimeData 0 (ofZ 9)
               (selectAttractions userText availableAttractions realTimeData).

End Binary64.

Import Json.

(* ================================================================= *)
(** ** Sample data for the scenarios *)

Module Sample.

Definition site (i n c : string) (tier : string) (minutes : Z) : Attraction :=
  {| id := js i; name := js n; description := None; category := js c;
     priceRange := Some (js tier); estimatedVisitTime := minutes |}.

Definition temple : Attraction := site "c1" "Man Mo Hall" "cultural" "low" 120.
Definition market : Attraction := site "f1" "Night Bazaar" "food" "low" 90.
Definition trail : Attraction := site "n1" "Dragon Back Trail" "nature" "free" 180.

(** One cultural site, one food site, one nature site. *)
Definition threeSites : list Attraction := [temple; market; trail].

(** Three entries that share one identifier. *)
Definition sameIdThrice : list Attraction :=
  [ site "x" "Man Mo Hall" "cultural" "low" 120;
    site "x" "Dragon Back Trail" "nature" "free" 180;
    site "x" "Lion Rock" "nature" "free" 60 ].

(** Three sites of forty minutes each. *)
Definition fortyMinuteSites : list Attraction :=
  [ site "a" "Alpha Garden" "nature" "free" 40;
    site "b" "Beta Garden" "nature" "free" 40;
    site "c" "Gamma Garden" "nature" "free" 40 ].

(** A site whose price tier names an inherited member. *)
Definition oddlyPriced : list Attraction :=
  [ site "o" "Odd Hall" "cultural" "toString" 60 ].

Definition pick (i : string) (t : string) (minutes : Z) (order : Z) : Selected :=
  {| attractionId := Some (js i); reason := Some (js "why selected");
     visitOrder := Some order; suggestedTime := Some (js t);
     duration := Some minutes |}.

(** A well-formed answer with aggregates that do not match its items. *)
Definition answerWithAggregates : AiTripPlan :=
  {| selectedAttractions := Some [pick "c1" "09:00" 60 1; pick "f1" "11:30" 60 2];
     totalDuration := Some 270%Z;
     aiEstimatedCost := Some 800%Z |}.

(** The same answer without aggregates. *)
Definition answerWithoutAggregates : AiTripPlan :=
  {| selectedAttractions := Some [pick "c1" "09:00" 60 1; pick "f1" "11:30" 60 2];
     totalDuration := None;
     aiEstimatedCost := None |}.

(** An answer whose second identifier is not in the catalog. *)
Definition answerWithUnknownId : AiTripPlan :=
  {| selectedAttractions := Some [pick "f1" "09:30" 60 1; pick "ghost" "11:00" 60 2];
     totalDuration := None;
     aiEstimatedCost := None |}.

(** Traffic data with one slow route, from the market to the temple. *)
Definition slowRoute : TrafficMatrix :=
  {| routes := [ {| from := js "Night Bazaar"; to := js "Man Mo Hall";
                    trafficDuration := 200 |} ] |}.

(** The malformed answer of the repair scenario. *)
Definition malformedAnswer : str :=
  js "{'selectedAttractions':[{'attractionId':'a1','name':'X','visitOrder':1,'suggestedTime':'09: '00'','duration':'120}]".

(** The same answer written with a blank after every colon and comma,
    and what the cleaning chain makes of that text. *)
Definition malformedSpaced : str :=
  js "{'selectedAttractions': [{'attractionId': 'a1', 'name': 'X', 'visitOrder': 1, 'suggestedTime': '09: '00'', 'duration': '120}]".

Definition malformedSpacedCleaned : str :=
  js "{'selectedAttractions': [{'attractionId': 'a1', 'name': 'X', 'visitOrder': 1, 'suggestedTime': '09:00', 'duration': '120}],'totalDuration':270,'estimatedCost':800}".

(** A malformed answer of the kind the cleaning chain was written for:
    pretty-printed, with a split time, quoted numbers, a trailing comma
    and a cost word. *)
Definition prettyMalformed : str :=
  js "{
  'selectedAttractions': [
    {'attractionId': 'a1', 'name': 'X', 'visitOrder': 1, 'suggestedTime': '09: '00'', 'duration': '120'},
  ],
  'estimatedCost': medium,
  'totalDuration': '270'
}".

(** What the cleaning chain makes of it. *)
Definition malformedCleaned : str :=
  js "{'selectedAttractions':[{'attractionId':'a1','name':'X','visitOrder':1,'suggestedTime':'09: '00','duration':'120}],'totalDuration':270,'estimatedCost':800}".

(** An answer that does not parse (a comma is missing) and lists its
    visits out of order. *)
Definition unorderedAnswer : str :=
  js "{'selectedAttractions':[{'attractionId':'c1','name':'Man Mo Hall','suggestedTime':'14:00' 'duration':60},{'attractionId':'f1','name':'Night Bazaar','suggestedTime':'09:00','duration':60}],'totalDuration':120,'estimatedCost':50}".

Definition idle : Service := {| isAvailable := true; currentRequest := None |}.

Definition noTraffic (_ : list Attraction) : option TrafficMatrix := None.

Definition silentGenerator (_ : str) (_ : list Attraction) (_ : option RealTimeData)
    : option str := Some [].

Definition clearWeather : RealTimeData :=
  {| weather := Some {| weatherCondition := Some (js "Sunny");
                        condition := None; weatherDescription := None;
                        temperature := Some (inject_Z 24);
                        uvIndex := Some (inject_Z 5);
                        airQuality := Some (inject_Z 80) |};
     alerts := Some [];
     traffic := None |}.

End Sample.

(* ================================================================= *)
(** ** What the claims speak of *)

Module Spec.

(** The length of a visit as the plan carries it: end minus start. *)
Definition visitMinutes (pa : PlannedAttraction) : option Z :=
  match startMinutes (plannedStartTime pa), plannedEndTime pa with
  | Some s, Some e => Some (e - s)%Z
  | _, _ => None
  end.

Fixpoint sumOpt (l : list (option Z)) : option Z :=
  match l with
  | [] => Some 0%Z
  | x :: l' =>
      match x, sumOpt l' with
      | Some a, Some b => Some (a + b)%Z
      | _, _ => None
      end
  end.

(** The sum of the per-visit durations. *)
Definition sumOfDurations (pas : list PlannedAttraction) : option Z :=
  sumOpt (map visitMinutes pas).

Definition costNumber (c : PriceValue) : option Z :=
  match c with
  | Price n => Some n
  | Inherited _ => None
  end.

(** The sum of the per-visit cost estimates. *)
Definition sumOfCosts (pas : list PlannedAttraction) : option Z :=
  sumOpt (map (fun pa => costNumber (estimatedCost pa)) pas).

(** The sum of the catalog visit times of the visited attractions, 120
    standing in for a time of 0. *)
Definition sumOfCatalogTimes (pas : list PlannedAttraction) : Z :=
  fold_right (fun pa acc =>
                (or_else (Some (estimatedVisitTime (attraction pa))) 120 + acc)%Z)
             0%Z pas.

(** The travel time of the claims: the matrix lookup when it is
    positive, 90 minutes otherwise. *)
Definition travelTime (trafficData : option TrafficMatrix) (a b : Attraction) : Z :=
  let t := getTrafficTime trafficData (name a) (name b) in
  if (0 <? t)%Z then t else 90%Z.

(** Consecutive visits leave room for the journey. *)
Fixpoint spaced (trafficData : option TrafficMatrix) (pas : list PlannedAttraction) : Prop :=
  match pas with
  | a :: ((b :: _) as rest) =>
      (exists e s, plannedEndTime a = Some e
                   /\ startMinutes (plannedStartTime b) = Some s
                   /\ (e + travelTime trafficData (attraction a) (attraction b) <= s)%Z)
      /\ spaced trafficData rest
  | _ => True
  end.

(** Start times grow strictly along the list. *)
Fixpoint startsIncrease (pas : list PlannedAttraction) : Prop :=
  match pas with
  | a :: ((b :: _) as rest) =>
      (exists s t, startMinutes (plannedStartTime a) = Some s
                   /\ startMinutes (plannedStartTime b) = Some t
                   /\ (s < t)%Z)
      /\ startsIncrease rest
  | _ => True
  end.

(** The ordinals of the visits count up from [base]. *)
Definition ordinalsFrom (base : Z) (ordinal : PlannedAttraction -> Z)
    (pas : list PlannedAttraction) : Prop :=
  forall i pa, nth_error pas i = Some pa -> ordinal pa = (base + Z.of_nat i)%Z.

(** The number of different identifiers in a catalog. *)
Definition distinctIds (l : list Attraction) : nat :=
  List.length (nodup (list_eq_dec ascii_dec) (map id l)).

(** The five price tiers and the values they stand for. *)
Definition price_tiers : list str := map fst priceRangeValues.

Definition fixed_prices : list Z := [0; 25; 125; 350; 750]%Z.

(** Every visit of a plan is to an entry of the catalog. *)
Definition fromCatalog (catalog : list Attraction) (p : TripPlan) : Prop :=
  Forall (fun pa => In (attraction pa) catalog) (plannedAttractions p).

(** Every catalog visit time is non-negative. *)
Definition nonneg_times (catalog : list Attraction) : Prop :=
  Forall (fun a => 0 <= estimatedVisitTime a)%Z catalog.

(** Every duration the answer gives is non-negative. *)
Definition nonneg_durations (sel : list Selected) : Prop :=
  Forall (fun s => match duration s with
                   | Some d => (0 <= d)%Z
                   | None => True
                   end) sel.

(** Every identifier of the answer is one of the catalog. *)
Definition ids_known (catalog : list Attraction) (sel : list Selected) : Prop :=
  Forall (fun s => findAttraction catalog (attractionId s) <> None) sel.

(** The text the first visit of an answer starts from. *)
Definition firstText (selected : Selected) : str :=
  match truthy_str (suggestedTime selected) with
  | Some t => t
  | None => js "09:00"
  end.

(** The first start time of an answer reads as a time of day. *)
Definition first_time_reads (sel : list Selected) : Prop :=
  match sel with
  | s0 :: _ => exists M, (0 <= M)%Z /\ dateOfString (firstText s0) = Some M
  | [] => True
  end.

Definition all_digits (s : str) : Prop := Forall (fun c => is_digit c = true) s.

Definition space : ascii := " "%char.

(** The number of leading characters of a class, and the rest. *)
Fixpoint run (p : ascii -> bool) (s : str) : nat :=
  match s with
  | c :: s' => if p c then S (run p s') else 0
  | [] => 0
  end.

Fixpoint drop_run (p : ascii -> bool) (s : str) : str :=
  match s with
  | c :: s' => if p c then drop_run p s' else s
  | [] => []
  end.

Definition head_not_space (s : str) : Prop :=
  match s with
  | c :: _ => is_space c = false
  | [] => True
  end.

(** White space occurs as single blanks only. *)
Fixpoint sparse (s : str) : Prop :=
  match s with
  | [] => True
  | c :: s' => (is_space c = true -> c = space /\ head_not_space s') /\ sparse s'
  end.

(** Moreover no blank is last. *)
Fixpoint tidy_tail (s : str) : Prop :=
  match s with
  | [] => True
  | c :: s' =>
      (is_space c = true -> c = space /\ exists d s'', s' = d :: s'' /\ is_space d = false)
      /\ tidy_tail s'
  end.

(** A text in whitespace normal form. *)
Definition tidy (s : str) : Prop := head_not_space s /\ tidy_tail s.

(** The patterns and the replacement of the two whitespace passes. *)
Definition blanks : regex := plus is_space.
Definition line_break : regex := seq [RLit [newline]; star is_space].
Definition blank : template := [txt " "].

End Spec.

Import Spec.

(* ================================================================= *)
(** * The other methods of the two services and their callers

    [trafficService]: [processTrafficMatrix], [getTrafficMatrix] and the
    route selection of [generateTrafficSummary].  [LocalAIService]:
    [validatePreferences], [getFallbackPreferences],
    [guessActivitiesFromText], [getRecommendedTransportMode],
    [getWeatherRecommendation], [analyzeUserText],
    [processRecommendations], [getFallbackRecommendations] and
    [getPersonalizedRecommendations] and the list of attractions of
    [createDirectTripPlanPrompt].  [localAIController]: the plan
    built by the [/trip-plan] handler and the catalog that
    [/direct-plan] uses when the request brings none.

    The objects these methods read are records whose fields are absent
    ([None]) or have the type the prompts and the TypeScript interfaces
    give them; a number is an exact rational or integer as before, the
    score of a recommendation apart, which is a double or missing. *)

(** ** Arrays and maps of the language *)

Module JsArray.

Section Sort.

Variable A : Type.

(** [le a b] stands for [compareFn(a, b) <= 0]. *)
Variable le : A -> A -> bool.

Fixpoint insert (x : A) (l : list A) : list A :=
  match l with
  | [] => [x]
  | y :: l' => if le x y then x :: l else y :: insert x l'
  end.

(** [l.sort(compareFn)].  The sort of the language is stable, which
    fixes its result for a comparison by a numeric key; insertion from
    the right is one stable sort. *)
Definition sort (l : list A) : list A := fold_right insert [] l.

End Sort.

(** [l.join(sep)] *)
Fixpoint join (sep : str) (l : list str) : str :=
  match l with
  | [] => []
  | [x] => x
  | x :: l' => x ++ sep ++ join sep l'
  end.

(** [l.forEach((x, index) => ...)] with a callback that updates the
    variables [s] it closes over and may throw ([None]). *)
Fixpoint forEach (A State : Type) (callback : State -> A -> nat -> option State)
    (index : nat) (l : list A) (s : State) : option State :=
  match l with
  | [] => Some s
  | x :: l' =>
      match callback s x index with
      | Some s' => forEach callback (S index) l' s'
      | None => None
      end
  end.

(** [l.filter(x => ...)] with a callback that may throw. *)
Fixpoint filter_throwing (A : Type) (keep : A -> option bool) (l : list A)
    : option (list A) :=
  match l with
  | [] => Some []
  | x :: l' =>
      match keep x with
      | Some b =>
          match filter_throwing keep l' with
          | Some kept => Some (if b then x :: kept else kept)
          | None => None
          end
      | None => None
      end
  end.

Section Map.

Variable V : Type.

(** A [Map] with string keys: its entries in insertion order, one for
    each key. *)
Definition Map : Type := list (str * V).

(** [m.set(key, value)]: the value of a key already there is replaced
    where it stands. *)
Fixpoint Map_set (m : Map) (key : str) (value : V) : Map :=
  match m with
  | [] => [(key, value)]
  | (k, v) :: m' =>
      if str_eqb k key then (k, value) :: m' else (k, v) :: Map_set m' key value
  end.

(** [new Map(pairs)] *)
Definition Map_new (pairs : list (str * V)) : Map :=
  fold_left (fun m kv => Map_set m (fst kv) (snd kv)) pairs [].

(** [m.get(key)], [None] for [undefined]; the key may be something
    other than a string, which no entry has. *)
Definition Map_get (m : Map) (key : option str) : option V :=
  match key with
  | Some k => option_map snd (find (fun kv => str_eqb (fst kv) k) m)
  | None => None
  end.

(** [m.has(key)] *)
Definition Map_has (m : Map) (key : option str) : bool :=
  match Map_get m key with
  | Some _ => true
  | None => false
  end.

End Map.

End JsArray.

(* ================================================================= *)
(** ** [trafficService.processTrafficMatrix] and its users *)

Module DistanceMatrix.

Open Scope bool_scope.

(** One cell of the Distance Matrix answer.  [duration] and
    [duration_in_traffic] hold the [value] of the object of that name,
    in seconds, when the object is there. *)
Record Element : Type := mkElement {
  status : str;
  duration : option Z;
  duration_in_traffic : option Z
}.

Record Row : Type := mkRow {
  elements : list Element
}.

(** [response.data] *)
Record Answer : Type := mkAnswer {
  answerStatus : str;
  rows : list Row
}.

Inductive Condition : Type := light | moderate | heavy.

(** A route of the processed matrix.  The rounded [delayPercent], which
    nothing reads, is left out. *)
Record RouteEntry : Type := mkRouteEntry {
  from : str;
  to : str;
  fromId : str;
  toId : str;
  normalDuration : Z;
  trafficDuration : Z;
  trafficDelay : Z;
  trafficCondition : Condition
}.

Record Summary : Type := mkSummary {
  averageTrafficDelay : Z;
  totalRoutes : nat;
  heavyTrafficRoutes : nat
}.

Record Matrix : Type := mkMatrix {
  routes : list RouteEntry;
  summary : Summary
}.

(** [Math.ceil(x / d)] for an integer [x] and a positive integer [d]. *)
Definition ceilDiv (x d : Z) : Z := (- ((- x) / d))%Z.

(** The seconds read from a cell: [normalDuration], [trafficDuration]. *)
Definition normalSeconds (element : Element) : Z :=
  match duration element with
  | Some v => v
  | None => 0%Z
  end.

Definition trafficSeconds (element : Element) : Z :=
  match duration_in_traffic element with
  | Some v => v
  | None => normalSeconds element
  end.

Definition delaySeconds (element : Element) : Z :=
  (trafficSeconds element - normalSeconds element)%Z.

(** [normalDuration > 0 ? (trafficDelay / normalDuration) * 100 : 0] *)
Definition delayPercent (element : Element) : Q :=
  if (0 <? normalSeconds element)%Z
  then (inject_Z (delaySeconds element) / inject_Z (normalSeconds element) * 100)%Q
  else 0%Q.

Definition conditionOf (delayPercent : Q) : Condition :=
  if gtQ (Some delayPercent) 50 then heavy
  else if gtQ (Some delayPercent) 25 then moderate
  else light.

Definition is_heavy (c : Condition) : bool :=
  match c with
  | heavy => true
  | _ => false
  end.

(** The route object built for a cell. *)
Definition routeOf (origin destination : Attraction) (element : Element) : RouteEntry :=
  {| from := name origin;
     to := name destination;
     fromId := id origin;
     toId := id destination;
     normalDuration := ceilDiv (normalSeconds element) 60;
     trafficDuration := ceilDiv (trafficSeconds element) 60;
     trafficDelay := ceilDiv (delaySeconds element) 60;
     trafficCondition := conditionOf (delayPercent element) |}.

(** What the two loops update: [matrix.routes], [totalDelay],
    [validRoutes] and [matrix.summary.heavyTrafficRoutes]. *)
Record Progress : Type := mkProgress {
  pushed : list RouteEntry;
  totalDelay : Z;
  validRoutes : nat;
  heavySoFar : nat
}.

(** The body of the inner loop; [None] is the [TypeError] of reading
    [name] from an attraction that is not there. *)
Definition visitElement (attractions : list Attraction) (originIndex : nat)
    (p : Progress) (element : Element) (destIndex : nat) : option Progress :=
  if originIndex =? destIndex then Some p
  else if str_eqb (status element) (js "OK") then
    match nth_error attractions originIndex, nth_error attractions destIndex with
    | Some origin, Some destination =>
        let route := routeOf origin destination element in
        Some {| pushed := pushed p ++ [route];
                totalDelay := (totalDelay p + delaySeconds element)%Z;
                validRoutes := S (validRoutes p);
                heavySoFar :=
                  if is_heavy (trafficCondition route)
                  then S (heavySoFar p) else heavySoFar p |}
    | _, _ => None
    end
  else Some p.

Definition visitRow (attractions : list Attraction) (p : Progress) (row : Row)
    (originIndex : nat) : option Progress :=
  JsArray.forEach (visitElement attractions originIndex) 0 (elements row) p.

Definition processTrafficMatrix (data : Answer) (attractions : list Attraction)
    : option Matrix :=
  match JsArray.forEach (visitRow attractions) 0 (rows data)
          {| pushed := []; totalDelay := 0; validRoutes := 0; heavySoFar := 0 |} with
  | Some p =>
      Some {| routes := pushed p;
              summary :=
                {| averageTrafficDelay :=
                     if 0 <? validRoutes p
                     then ceilDiv (totalDelay p) (Z.of_nat (validRoutes p) * 60)
                     else 0%Z;
                   totalRoutes := validRoutes p;
                   heavyTrafficRoutes := heavySoFar p |} |}
  | None => None
  end.

Section WithDistanceMatrixApi.

(** The request to the Distance Matrix API for the given attractions;
    [None] when building or sending it throws. *)
Variable request : list Attraction -> option Answer.

(** [isAvailable] is whether an API key is configured; [None] is the
    [null] the method returns. *)
Definition getTrafficMatrix (isAvailable : bool) (attractions : list Attraction)
    : option Matrix :=
  if negb isAvailable then None
  else
    let limitedAttractions := firstn 10 attractions in
    match request limitedAttractions with
    | Some data =>
        if negb (str_eqb (answerStatus data) (js "OK")) then None
        else processTrafficMatrix data limitedAttractions
    | None => None
    end.

End WithDistanceMatrixApi.

(** The part of a route that [getTrafficTime] reads. *)
Definition asRoute (r : RouteEntry) : Route :=
  {| Model.from := from r; Model.to := to r;
     Model.trafficDuration := trafficDuration r |}.

Definition asTrafficMatrix (m : Matrix) : TrafficMatrix :=
  {| Model.routes := map asRoute (routes m) |}.

(** [(a, b) => b.trafficDelay - a.trafficDelay] is at most 0. *)
Definition byDelay (a b : RouteEntry) : bool :=
  (trafficDelay b <=? trafficDelay a)%Z.

(** The routes [generateTrafficSummary] lists: a delay above five
    minutes, the longest delays first, ten at most. *)
Definition significantRoutes (trafficMatrix : Matrix) : list RouteEntry :=
  firstn 10
    (JsArray.sort byDelay
       (filter (fun r => (5 <? trafficDelay r)%Z) (routes trafficMatrix))).

End DistanceMatrix.

Module DM := DistanceMatrix.

(* ================================================================= *)
(** ** Preferences: validation and the keyword analysis *)

Module Preferences.

Open Scope bool_scope.

(** A preferences object, as the generator answers it, as a request
    carries it and as the service returns it.  Every field is absent
    ([None]) or of the type that the schema of the prompt gives it: a
    number, a string, an array of strings.  An object with a field of
    another type, a budget that is a string for one, is not a value of
    this type.  [hasChildren] and [accessibilityNeeds] hold the
    truthiness of the field. *)
Record Preferences : Type := mkPreferences {
  budget : option Q;
  maxTravelTime : option Q;
  preferredActivities : option (list str);
  groupSize : option Q;
  hasChildren : bool;
  accessibilityNeeds : bool;
  transportMode : option str;
  confidence : option Q;
  extractedKeywords : option (list str);
  aiProvider : option str
}.

Definition validCategories : list str :=
  map js [ "cultural"; "nature"; "entertainment"; "shopping"; "food";
           "historical"; "museum"; "nightlife" ]%string.

Definition validTransport : list str :=
  map js [ "walking"; "driving"; "public_transport"; "mixed" ]%string.

(** [l.includes(x)] *)
Definition Array_includes (l : list str) (x : str) : bool :=
  existsb (str_eqb x) l.

(** [x || d] on a number. *)
Definition orQ (x : option Q) (d : Q) : Q :=
  match x with
  | Some q => if Qeq_bool q 0 then d else q
  | None => d
  end.

Definition Math_max (a b : Q) : Q := if Qle_bool a b then b else a.
Definition Math_min (a b : Q) : Q := if Qle_bool a b then a else b.

(** [x || []] *)
Definition orEmpty (A : Type) (x : option (list A)) : list A :=
  match x with
  | Some l => l
  | None => []
  end.

Definition validatePreferences (preferences : Preferences) : Preferences :=
  {| budget := Some (Math_max 100 (Math_min 10000 (orQ (budget preferences) 1000)));
     maxTravelTime :=
       Some (Math_max 15 (Math_min 300 (orQ (maxTravelTime preferences) 60)));
     preferredActivities :=
       Some (filter (Array_includes validCategories)
                    (orEmpty (preferredActivities preferences)));
     groupSize := Some (Math_max 1 (Math_min 20 (orQ (groupSize preferences) 2)));
     hasChildren := hasChildren preferences;
     accessibilityNeeds := accessibilityNeeds preferences;
     transportMode :=
       Some (match transportMode preferences with
             | Some t => if Array_includes validTransport t then t else js "mixed"
             | None => js "mixed"
             end);
     confidence := Some (Math_max 0 (Math_min 1 (orQ (confidence preferences) (4 # 5))));
     extractedKeywords := Some (orEmpty (extractedKeywords preferences));
     aiProvider := Some (js "Local Llama 3.1") |}.

(** [text.includes(w1) || text.includes(w2) || ...] *)
Definition mentions (text : str) (words : list string) : bool :=
  existsb (fun w => includes text (js w)) words.

(** [text.match(r)] as a condition. *)
Definition test (r : regex) (text : str) : bool :=
  match match_first r text with
  | Some _ => true
  | None => false
  end.

(** A letter under the [i] flag. *)
Definition letter (c : ascii) : regex := RClass (fun x => Ascii.eqb (lower_char x) c).

(** The two branches of [/\$\d+|\d+\s*hk/i]. *)
Definition dollar_amount : regex := seq [lit "$"; plus is_digit].
Definition hk_amount : regex :=
  seq [plus is_digit; star is_space; letter "h"; letter "k"].

(** [/\$?(\d+)/] *)
Definition amount : regex :=
  seq [RRep 0 (Some 1) (is_char "$"%char); RGroup (plus is_digit)].

(** One [if (...) preferences.preferredActivities.push(c)]. *)
Definition pushIf (text : str) (words : list string) (c : string) : list str :=
  if mentions text words then [js c] else [].

Definition getFallbackPreferences (userText : str) : Preferences :=
  let text := toLowerCase userText in
  let budget1 : Q :=
    (if mentions text ["budget"; "cheap"; "affordable"]%string then 500 else 1000)%Q in
  let budget2 : Q :=
    (if mentions text ["luxury"; "expensive"; "premium"]%string then 2000 else budget1)%Q in
  let budget3 : option Q :=
    if test dollar_amount text || test hk_amount text then
      match match_first amount text with
      | Some (_, g :: _) => option_map inject_Z (parseInt g)
      | _ => Some budget2
      end
    else Some budget2 in
  let family := mentions text ["family"; "children"; "kids"]%string in
  let groupSize1 : Q := (if family then 4 else 2)%Q in
  let groupSize2 : Q :=
    (if mentions text ["couple"; "two"]%string then 2 else groupSize1)%Q in
  let groupSize3 : Q :=
    (if mentions text ["solo"; "alone"]%string then 1 else groupSize2)%Q in
  let transport1 :=
    if mentions text ["walk"; "walking"]%string then js "walking" else js "mixed" in
  let transport2 :=
    if mentions text ["drive"; "car"]%string then js "driving" else transport1 in
  let transport3 :=
    if mentions text ["mtr"; "bus"; "public"]%string
    then js "public_transport" else transport2 in
  {| budget := budget3;
     maxTravelTime := Some 60%Q;
     preferredActivities :=
       Some (pushIf text ["culture"; "temple"; "heritage"]%string "cultural"
             ++ pushIf text ["nature"; "mountain"; "park"]%string "nature"
             ++ pushIf text ["food"; "eat"; "dim sum"]%string "food"
             ++ pushIf text ["shop"; "market"; "mall"]%string "shopping"
             ++ pushIf text ["museum"; "gallery"]%string "museum"
             ++ pushIf text ["night"; "bar"; "club"]%string "nightlife");
     groupSize := Some groupSize3;
     hasChildren := family;
     accessibilityNeeds := mentions text ["wheelchair"; "accessible"; "mobility"]%string;
     transportMode := Some transport3;
     confidence := Some (3 # 5)%Q;
     extractedKeywords := Some [];
     aiProvider := Some (js "Keyword Fallback") |}.

(** [text] is the lower-cased request. *)
Definition guessActivitiesFromText (text : str) : list str :=
  let activities :=
    pushIf text ["culture"; "temple"; "heritage"]%string "cultural"
    ++ pushIf text ["nature"; "mountain"; "park"]%string "nature"
    ++ pushIf text ["food"; "eat"; "market"]%string "food"
    ++ pushIf text ["shop"; "mall"]%string "shopping"
    ++ pushIf text ["museum"; "gallery"]%string "museum" in
  match activities with
  | [] => [js "cultural"]
  | _ :: _ => activities
  end.

(** The weather text of the two methods below: [weatherCondition], else
    [condition], lower-cased. *)
Definition weatherText (w : Weather) : str :=
  match truthy_str (weatherCondition w) with
  | Some s => toLowerCase s
  | None =>
      match truthy_str (condition w) with
      | Some s => toLowerCase s
      | None => []
      end
  end.

Definition getRecommendedTransportMode (realTimeData : option RealTimeData) : str :=
  match realTimeData with
  | Some rtd =>
      match weather rtd with
      | Some w =>
          let weatherCondition := weatherText w in
          if includes weatherCondition (js "rain")
             || includes weatherCondition (js "storm")
             || hasAlerts rtd
          then js "public_transport"
          else if gtQ (temperature w) 32 then js "public_transport"
          else js "mixed"
      | None => js "mixed"
      end
  | None => js "mixed"
  end.

Definition goodConditions : str := js "Good conditions for outdoor activities".

Definition getWeatherRecommendation (realTimeData : option RealTimeData) : str :=
  match realTimeData with
  | Some rtd =>
      match weather rtd with
      | Some w =>
          let alerts := orEmpty (alerts rtd) in
          let weatherCondition := weatherText w in
          let recommendations :=
            (if includes weatherCondition (js "rain")
             then [js "Rainy weather - indoor attractions recommended"] else [])
            ++ (if gtQ (temperature w) 30
                then [js "Hot weather - seek air-conditioned venues during peak hours"]
                else [])
            ++ (if gtQ (uvIndex w) 8
                then [js "High UV index - bring sun protection or stay indoors 11AM-3PM"]
                else [])
            ++ (if ltQ (airQuality w) 50
                then [js "Poor air quality - indoor activities strongly recommended"]
                else [])
            ++ (match alerts with
                | _ :: _ =>
                    [js "Active weather alerts: "
                     ++ JsArray.join (js ", ") (map alertTitle alerts)]
                | [] => []
                end) in
          match recommendations with
          | _ :: _ => JsArray.join (js "; ") recommendations
          | [] => goodConditions
          end
      | None => js "No weather data available"
      end
  | None => js "No weather data available"
  end.

(** The [extractedPreferences] of the rule-based trip plan. *)
Definition fallbackExtractedPreferences (userText : str)
    (realTimeData : option RealTimeData) : Preferences :=
  let text := toLowerCase userText in
  {| budget := Some 1000%Q;
     maxTravelTime := None;
     preferredActivities := Some (guessActivitiesFromText text);
     groupSize := Some 2%Q;
     hasChildren := false;
     accessibilityNeeds := false;
     transportMode := Some (getRecommendedTransportMode realTimeData);
     confidence := None;
     extractedKeywords := None;
     aiProvider := None |}.

Section WithGenerator.

(** [JSON.parse] on an answer that it rejects ([None]) or turns into an
    object whose fields, where present, are of the types of the schema;
    and the generator ([None] when the request fails). *)
Variable JSON_parse : str -> option Preferences.
Variable generator : str -> option str.

(** The preferences returned and whether the generator was asked. *)
Definition analyzeUserText (isAvailable : bool) (userText : str)
    : Preferences * list Call :=
  if negb isAvailable then (getFallbackPreferences userText, [])
  else
    match generator userText with
    | Some aiResponse =>
        match match_first brace_span aiResponse with
        | Some (jsonStr, _) =>
            match JSON_parse jsonStr with
            | Some preferences => (validatePreferences preferences, [GeneratorRequest])
            | None => (getFallbackPreferences userText, [GeneratorRequest])
            end
        | None => (getFallbackPreferences userText, [GeneratorRequest])
        end
    | None => (getFallbackPreferences userText, [GeneratorRequest])
    end.

End WithGenerator.

End Preferences.

Module P := Preferences.

(* ================================================================= *)
(** ** Recommendations *)

Module Recommendations.

Open Scope bool_scope.

(** A catalog entry with the one field of [accessibility] the rule-based
    filter reads ([accessibility?.wheelchairAccessible], by truthiness). *)
Record Entry : Type := mkEntry {
  attraction : Attraction;
  wheelchairAccessible : bool
}.

(** A score as a property holds it: a finite double by its exact value,
    and [None] when the property is absent or holds [NaN].  An infinite
    score and a score of another type are not values of this type. *)
Definition Score : Type := option Q.

(** The exact value of a double, [None] for one that is not finite. *)
Definition numberOf (x : float) : Score :=
  match Prim2SF x with
  | S754_zero _ => Some 0%Q
  | S754_finite s m e =>
      let a := if (0 <=? e)%Z then inject_Z (Zpos m * 2 ^ e)
               else Qmake (Zpos m) (Z.to_pos (2 ^ (- e))) in
      Some (if s then Qopp a else a)
  | _ => None
  end.

(** One element of the generator's answer.  [recommendationScore] is
    [None] for an element that carries no such number. *)
Record Recommendation : Type := mkRecommendation {
  attractionId : option str;
  recommendationScore : Score;
  matchingReasons : list str;
  suggestedVisitTime : option str;
  suggestedDuration : option Z;
  personalizedTips : list str
}.

Record AiRecommendation : Type := mkAiRecommendation {
  score : Score;
  reasons : list str;
  visitTime : option str;          (* suggestedVisitTime *)
  visitDuration : option Z;        (* suggestedDuration *)
  tips : list str;                 (* personalizedTips *)
  aiProvider : str
}.

(** A catalog entry spread into a new object next to
    [aiRecommendation]. *)
Record Recommended : Type := mkRecommended {
  entry : Entry;
  aiRecommendation : AiRecommendation
}.

(** [(a, b) => b.aiRecommendation.score - a.aiRecommendation.score] is
    at most 0.  The difference of two finite doubles has the sign of
    the exact difference.  When either score is not a number the
    difference is [NaN], which [sort] reads as 0; such a comparator is
    not consistent and the order [sort] then produces is left to the
    implementation: what is stated about such a list below holds of
    every rearrangement. *)
Definition byScore (a b : Recommended) : bool :=
  match score (aiRecommendation b), score (aiRecommendation a) with
  | Some y, Some x => Qle_bool y x
  | _, _ => true
  end.

Definition processRecommendations (recommendations : list Recommendation)
    (availableAttractions : list Entry) : list Recommended :=
  let attractionMap :=
    JsArray.Map_new (map (fun a => (id (attraction a), a)) availableAttractions) in
  JsArray.sort byScore
    (flat_map
       (fun rec =>
          (* the spread of [attractionMap.get(rec.attractionId)] *)
          match JsArray.Map_get attractionMap (attractionId rec) with
          | Some a =>
              [ {| entry := a;
                   aiRecommendation :=
                     {| score := recommendationScore rec;
                        reasons := matchingReasons rec;
                        visitTime := suggestedVisitTime rec;
                        visitDuration := suggestedDuration rec;
                        tips := personalizedTips rec;
                        aiProvider := js "Local Llama 3.1" |} |} ]
          | None => []
          end)
       (filter (fun rec => JsArray.Map_has attractionMap (attractionId rec))
               recommendations)).

(** [attractionPrice > preferences.budget]: false when either side is
    not a number. *)
Definition overBudget (attractionPrice : PriceValue) (budget : option Q) : bool :=
  match attractionPrice, budget with
  | Price n, Some b => negb (Qle_bool (inject_Z n) b)
  | _, _ => false
  end.

(** The callback of the filter; [None] is the [TypeError] of reading
    [length] from a [preferredActivities] that is not there. *)
Definition passes (preferences : Preferences.Preferences) (a : Entry) : option bool :=
  let attractionPrice := getPriceEstimate (priceRange (attraction a)) in
  if overBudget attractionPrice (Preferences.budget preferences) then Some false
  else
    match Preferences.preferredActivities preferences with
    | None => None
    | Some activities =>
        if (0 <? List.length activities)
           && negb (Preferences.Array_includes activities (category (attraction a)))
        then Some false
        else if Preferences.accessibilityNeeds preferences
                && negb (wheelchairAccessible a)
        then Some false
        else Some true
    end.

(** [0.8 - (index * 0.1)], in doubles. *)
Definition fallbackScore (index : nat) : float :=
  PrimFloat.sub 0x1.999999999999ap-1%float
                (PrimFloat.mul (Binary64.ofZ (Z.of_nat index)) 0x1.999999999999ap-4%float).

(** The [map] over the six entries kept. *)
Fixpoint scored (index : nat) (l : list Entry) : list Recommended :=
  match l with
  | [] => []
  | a :: l' =>
      {| entry := a;
         aiRecommendation :=
           {| score := numberOf (fallbackScore index);
              reasons := [js "Matches your preferences"; js "Within budget";
                          js "Popular destination"];
              visitTime := Some (js "10:00");
              visitDuration := Some (estimatedVisitTime (attraction a));
              tips := [js "Book in advance"; js "Bring comfortable shoes"];
              aiProvider := js "Rule-based Fallback" |} |}
      :: scored (S index) l'
  end.

Definition getFallbackRecommendations (preferences : Preferences.Preferences)
    (availableAttractions : list Entry) : option (list Recommended) :=
  match JsArray.filter_throwing (passes preferences) availableAttractions with
  | Some kept => Some (scored 0 (firstn 6 kept))
  | None => None
  end.

(** [/\[[\s\S]*\]/] *)
Definition bracket_span : regex := seq [lit "["; star any_char; lit "]"].

Section WithGenerator.

(** [JSON.parse] followed by the reading of the elements ([None] when
    either throws), and the generator ([None] when the request fails). *)
Variable JSON_parse : str -> option (list Recommendation).
Variable generator : Preferences.Preferences -> list Entry -> option str.

(** [None] is a rejected promise: the rule-based list is computed in
    the [try] block or in the [catch] block, where nothing catches what
    it throws. *)
Definition getPersonalizedRecommendations (isAvailable : bool)
    (preferences : Preferences.Preferences) (availableAttractions : list Entry)
    : option (list Recommended) :=
  if negb isAvailable then getFallbackRecommendations preferences availableAttractions
  else
    match generator preferences availableAttractions with
    | Some aiResponse =>
        match match_first bracket_span aiResponse with
        | Some (jsonStr, _) =>
            match JSON_parse jsonStr with
            | Some recommendations =>
                Some (processRecommendations recommendations availableAttractions)
            | None => getFallbackRecommendations preferences availableAttractions
            end
        | None => getFallbackRecommendations preferences availableAttractions
        end
    | None => getFallbackRecommendations preferences availableAttractions
    end.

End WithGenerator.

End Recommendations.

Module R := Recommendations.

(* ================================================================= *)
(** ** The list of attractions of [createDirectTripPlanPrompt] *)

Module Prompt.

(** A field inside a template literal; one that is absent reads
    [undefined]. *)
Definition shown (x : option str) : str :=
  match x with
  | Some s => s
  | None => js "undefined"
  end.

(** The line of the prompt for one attraction. *)
Definition attractionLine (a : Attraction) : str :=
  id a ++ js ": " ++ name a ++ js " - " ++ shown (description a)
  ++ js " (" ++ category a ++ js ", " ++ shown (priceRange a) ++ js ", "
  ++ int_toString (estimatedVisitTime a) ++ js "min)".

(** [attractions.slice(0, 15).map(...).join('\n')] *)
Definition attractionsList (attractions : list Attraction) : str :=
  JsArray.join [newline] (map attractionLine (firstn 15 attractions)).

(** [attractionsList.split('\n').slice(0, 8).join('\n')] *)
Definition firstFewAttractions (attractions : list Attraction) : str :=
  JsArray.join [newline] (firstn 8 (split_char newline (attractionsList attractions))).

End Prompt.

(* ================================================================= *)
(** ** [localAIController]: [/trip-plan] and the built-in catalog of
    [/direct-plan] *)

Module Controller.

Open Scope bool_scope.

Record Planned : Type := mkPlanned {
  visited : Recommendations.Recommended;   (* attraction *)
  plannedStartTime : Z;                    (* minutes since midnight of today *)
  plannedEndTime : Z;
  estimatedCost : PriceValue;
  priority : Z
}.

(** [attraction.estimatedVisitTime || 120] *)
Definition visitTimeOf (r : Recommendations.Recommended) : Z :=
  or_else (Some (estimatedVisitTime (Recommendations.attraction (Recommendations.entry r))))
          120.

(** [priceRangeValues[attraction.priceRange] || 0], over the same table
    as [getPriceEstimate]. *)
Definition priceOf (r : Recommendations.Recommended) : PriceValue :=
  getPriceEstimate (priceRange (Recommendations.attraction (Recommendations.entry r))).

(** The [map] over the recommendations: [setHours(9 + index * 2, 0, 0,
    0)]; [aiRecommendation] has no [priority], so the priority is
    [index + 1]. *)
Fixpoint planRecommended (index : nat) (recommendations : list Recommendations.Recommended)
    : list Planned :=
  match recommendations with
  | [] => []
  | r :: rest =>
      let startTime := ((9 + Z.of_nat index * 2) * 60)%Z in
      {| visited := r;
         plannedStartTime := startTime;
         plannedEndTime := (startTime + visitTimeOf r)%Z;
         estimatedCost := priceOf r;
         priority := Z.of_nat index + 1 |}
      :: planRecommended (S index) rest
  end.

Record DayItinerary : Type := mkDayItinerary {
  attractions : list Planned;
  totalTime : Z;
  totalCost : option Z        (* [None]: not a number *)
}.

(** The day itinerary of the [/trip-plan] answer. *)
Definition tripPlanItinerary (recommendations : list Recommendations.Recommended)
    : DayItinerary :=
  {| attractions := planRecommended 0 recommendations;
     totalTime := fold_left (fun total r => (total + visitTimeOf r)%Z) recommendations 0%Z;
     totalCost := fold_left (fun total r => add_cost total (priceOf r))
                            recommendations (Some 0%Z) |}.

(** The attractions [/direct-plan] plans with when the request has no
    [attractions]. *)
Definition builtIn (i n c tier : string) (minutes : Z) (d : string) : Attraction :=
  {| id := js i; name := js n; description := Some (js d); category := js c;
     priceRange := Some (js tier); estimatedVisitTime := minutes |}.

Definition directPlanCatalog : list Attraction :=
  [ builtIn "the-peak" "Victoria Peak" "nature" "medium" 180
            "Iconic mountain peak with panoramic city views";
    builtIn "tsim-sha-tsui" "Tsim Sha Tsui Promenade" "cultural" "free" 120
            "Waterfront promenade with harbor views";
    builtIn "temple-street" "Temple Street Night Market" "food" "low" 150
            "Famous night market with street food and shopping";
    builtIn "victoria-harbor" "Victoria Harbor" "cultural" "free" 90
            "Historic harbor with stunning city skyline views";
    builtIn "star-ferry" "Star Ferry" "cultural" "low" 30
            "Historic ferry service across Victoria Harbor" ].

End Controller.

Module C := Controller.

(* ================================================================= *)
(** ** What the further properties speak of *)

Module Terms.

Open Scope bool_scope.

(** One name contains the other, case apart: what [getTrafficTime]
    takes for the same place. *)
Definition related (a b : str) : bool :=
  includes (toLowerCase a) (toLowerCase b)
  || includes (toLowerCase b) (toLowerCase a).

(** No two entries of the list have related names. *)
Definition unrelated_names (attractions : list Attraction) : Prop :=
  forall k l a b,
    nth_error attractions k = Some a -> nth_error attractions l = Some b ->
    related (name a) (name b) = true -> k = l.

(** The same as a test. *)
Fixpoint unrelatedb (attractions : list Attraction) : bool :=
  match attractions with
  | [] => true
  | a :: rest =>
      forallb (fun b => negb (related (name a) (name b))) rest && unrelatedb rest
  end.

(** Every row and every cell of the answer stands for an attraction. *)
Definition fits (data : DistanceMatrix.Answer) (attractions : list Attraction) : Prop :=
  List.length (DistanceMatrix.rows data) <= List.length attractions
  /\ Forall (fun row => List.length (DistanceMatrix.elements row)
                        <= List.length attractions)
            (DistanceMatrix.rows data).

(** The cell of the answer for the journey from position [i] to
    position [j]. *)
Definition cell (data : DistanceMatrix.Answer) (i j : nat)
    : option DistanceMatrix.Element :=
  match nth_error (DistanceMatrix.rows data) i with
  | Some row => nth_error (DistanceMatrix.elements row) j
  | None => None
  end.

(** The route [r] is the one built for the cell [e] of the journey from
    position [i] to position [j]. *)
Definition built_from (attractions : list Attraction) (i j : nat)
    (e : DM.Element) (r : DM.RouteEntry) : Prop :=
  i <> j /\ DM.status e = js "OK"
  /\ exists o d, nth_error attractions i = Some o
                 /\ nth_error attractions j = Some d
                 /\ r = DM.routeOf o d e.

(** The counters of the loops agree with the routes pushed so far. *)
Definition counted (p : DM.Progress) : Prop :=
  DM.validRoutes p = List.length (DM.pushed p)
  /\ DM.heavySoFar p
     = List.length (filter (fun r => DM.is_heavy (DM.trafficCondition r)) (DM.pushed p)).

(** The first run of digits of a text, and the number it writes. *)
Fixpoint firstDigits (s : str) : option str :=
  match s with
  | [] => None
  | c :: s' => if is_digit c then Some (digits_prefix s) else firstDigits s'
  end.

Definition firstNumber (s : str) : option Z :=
  option_map digits_value (firstDigits s).

Definition within (lo hi : Q) (x : option Q) : Prop :=
  match x with
  | Some q => (lo <= q /\ q <= hi)%Q
  | None => False
  end.

Definition all_in (allowed : list str) (x : option (list str)) : Prop :=
  match x with
  | Some l => Forall (fun c => In c allowed) l
  | None => False
  end.

Definition one_of (allowed : list str) (x : option str) : Prop :=
  match x with
  | Some t => In t allowed
  | None => False
  end.

(** The ranges [validatePreferences] enforces, the budget apart. *)
Definition valid_but_budget (p : Preferences.Preferences) : Prop :=
  within 15 300 (Preferences.maxTravelTime p)
  /\ within 1 20 (Preferences.groupSize p)
  /\ within 0 1 (Preferences.confidence p)
  /\ all_in Preferences.validCategories (Preferences.preferredActivities p)
  /\ one_of Preferences.validTransport (Preferences.transportMode p).

(** The entry meets the three conditions of the rule-based filter:
    its price is not above the budget, its category is a preferred one
    when any is named, and it is accessible when that is needed. *)
Definition meets (p : Preferences.Preferences) (activities : list str)
    (a : Recommendations.Entry) : Prop :=
  Recommendations.overBudget
    (getPriceEstimate (priceRange (Recommendations.attraction a)))
    (Preferences.budget p) = false
  /\ (activities = [] \/ In (category (Recommendations.attraction a)) activities)
  /\ (Preferences.accessibilityNeeds p = true
      -> Recommendations.wheelchairAccessible a = true).

(** Both scores are numbers and the second is not above the first. *)
Definition falling (a b : Recommendations.Recommended) : Prop :=
  match Recommendations.score (Recommendations.aiRecommendation a),
        Recommendations.score (Recommendations.aiRecommendation b) with
  | Some x, Some y => (y <= x)%Q
  | _, _ => False
  end.

(** The element carries a number as its score. *)
Definition has_score (rec : Recommendations.Recommendation) : Prop :=
  Recommendations.recommendationScore rec <> None.

(** No field of the entry that the prompt shows has a line break. *)
Definition one_line (a : Attraction) : Prop :=
  ~ In newline (id a) /\ ~ In newline (name a)
  /\ ~ In newline (Prompt.shown (description a))
  /\ ~ In newline (category a) /\ ~ In newline (Prompt.shown (priceRange a)).

(** The value occurs at two positions of the list. *)
Definition occurs_twice (A : Type) (x : A) (l : list A) : Prop :=
  exists i j, i < j /\ nth_error l i = Some x /\ nth_error l j = Some x.

(** The number of visits to an attraction whose catalog visit time is
    0. *)
Definition untimedVisits (pas : list PlannedAttraction) : nat :=
  List.length (filter (fun pa => (estimatedVisitTime (attraction pa) =? 0)%Z) pas).

(** The weather readings that no rule of the service reacts to. *)
Definition mild (w : Weather) : Prop :=
  gtQ (temperature w) 30 = false /\ gtQ (uvIndex w) 8 = false
  /\ ltQ (airQuality w) 50 = false.

Definition valid (p : Preferences.Preferences) : Prop :=
  within 100 10000 (Preferences.budget p) /\ valid_but_budget p.

End Terms.

Import Terms.

(* ================================================================= *)
(** ** Further sample data *)

Module Cases.

Definition usable (normal inTraffic : Z) : DM.Element :=
  {| DM.status := js "OK"; DM.duration := Some normal;
     DM.duration_in_traffic := Some inTraffic |}.

(** The answer of the Distance Matrix API for the temple and the
    market: ten minutes one way and, in traffic, a quarter of an hour;
    the way back was not found. *)
Definition twoByTwo : DM.Answer :=
  {| DM.answerStatus := js "OK";
     DM.rows :=
       [ {| DM.elements := [usable 0 0; usable 600 900] |};
         {| DM.elements :=
              [ {| DM.status := js "NOT_FOUND"; DM.duration := None;
                   DM.duration_in_traffic := None |};
                usable 0 0 ] |} ] |}.

Definition templeAndMarket : list Attraction := [Sample.temple; Sample.market].

(** A catalog of eleven attractions that begins with the temple and the
    market, and a Distance Matrix API that answers as above. *)
Definition elevenSites : list Attraction :=
  [ Sample.temple; Sample.market; Sample.trail;
    Sample.site "s4" "Lion Rock" "nature" "free" 60;
    Sample.site "s5" "Star Pier" "cultural" "free" 30;
    Sample.site "s6" "Jade Lane" "shopping" "low" 60;
    Sample.site "s7" "Bird Garden" "nature" "free" 45;
    Sample.site "s8" "Clock Tower" "cultural" "free" 20;
    Sample.site "s9" "Tai O Village" "cultural" "low" 180;
    Sample.site "s10" "Sky Terrace" "nature" "medium" 60;
    Sample.site "s11" "Ocean Bay" "nature" "free" 120 ].

Definition twoByTwoApi (_ : list Attraction) : option DM.Answer := Some twoByTwo.

(** The one route that answer gives, and the matrix made of it. *)
(** A thunderstorm on a mild day, no alert in force. *)
Definition thunderstorm : Weather :=
  {| weatherCondition := Some (js "Thunderstorm");
     condition := None; weatherDescription := None;
     temperature := Some (inject_Z 25);
     uvIndex := Some (inject_Z 3);
     airQuality := Some (inject_Z 70) |}.

Definition stormyDay : RealTimeData :=
  {| weather := Some thunderstorm; alerts := Some []; traffic := None |}.

(** The three entries that share one identifier, as catalog entries
    of the recommendation path, and a recommendation of that
    identifier. *)
Definition sharedEntries : list R.Entry :=
  map (fun a => {| R.attraction := a; R.wheelchairAccessible := true |})
      Sample.sameIdThrice.

Definition recommendX : R.Recommendation :=
  {| R.attractionId := Some (js "x"); R.recommendationScore := Some (9 # 10)%Q;
     R.matchingReasons := []; R.suggestedVisitTime := None;
     R.suggestedDuration := None; R.personalizedTips := [] |}.

(** Preferences without a list of activities, as a request may carry
    them. *)
Definition budgetOnly : P.Preferences :=
  {| P.budget := Some (inject_Z 500); P.maxTravelTime := None;
     P.preferredActivities := None; P.groupSize := None;
     P.hasChildren := false; P.accessibilityNeeds := false;
     P.transportMode := None; P.confidence := None;
     P.extractedKeywords := None; P.aiProvider := None |}.

(** The same with the food category asked for. *)
Definition foodLover : P.Preferences :=
  {| P.budget := Some (inject_Z 500); P.maxTravelTime := None;
     P.preferredActivities := Some [js "food"]; P.groupSize := None;
     P.hasChildren := false; P.accessibilityNeeds := false;
     P.transportMode := None; P.confidence := None;
     P.extractedKeywords := None; P.aiProvider := None |}.

Definition threeEntries : list R.Entry :=
  map (fun a => {| R.attraction := a; R.wheelchairAccessible := true |})
      Sample.threeSites.

(** What the rule-based filter recommends to the food lover. *)
Definition marketOnly : list R.Recommended :=
  R.scored 0 [ {| R.attraction := Sample.market; R.wheelchairAccessible := true |} ].

Definition noRecommendations (_ : str) : option (list R.Recommendation) := None.

Definition unreachable (_ : P.Preferences) (_ : list R.Entry) : option str := None.

(** Two recommendations, the first of an attraction that takes three
    hours, and the plan [/trip-plan] makes of them. *)
Definition trailThenMarket : list R.Recommended :=
  R.scored 0 [ {| R.attraction := Sample.trail; R.wheelchairAccessible := true |};
               {| R.attraction := Sample.market; R.wheelchairAccessible := true |} ].

Definition noVisit : C.Planned :=
  {| C.visited := {| R.entry := {| R.attraction := Sample.trail;
                                   R.wheelchairAccessible := true |};
                     R.aiRecommendation :=
                       {| R.score := Some 0%Q; R.reasons := []; R.visitTime := None;
                          R.visitDuration := None; R.tips := [];
                          R.aiProvider := [] |} |};
     C.plannedStartTime := 0; C.plannedEndTime := 0;
     C.estimatedCost := Price 0; C.priority := 0 |}.

Definition trailVisit : C.Planned := nth 0 (C.planRecommended 0 trailThenMarket) noVisit.
Definition marketVisit : C.Planned := nth 1 (C.planRecommended 0 trailThenMarket) noVisit.

(** A request for culture and food. *)
Definition cultureAndFood : str := js "a cultural morning and good food".

(** A request that names an amount after another number. *)
Definition twoNights : str := js "2 nights, $500 in all".

Definition templeToMarket : DM.RouteEntry :=
  DM.routeOf Sample.temple Sample.market (usable 600 900).

Definition twoByTwoMatrix : DM.Matrix :=
  {| DM.routes := [templeToMarket];
     DM.summary := {| DM.averageTrafficDelay := 5; DM.totalRoutes := 1;
                      DM.heavyTrafficRoutes := 0 |} |}.

End Cases.

(* ================================================================= *)
(** * Properties *)

(** ** Strings *)

Lemma str_eqb_refl (s : str) : str_eqb s s = true.
Proof.
  induction s as [|c s IH]; simpl; [reflexivity|].
  now rewrite Ascii.eqb_refl.
Qed.

Lemma str_eqb_eq (a b : str) : str_eqb a b = true <-> a = b.
Proof.
  split; [|intros ->; apply str_eqb_refl].
  revert b; induction a as [|x a IH]; intros [|y b]; simpl; try easy.
  intros H. apply andb_prop in H as [Hxy Hab].
  apply Ascii.eqb_eq in Hxy. apply IH in Hab. now subst.
Qed.

Lemma str_eqb_neq (a b : str) : str_eqb a b = false <-> a <> b.
Proof.
  split.
  - intros H E. apply str_eqb_eq in E. congruence.
  - intros H. destruct (str_eqb a b) eqn:E; [|reflexivity].
    apply str_eqb_eq in E. contradiction.
Qed.

(** ** Lists *)

Lemma find_none_intro (A : Type) (f : A -> bool) (l : list A) :
  (forall x, In x l -> f x = false) -> find f l = None.
Proof.
  induction l as [|a l IH]; simpl; intros H; [reflexivity|].
  rewrite (H a (or_introl eq_refl)). apply IH. intros x Hx. apply H. now right.
Qed.

Lemma find_In (A : Type) (f : A -> bool) (l : list A) (x : A) :
  find f l = Some x -> In x l.
Proof. intros H. now apply find_some in H. Qed.

(** ** Price table *)

(** X5.  Outside the five tiers and the members every object inherits,
    the estimate of a price tier is 0. *)
Lemma getPriceEstimate_unknown (k : str) :
  ~ In k price_tiers -> ~ In k object_prototype_members ->
  getPriceEstimate (Some k) = Price 0.
Proof.
  intros Htier Hproto. unfold getPriceEstimate, lookup, property_key.
  assert (Hfind : find (fun kv : str * Z => str_eqb (fst kv) k) priceRangeValues = None).
  { apply find_none_intro. intros kv Hin. apply str_eqb_neq. intros E.
    apply Htier. subst k. now apply in_map. }
  rewrite Hfind.
  assert (Hex : existsb (str_eqb k) object_prototype_members = false).
  { apply not_true_is_false. intros E. apply existsb_exists in E as [m [Hm E]].
    apply str_eqb_eq in E. subst m. contradiction. }
  now rewrite Hex.
Qed.

Lemma getPriceEstimate_unknown_witness : getPriceEstimate (Some (js "premium")) = Price 0.
Proof.
  apply (@getPriceEstimate_unknown (js "premium")).
  - vm_compute. intros H. repeat (destruct H as [H | H]; [discriminate H|]). exact H.
  - vm_compute. intros H. repeat (destruct H as [H | H]; [discriminate H|]). exact H.
Defined.

Lemma getPriceEstimate_absent : getPriceEstimate None = Price 0.
Proof. reflexivity. Qed.

(** A numeric estimate is always one of the five fixed values. *)
Lemma getPriceEstimate_numeric (p : option str) (n : Z) :
  getPriceEstimate p = Price n -> In n fixed_prices.
Proof.
  unfold getPriceEstimate, lookup.
  destruct (find _ priceRangeValues) as [kv|] eqn:Hfind.
  - apply find_some in Hfind as [Hin _].
    simpl in Hin.
    repeat (destruct Hin as [<- | Hin];
            [simpl; intros [= <-]; simpl; tauto|]).
    contradiction.
  - destruct (existsb _ _); [discriminate|]. intros [= <-]. simpl; tauto.
Qed.

(** C10 (evaluation at the failing input).  The price tier [toString] is
    none of free, low, medium, high, luxury, yet [getPriceEstimate] does
    not return 0 for it: the table lookup finds the member every object
    inherits, which is truthy, so [|| 0] does not apply.  The fallback
    itinerary over a catalog holding such a tier then carries a per-visit
    cost that is not one of 0, 25, 125, 350, 750, and its total cost is
    not a number. *)
Theorem getPriceEstimate_inherited_member :
  ~ In (js "toString") price_tiers
  /\ getPriceEstimate (Some (js "toString")) = Inherited (js "toString")
  /\ map estimatedCost
         (plannedAttractions
            (getDirectFallbackTripPlan (js "a quiet day out") Sample.oddlyPriced None))
     = [Inherited (js "toString")]
  /\ totalCost (getDirectFallbackTripPlan (js "a quiet day out") Sample.oddlyPriced None)
     = None.
Proof.
  split; [|split; [|split]]; try (vm_compute; reflexivity).
  vm_compute. intros H.
  repeat (destruct H as [H | H]; [discriminate H|]).
  exact H.
Qed.

(** ** Totals of a scheduled answer *)

Lemma planSelected_some (catalog : list Attraction) (trafficData : option TrafficMatrix)
    (sel : list Selected) :
  catalog <> [] ->
  forall index currentTime,
    exists planned, planSelected catalog trafficData index currentTime sel = Some planned.
Proof.
  intros Hne. induction sel as [|selected rest IH]; intros index currentTime; simpl.
  - now exists [].
  - unfold resolveAttraction.
    destruct (findAttraction catalog (attractionId selected)) as [a|].
    + match goal with
      | |- context [planSelected catalog trafficData (S index) ?c rest] =>
          destruct (IH (S index) c) as [planned ->]
      end.
      eexists; reflexivity.
    + destruct catalog as [|a0 catalog']; [contradiction|]. simpl.
      match goal with
      | |- context [planSelected ?cat trafficData (S index) ?c rest] =>
          destruct (IH (S index) c) as [planned ->]
      end.
      eexists; reflexivity.
Qed.

Lemma fold_catalog_times (pas : list PlannedAttraction) (acc : Z) :
  fold_left (fun total pa =>
               total + or_else (Some (estimatedVisitTime (attraction pa))) 120)%Z pas acc
  = (acc + sumOfCatalogTimes pas)%Z.
Proof.
  revert acc. induction pas as [|pa pas IH]; intros acc; simpl.
  - lia.
  - rewrite IH. unfold sumOfCatalogTimes. simpl. lia.
Qed.

Lemma fold_costs (pas : list PlannedAttraction) (acc : option Z) :
  fold_left (fun total pa => add_cost total (estimatedCost pa)) pas acc
  = match acc, sumOfCosts pas with
    | Some a, Some b => Some (a + b)%Z
    | _, _ => None
    end.
Proof.
  revert acc. induction pas as [|pa pas IH]; intros acc; simpl.
  - destruct acc; [f_equal; lia | reflexivity].
  - rewrite IH. unfold sumOfCosts. simpl.
    destruct acc as [a|]; simpl.
    + destruct (estimatedCost pa) as [n|m]; simpl.
      * destruct (sumOpt _); [f_equal; lia | reflexivity].
      * reflexivity.
    + reflexivity.
Qed.

Lemma sum_costs_spec (pas : list PlannedAttraction) : sum_costs pas = sumOfCosts pas.
Proof.
  unfold sum_costs. rewrite fold_costs. destruct (sumOfCosts pas); reflexivity.
Qed.

(** C1 (counterexample).  A well-formed answer naming two catalog sites,
    sixty minutes each, with [totalDuration] 270 and [estimatedCost] 800:
    the itinerary reports 270 and 800, while its visits add up to 120
    minutes and a cost of 50. *)
Lemma upstream_aggregates_are_kept :
  exists p,
    processDirectTripPlan Sample.answerWithAggregates (js "a day of culture")
                          Sample.threeSites None = Some p
    /\ totalTime p = Some 270%Z
    /\ sumOfDurations (plannedAttractions p) = Some 120%Z
    /\ totalCost p = Some 800%Z
    /\ sumOfCosts (plannedAttractions p) = Some 50%Z.
Proof.
  eexists. split; [vm_compute; reflexivity|].
  repeat split; vm_compute; reflexivity.
Qed.

(** C1 (amended).  Over a non-empty catalog a parsed answer always yields
    an itinerary.  Its total cost is the answer's [estimatedCost] when that
    is present and not 0, and otherwise the sum of the per-visit cost
    estimates; its total duration is the answer's [totalDuration] when that
    is present and not 0, and otherwise the sum, over the visits, of the
    catalog visit time of the attraction (120 for a time of 0). *)
Theorem totals_of_scheduled_answer (aiTripPlan : AiTripPlan) (userText : str)
    (catalog : list Attraction) (trafficData : option TrafficMatrix) :
  catalog <> [] ->
  exists p,
    processDirectTripPlan aiTripPlan userText catalog trafficData = Some p
    /\ totalCost p = match truthy_num (aiEstimatedCost aiTripPlan) with
                     | Some c => Some c
                     | None => sumOfCosts (plannedAttractions p)
                     end
    /\ totalTime p = match truthy_num (totalDuration aiTripPlan) with
                     | Some t => Some t
                     | None => Some (sumOfCatalogTimes (plannedAttractions p))
                     end.
Proof.
  intros Hne. unfold processDirectTripPlan.
  destruct (planSelected_some trafficData (selection aiTripPlan) Hne 0
                              (Some (inject_Z 9))) as [planned ->].
  eexists. split; [reflexivity|]. simpl. split.
  - now rewrite sum_costs_spec.
  - unfold or_else, catalogVisitTime.
    destruct (truthy_num (totalDuration aiTripPlan)); [reflexivity|].
    now rewrite fold_catalog_times.
Qed.

Lemma totals_of_scheduled_answer_witness :
  Sample.threeSites <> []
  /\ exists p,
       processDirectTripPlan Sample.answerWithoutAggregates (js "a day of culture")
                             Sample.threeSites None = Some p
       /\ totalCost p = sumOfCosts (plannedAttractions p)
       /\ totalTime p = Some (sumOfCatalogTimes (plannedAttractions p)).
Proof.
  assert (H : Sample.threeSites <> []) by discriminate.
  split; [exact H|].
  exact (totals_of_scheduled_answer Sample.answerWithoutAggregates
           (js "a day of culture") None H).
Defined.

(** ** Deduplication *)

(** When the marker [currentRequest] holds the key of the arriving
    request, the method returns the rule-based fallback plan for the
    request as given, leaves the service unchanged and makes no outside
    call. *)
Lemma marked_request_short_circuits
    (JSON_parse : str -> option AiTripPlan)
    (getTrafficMatrix : list Attraction -> option TrafficMatrix)
    (generator : str -> list Attraction -> option RealTimeData -> option str)
    (this : Service) (now : Z) (userText : str) (catalog : list Attraction)
    (realTimeData : option RealTimeData) :
  currentRequest this = Some (requestKey userText now) ->
  let out := generateDirectTripPlan JSON_parse getTrafficMatrix generator
                                    this now userText catalog realTimeData in
  plan out = getDirectFallbackTripPlan userText catalog realTimeData
  /\ ~ In GeneratorRequest (calls out)
  /\ calls out = []
  /\ service out = this.
Proof.
  intros Hkey. unfold generateDirectTripPlan.
  rewrite Hkey. simpl same_key. rewrite str_eqb_refl. simpl.
  repeat split. intros [].
Qed.

(** Whatever the marker held before, after a request it holds the key of
    that request: line 365 overwrites it, and on the duplicate path it
    already equals the key.  It is never cleared. *)
Lemma request_is_remembered
    (JSON_parse : str -> option AiTripPlan)
    (getTrafficMatrix : list Attraction -> option TrafficMatrix)
    (generator : str -> list Attraction -> option RealTimeData -> option str)
    (this : Service) (now : Z) (userText : str) (catalog : list Attraction)
    (realTimeData : option RealTimeData) :
  currentRequest (service (generateDirectTripPlan JSON_parse getTrafficMatrix generator
                                                  this now userText catalog realTimeData))
  = Some (requestKey userText now).
Proof.
  unfold generateDirectTripPlan.
  destruct (same_key (currentRequest this) (requestKey userText now)) eqn:E.
  - cbn [service]. destruct (currentRequest this) as [k|]; [|discriminate].
    simpl in E. apply str_eqb_eq in E. now rewrite E.
  - destruct (negb (isAvailable this)); [reflexivity|].
    destruct (generator _ _ _) as [aiResponse|]; [|reflexivity].
    destruct (interpret _ _ _ _ _); reflexivity.
Qed.

(** C3.  A request whose key (its first 50 characters and the clock
    reading) equals the key of the request handled immediately before it
    by the same service is answered by the rule-based fallback plan for
    the request as given, with no outside call: no generator request is
    issued, and the service is left as the earlier request left it.
    This holds whatever the state of the service before the earlier
    request, whatever that request led to, and also when the two
    requests differ after their first 50 characters or in their
    catalog or live data. *)
Theorem repeated_request_short_circuits
    (JSON_parse : str -> option AiTripPlan)
    (getTrafficMatrix : list Attraction -> option TrafficMatrix)
    (generator : str -> list Attraction -> option RealTimeData -> option str)
    (this : Service)
    (now : Z) (userText : str) (catalog : list Attraction)
    (realTimeData : option RealTimeData)
    (now' : Z) (userText' : str) (catalog' : list Attraction)
    (realTimeData' : option RealTimeData) :
  requestKey userText' now' = requestKey userText now ->
  let first := generateDirectTripPlan JSON_parse getTrafficMatrix generator
                                      this now userText catalog realTimeData in
  let second := generateDirectTripPlan JSON_parse getTrafficMatrix generator
                                       (service first) now' userText' catalog' realTimeData' in
  plan second = getDirectFallbackTripPlan userText' catalog' realTimeData'
  /\ ~ In GeneratorRequest (calls second)
  /\ calls second = []
  /\ service second = service first.
Proof.
  intros Hkey. cbv zeta. apply marked_request_short_circuits.
  rewrite request_is_remembered. now rewrite Hkey.
Qed.

Lemma repeated_request_short_circuits_witness :
  let run := generateDirectTripPlan parseTripPlan Sample.noTraffic Sample.silentGenerator in
  let first := run Sample.idle 1700000000000%Z
                   (js "temples in the morning, then dim sum and a harbour walk at dusk")
                   Sample.threeSites None in
  let second := run (service first) 1700000000000%Z
                    (js "temples in the morning, then dim sum and a harbour cruise")
                    Sample.threeSites None in
  plan second
  = getDirectFallbackTripPlan
      (js "temples in the morning, then dim sum and a harbour cruise") Sample.threeSites None
  /\ ~ In GeneratorRequest (calls second)
  /\ calls second = []
  /\ service second = service first.
Proof.
  apply (repeated_request_short_circuits parseTripPlan Sample.noTraffic
           Sample.silentGenerator Sample.idle
           1700000000000
           (js "temples in the morning, then dim sum and a harbour walk at dusk")
           Sample.threeSites None
           1700000000000
           (js "temples in the morning, then dim sum and a harbour cruise")
           Sample.threeSites None).
  vm_compute. reflexivity.
Defined.

(** C3 (counterexample).  The marker is one slot.  Three requests arrive
    at one clock reading, the third with the text of the first, so that
    the first and the third have the same key; the second, with another
    text, has overwritten the marker, and the third is sent to the
    generator like the first. *)
Lemma interleaved_duplicate_reaches_generator :
  let run := generateDirectTripPlan parseTripPlan Sample.noTraffic Sample.silentGenerator in
  let first := run Sample.idle 1700000000000%Z (js "temples and dim sum")
                   Sample.threeSites None in
  let second := run (service first) 1700000000000%Z (js "a quiet day of hiking")
                    Sample.threeSites None in
  let third := run (service second) 1700000000000%Z (js "temples and dim sum")
                   Sample.threeSites None in
  currentRequest (service first) = Some (requestKey (js "temples and dim sum") 1700000000000%Z)
  /\ In GeneratorRequest (calls first)
  /\ In GeneratorRequest (calls second)
  /\ calls third = [TrafficRequest; GeneratorRequest; TrafficRequest]
  /\ In GeneratorRequest (calls third).
Proof.
  vm_compute. repeat split; tauto.
Qed.

(** X4.  A request that is not a duplicate, on an available service,
    does reach the generator. *)
Lemma fresh_request_reaches_generator
    (JSON_parse : str -> option AiTripPlan)
    (getTrafficMatrix : list Attraction -> option TrafficMatrix)
    (generator : str -> list Attraction -> option RealTimeData -> option str)
    (this : Service) (now : Z) (userText : str) (catalog : list Attraction)
    (realTimeData : option RealTimeData) :
  isAvailable this = true ->
  same_key (currentRequest this) (requestKey userText now) = false ->
  In GeneratorRequest
     (calls (generateDirectTripPlan JSON_parse getTrafficMatrix generator
                                    this now userText catalog realTimeData)).
Proof.
  intros Hav Hkey. unfold generateDirectTripPlan. rewrite Hkey, Hav. simpl.
  destruct (generator _ _ _) as [aiResponse|]; [|simpl; tauto].
  destruct (interpret _ _ _ _ _); simpl; tauto.
Qed.

(** ** The repair scenario *)

(** C8 (evaluation at the failing input).  For the malformed answer of
    the scenario the text handed to the cleaning chain is the
    reconstruction with totals 270 and 800; the chain only merges the
    doubled quotation mark, leaving the split time and the unterminated
    duration in place; [JSON.parse] rejects the result, and so it does
    the answer cleaned without reconstruction.  With [a1] in the catalog
    the pipeline ends in text extraction, whose item has the time text
    [09: ] and no numeric duration from the answer.  Written with a
    blank after every colon, the same answer has its time repaired to
    [09:00] but keeps the unterminated duration, and is rejected too. *)
Theorem malformed_answer_is_not_repaired :
  option_map cleanJson (jsonCandidate Sample.malformedAnswer)
    = Some Sample.malformedCleaned
  /\ Json.parse Sample.malformedCleaned = None
  /\ Json.parse (cleanJson Sample.malformedAnswer) = None
  /\ option_map cleanJson (jsonCandidate Sample.malformedSpaced)
     = Some Sample.malformedSpacedCleaned
  /\ Json.parse Sample.malformedSpacedCleaned = None
  /\ let catalog := [Sample.site "a1" "X" "cultural" "low" 75] in
     let out := generateDirectTripPlan parseTripPlan Sample.noTraffic
                  (fun _ _ _ => Some Sample.malformedAnswer)
                  Sample.idle 0 (js "a day of culture") catalog None in
     aiProvider (plan out) = js "Local Llama 3.1 (Text Extraction)"
     /\ map plannedStartTime (plannedAttractions (plan out)) = [StartString (js "09: ")]
     /\ map plannedEndTime (plannedAttractions (plan out)) = [None].
Proof.
  repeat split; vm_compute; reflexivity.
Qed.

(** What the chain does repair: a pretty-printed answer with a split
    time, quoted numbers (closing quotation marks in place), a trailing
    comma and a cost word parses, after cleaning, into one item with the
    time [09:00] and the duration 120. *)
Lemma pretty_printed_answer_is_repaired :
  option_map (fun jsonStr => parseTripPlan (cleanJson jsonStr))
             (jsonCandidate Sample.prettyMalformed)
  = Some (Some {| selectedAttractions :=
                    Some [ {| attractionId := Some (js "a1"); reason := None;
                              visitOrder := Some 1%Z;
                              suggestedTime := Some (js "09:00");
                              duration := Some 120%Z |} ];
                  totalDuration := Some 270%Z;
                  aiEstimatedCost := Some 800%Z |}).
Proof. vm_compute. reflexivity. Qed.

(** ** Idempotence of the cleaning chain *)

(** C7 (counterexample).  On the text [,,}] one application of the chain
    yields [,}] and a second yields [}]. *)
Lemma cleanJson_not_idempotent :
  cleanJson (js ",,}") = js ",}"
  /\ cleanJson (cleanJson (js ",,}")) = js "}"
  /\ cleanJson (cleanJson (js ",,}")) <> cleanJson (js ",,}").
Proof.
  repeat split; try (vm_compute; reflexivity).
  vm_compute. discriminate.
Qed.

(** ** The combined-intent scenario *)

(** C6 (counterexample).  For the request of the scenario, the catalog
    of one cultural, one food and one nature site, and clear weather, the
    fallback itinerary visits the nature site as well: the two keyword
    matches are fewer than three, so the selection is topped up from the
    rest of the catalog. *)
Lemma nature_site_is_topped_up :
  map attraction
      (plannedAttractions
         (getDirectFallbackTripPlan (js "cultural sites with lunch, budget 500")
                                    Sample.threeSites (Some Sample.clearWeather)))
  = [Sample.temple; Sample.market; Sample.trail].
Proof. vm_compute. reflexivity. Qed.

(** ** Travel time between consecutive visits *)

(** C2 (evaluation at the failing input).  The answer selects the food
    site and then an identifier that is not in the catalog; the second
    visit is given the first catalog entry, the cultural site.  The
    matrix holds 200 minutes from the food site to the cultural site, but
    the travel time was looked up for the unknown identifier and fell
    back to 90: the second visit starts at 12:00, 90 minutes after the
    first ends at 10:30, and 110 minutes too early for the journey. *)
Theorem unknown_next_id_skips_traffic_lookup :
  exists a b,
    option_map plannedAttractions
      (processDirectTripPlan Sample.answerWithUnknownId (js "food then culture")
                             Sample.threeSites (Some Sample.slowRoute))
      = Some [a; b]
    /\ attraction a = Sample.market /\ attraction b = Sample.temple
    /\ travelTime (Some Sample.slowRoute) (attraction a) (attraction b) = 200%Z
    /\ plannedEndTime a = Some 630%Z
    /\ startMinutes (plannedStartTime b) = Some 720%Z
    /\ ~ spaced (Some Sample.slowRoute) [a; b].
Proof.
  do 2 eexists. split; [vm_compute; reflexivity|].
  repeat split; try (vm_compute; reflexivity).
  intros H. vm_compute in H. destruct H as [[e [s [He [Hs Hle]]]] _].
  injection He as <-. injection Hs as <-. apply Hle. reflexivity.
Qed.

(** The fallback clock in double precision.  Three sites of forty
    minutes, no traffic data: the first visit ends at 09:40, the journey
    takes the default 90 minutes, and the second visit starts at 11:09,
    one minute short, because [(currentTime % 1) * 60] is
    9.99999999999996 and [setHours] truncates it.  In exact arithmetic
    the start is 11:10. *)
Lemma fallback_clock_loses_a_minute :
  let machine := Binary64.fallbackVisits (js "a quiet day out") Sample.fortyMinuteSites None in
  let exact := plannedAttractions
                 (getDirectFallbackTripPlan (js "a quiet day out")
                                            Sample.fortyMinuteSites None) in
  map plannedEndTime (firstn 1 machine) = [Some 580%Z]
  /\ map (fun pa => startMinutes (plannedStartTime pa)) machine
     = [Some 540%Z; Some 669%Z; Some 799%Z]
  /\ map (fun pa => startMinutes (plannedStartTime pa)) exact
     = [Some 540%Z; Some 670%Z; Some 800%Z]
  /\ ~ spaced None machine.
Proof.
  repeat split; try (vm_compute; reflexivity).
  intros H. vm_compute in H. destruct H as [[e [s [He [Hs Hle]]]] _].
  injection He as <-. injection Hs as <-. apply Hle. reflexivity.
Qed.

(** ** The fallback selection *)

Lemma firstn_incl (A : Type) (n : nat) (l : list A) : incl (firstn n l) l.
Proof.
  revert n; induction l as [|a l IH]; intros [|n]; simpl; try easy.
  intros x [<-|Hx]; [now left | right; exact (IH n x Hx)].
Qed.

Lemma filter_incl (A : Type) (f : A -> bool) (l : list A) : incl (filter f l) l.
Proof. intros x Hx. now apply filter_In in Hx. Qed.

Lemma keywordSelection_incl (text : str) (w : WeatherPreference) (catalog : list Attraction) :
  incl (keywordSelection text w catalog) catalog.
Proof.
  unfold keywordSelection. destruct (wantsCulturalAndFood text).
  - apply incl_app; (eapply incl_tran; [apply firstn_incl | apply filter_incl]).
  - eapply incl_tran; [apply firstn_incl | apply filter_incl].
Qed.

Lemma ensureEnough_incl (sel catalog : list Attraction) :
  incl sel catalog -> incl (ensureEnough sel catalog) catalog.
Proof.
  intros Hsel. unfold ensureEnough. destruct sel as [|s sel'].
  - apply firstn_incl.
  - destruct (_ <? 3); [|exact Hsel].
    apply incl_app; [exact Hsel|].
    eapply incl_tran; [apply firstn_incl | apply filter_incl].
Qed.

Lemma selectAttractions_incl (userText : str) (catalog : list Attraction)
    (realTimeData : option RealTimeData) :
  incl (selectAttractions userText catalog realTimeData) catalog.
Proof.
  unfold selectAttractions. apply ensureEnough_incl, keywordSelection_incl.
Qed.

Lemma planFallback_attractions (realTimeData : option RealTimeData) (sel : list Attraction) :
  forall index currentTime,
    map attraction (planFallback realTimeData index currentTime sel) = sel.
Proof.
  induction sel as [|a rest IH]; intros index currentTime; simpl; [reflexivity|].
  now rewrite IH.
Qed.

Lemma fallback_attractions (userText : str) (catalog : list Attraction)
    (realTimeData : option RealTimeData) :
  map attraction (plannedAttractions (getDirectFallbackTripPlan userText catalog realTimeData))
  = selectAttractions userText catalog realTimeData.
Proof. unfold getDirectFallbackTripPlan. simpl. apply planFallback_attractions. Qed.

(** Entries not yet selected: at least as many as there are identifiers
    beyond those of the selection. *)
Lemma remaining_count (sel catalog : list Attraction) :
  distinctIds catalog
  <= List.length sel
     + List.length (filter (fun a => negb (already_selected sel a)) catalog).
Proof.
  unfold distinctIds.
  set (D := nodup (list_eq_dec ascii_dec) (map id catalog)).
  set (taken := fun i : list ascii => existsb (fun s => str_eqb (id s) i) sel).
  assert (HD : NoDup D) by apply NoDup_nodup.
  pose proof (filter_length taken D) as Hsplit.
  assert (Htaken : List.length (filter taken D) <= List.length sel).
  { rewrite <- (length_map id sel).
    apply NoDup_incl_length; [now apply NoDup_filter|].
    intros i Hi. apply filter_In in Hi as [_ Hi]. unfold taken in Hi.
    apply existsb_exists in Hi as [s [Hs E]]. apply str_eqb_eq in E. subst i.
    now apply in_map. }
  assert (Hfree : List.length (filter (fun i => negb (taken i)) D)
                  <= List.length (filter (fun a => negb (already_selected sel a)) catalog)).
  { rewrite <- (length_map id (filter _ catalog)).
    apply NoDup_incl_length; [now apply NoDup_filter|].
    intros i Hi. apply filter_In in Hi as [HiD Hi].
    apply nodup_In in HiD. apply in_map_iff in HiD as [a [<- Ha]].
    apply in_map. apply filter_In. split; [exact Ha|exact Hi]. }
  unfold str in *. lia.
Qed.

Lemma distinctIds_le_length (catalog : list Attraction) :
  distinctIds catalog <= List.length catalog.
Proof.
  unfold distinctIds. rewrite <- (length_map id catalog).
  apply NoDup_incl_length; [apply NoDup_nodup|].
  intros i Hi. now apply nodup_In in Hi.
Qed.

(** With three different identifiers in the catalog the selection has at
    least three entries, whatever the keywords matched. *)
Lemma ensureEnough_length (sel catalog : list Attraction) :
  3 <= distinctIds catalog -> 3 <= List.length (ensureEnough sel catalog).
Proof.
  intros H3. unfold ensureEnough. destruct sel as [|s sel'].
  - rewrite length_firstn. pose proof (distinctIds_le_length catalog). lia.
  - destruct (List.length (s :: sel') <? 3) eqn:Hlt.
    + apply Nat.ltb_lt in Hlt. rewrite length_app, length_firstn.
      pose proof (remaining_count (s :: sel') catalog). lia.
    + apply Nat.ltb_ge in Hlt. exact Hlt.
Qed.

Lemma fallback_visit_count (userText : str) (catalog : list Attraction)
    (realTimeData : option RealTimeData) :
  3 <= distinctIds catalog ->
  3 <= List.length
         (plannedAttractions (getDirectFallbackTripPlan userText catalog realTimeData)).
Proof.
  intros H3. rewrite <- (length_map attraction), fallback_attractions.
  unfold selectAttractions. now apply ensureEnough_length.
Qed.

Lemma fallback_provider (userText : str) (catalog : list Attraction)
    (realTimeData : option RealTimeData) :
  aiProvider (getDirectFallbackTripPlan userText catalog realTimeData)
  = js "Keyword Fallback".
Proof. reflexivity. Qed.

(** ** The empty answer *)

Lemma interpret_empty (JSON_parse : str -> option AiTripPlan) (userText : str)
    (catalog : list Attraction) (trafficData : option TrafficMatrix) :
  interpret JSON_parse [] userText catalog trafficData = inr tt.
Proof. reflexivity. Qed.

(** The plan of a run whose generator answers with the empty string is a
    plan of [getDirectFallbackTripPlan]. *)
Lemma empty_answer_plan
    (JSON_parse : str -> option AiTripPlan)
    (getTrafficMatrix : list Attraction -> option TrafficMatrix)
    (generator : str -> list Attraction -> option RealTimeData -> option str)
    (this : Service) (now : Z) (userText : str) (catalog : list Attraction)
    (realTimeData : option RealTimeData) :
  generator userText catalog (withTraffic realTimeData (getTrafficMatrix catalog)) = Some [] ->
  exists rtd,
    plan (generateDirectTripPlan JSON_parse getTrafficMatrix generator
                                 this now userText catalog realTimeData)
    = getDirectFallbackTripPlan userText catalog rtd.
Proof.
  intros Hgen. unfold generateDirectTripPlan.
  destruct (same_key _ _); [eexists; reflexivity|].
  destruct (negb (isAvailable this)); [eexists; reflexivity|].
  rewrite Hgen, interpret_empty. eexists; reflexivity.
Qed.

(** C5 (counterexample).  A catalog of three entries that share one
    identifier, a request for culture, and a generator that answers with
    the empty string: the plan is the rule-based fallback, and it has one
    visit.  The keyword filter selects the cultural entry, and the top-up
    skips the other two because their identifier is already selected. *)
Lemma shared_identifier_yields_one_visit :
  let out := generateDirectTripPlan parseTripPlan Sample.noTraffic Sample.silentGenerator
               Sample.idle 1700000000000 (js "a cultural walk")
               Sample.sameIdThrice None in
  List.length Sample.sameIdThrice = 3
  /\ aiProvider (plan out) = js "Keyword Fallback"
  /\ map attraction (plannedAttractions (plan out)) = firstn 1 Sample.sameIdThrice
  /\ ~ 3 <= List.length (plannedAttractions (plan out)).
Proof.
  repeat split; try (vm_compute; reflexivity).
  vm_compute. intros H. repeat (apply le_S_n in H). inversion H.
Qed.

(** C5 (amended).  When the generator answers with the empty string the
    method still returns a plan; the plan is one of the rule-based
    fallback, with the provider tag [Keyword Fallback], and it has at
    least three visits whenever the catalog holds at least three
    attractions with different identifiers. *)
Theorem empty_answer_falls_back
    (JSON_parse : str -> option AiTripPlan)
    (getTrafficMatrix : list Attraction -> option TrafficMatrix)
    (generator : str -> list Attraction -> option RealTimeData -> option str)
    (this : Service) (now : Z) (userText : str) (catalog : list Attraction)
    (realTimeData : option RealTimeData) :
  generator userText catalog (withTraffic realTimeData (getTrafficMatrix catalog)) = Some [] ->
  let out := generateDirectTripPlan JSON_parse getTrafficMatrix generator
                                    this now userText catalog realTimeData in
  (exists rtd, plan out = getDirectFallbackTripPlan userText catalog rtd)
  /\ aiProvider (plan out) = js "Keyword Fallback"
  /\ (3 <= distinctIds catalog -> 3 <= List.length (plannedAttractions (plan out))).
Proof.
  intros Hgen out.
  destruct (empty_answer_plan JSON_parse getTrafficMatrix generator this now
              userText catalog realTimeData Hgen) as [rtd Hplan].
  fold out in Hplan. split; [now exists rtd|]. rewrite Hplan. split.
  - apply fallback_provider.
  - apply fallback_visit_count.
Qed.

Lemma empty_answer_falls_back_witness :
  let out := generateDirectTripPlan parseTripPlan Sample.noTraffic Sample.silentGenerator
               Sample.idle 1700000000000 (js "a day of nature walks")
               Sample.threeSites None in
  (exists rtd, plan out = getDirectFallbackTripPlan (js "a day of nature walks")
                                                   Sample.threeSites rtd)
  /\ aiProvider (plan out) = js "Keyword Fallback"
  /\ (3 <= distinctIds Sample.threeSites -> 3 <= List.length (plannedAttractions (plan out))).
Proof.
  exact (empty_answer_falls_back parseTripPlan Sample.noTraffic Sample.silentGenerator
           Sample.idle 1700000000000 (js "a day of nature walks")
           Sample.threeSites None eq_refl).
Defined.

(** ** Referential integrity *)

Lemma fromCatalog_map (catalog : list Attraction) (p : TripPlan) :
  incl (map attraction (plannedAttractions p)) catalog -> fromCatalog catalog p.
Proof.
  intros H. apply Forall_forall. intros pa Hpa. apply H. now apply in_map.
Qed.

Lemma resolveAttraction_In (catalog : list Attraction) (wanted : option str) (a : Attraction) :
  resolveAttraction catalog wanted = Some a -> In a catalog.
Proof.
  unfold resolveAttraction, findAttraction.
  destruct (find _ catalog) as [b|] eqn:Hfind.
  - intros [= <-]. now apply find_In in Hfind.
  - apply nth_error_In.
Qed.

Lemma planSelected_attractions (catalog : list Attraction)
    (trafficData : option TrafficMatrix) (sel : list Selected) :
  forall index currentTime planned,
    planSelected catalog trafficData index currentTime sel = Some planned ->
    Forall (fun pa => In (attraction pa) catalog) planned.
Proof.
  induction sel as [|selected rest IH]; intros index currentTime planned; simpl.
  - intros [= <-]. constructor.
  - destruct (resolveAttraction catalog (attractionId selected)) as [a|] eqn:Ha;
      [|discriminate].
    match goal with
    | |- context [planSelected catalog trafficData (S index) ?c rest] =>
        destruct (planSelected catalog trafficData (S index) c rest) as [tl|] eqn:Htl
    end; [|discriminate].
    intros [= <-]. constructor.
    + simpl. now apply resolveAttraction_In in Ha.
    + now apply IH in Htl.
Qed.

Lemma processDirectTripPlan_fromCatalog (aiTripPlan : AiTripPlan) (userText : str)
    (catalog : list Attraction) (trafficData : option TrafficMatrix) (p : TripPlan) :
  processDirectTripPlan aiTripPlan userText catalog trafficData = Some p ->
  fromCatalog catalog p.
Proof.
  unfold processDirectTripPlan.
  destruct (planSelected _ _ _ _ _) as [planned|] eqn:Hplanned; [|discriminate].
  intros [= <-]. unfold fromCatalog. simpl.
  now apply planSelected_attractions in Hplanned.
Qed.

Lemma planExtracted_attractions (items : list Extracted) :
  forall index, map attraction (planExtracted index items) = map exAttraction items.
Proof.
  induction items as [|item rest IH]; intros index; simpl; [reflexivity|].
  now rewrite IH.
Qed.

Lemma extractBlock_In (catalog : list Attraction) (block : str) (item : Extracted) :
  In item (extractBlock catalog block) -> In (exAttraction item) catalog.
Proof.
  unfold extractBlock.
  destruct (negb _); [intros []|].
  destruct (group1 (string_field "attractionId") block) as [i|]; [|intros []].
  destruct (group1 (string_field "name") block); [|intros []].
  destruct (findAttraction catalog (Some i)) as [a|] eqn:Hfind; [|intros []].
  intros [<-|[]]. simpl. unfold findAttraction in Hfind. now apply find_In in Hfind.
Qed.

Lemma mentionedItems_attractions (l : list Attraction) :
  forall index, map exAttraction (mentionedItems index l) = l.
Proof.
  induction l as [|a l IH]; intros index; simpl; [reflexivity|]. now rewrite IH.
Qed.

Lemma extractTripPlanFromText_fromCatalog (aiResponse userText : str)
    (catalog : list Attraction) (p : TripPlan) :
  extractTripPlanFromText aiResponse userText catalog = Some p ->
  fromCatalog catalog p.
Proof.
  unfold extractTripPlanFromText.
  set (found := flat_map (extractBlock catalog) _).
  assert (Hfound : incl (map exAttraction found) catalog).
  { intros a Ha. apply in_map_iff in Ha as [item [<- Hitem]].
    apply in_flat_map in Hitem as [block [_ Hitem]].
    now apply extractBlock_In in Hitem. }
  assert (Hmentioned :
            incl (map exAttraction
                      (mentionedItems 0 (firstn 4 (mentioned aiResponse catalog))))
                 catalog).
  { rewrite mentionedItems_attractions.
    eapply incl_tran; [apply firstn_incl | apply filter_incl]. }
  set (named := mentionedItems 0 _) in *.
  destruct found as [|item found'].
  - destruct named as [|m ms]; [discriminate|].
    intros [= <-]. apply fromCatalog_map. simpl.
    rewrite planExtracted_attractions. exact Hmentioned.
  - intros [= <-]. apply fromCatalog_map. simpl.
    rewrite planExtracted_attractions. exact Hfound.
Qed.

Lemma fallback_fromCatalog (userText : str) (catalog : list Attraction)
    (realTimeData : option RealTimeData) :
  fromCatalog catalog (getDirectFallbackTripPlan userText catalog realTimeData).
Proof.
  apply fromCatalog_map. rewrite fallback_attractions. apply selectAttractions_incl.
Qed.

(** C9.  Whatever the generator answers, whatever the deserializer and
    the traffic provider return, and whichever path produces the plan
    (the parsed answer, text extraction, or the rule-based fallback),
    every attraction of the returned itinerary is an entry of the
    catalog supplied with the request; an identifier the generator made
    up is replaced by a catalog entry or dropped. *)
Theorem itinerary_attractions_from_catalog
    (JSON_parse : str -> option AiTripPlan)
    (getTrafficMatrix : list Attraction -> option TrafficMatrix)
    (generator : str -> list Attraction -> option RealTimeData -> option str)
    (this : Service) (now : Z) (userText : str) (catalog : list Attraction)
    (realTimeData : option RealTimeData) :
  fromCatalog catalog
    (plan (generateDirectTripPlan JSON_parse getTrafficMatrix generator
                                  this now userText catalog realTimeData)).
Proof.
  unfold generateDirectTripPlan.
  destruct (same_key _ _); [apply fallback_fromCatalog|].
  destruct (negb (isAvailable this)); [apply fallback_fromCatalog|].
  destruct (generator _ _ _) as [aiResponse|]; [|apply fallback_fromCatalog].
  destruct (interpret _ _ _ _ _) as [p|] eqn:Hp; [|apply fallback_fromCatalog].
  simpl. unfold interpret in Hp.
  destruct (jsonCandidate aiResponse) as [jsonStr|]; [|discriminate].
  destruct (JSON_parse (cleanJson jsonStr)) as [tripPlan|].
  - destruct (processDirectTripPlan _ _ _ _) as [q|] eqn:Hq.
    + injection Hp as <-. now apply processDirectTripPlan_fromCatalog in Hq.
    + destruct (extractTripPlanFromText _ _ _) as [q|] eqn:Hq'; [|discriminate].
      injection Hp as <-. now apply extractTripPlanFromText_fromCatalog in Hq'.
  - destruct (extractTripPlanFromText _ _ _) as [q|] eqn:Hq'; [|discriminate].
    injection Hp as <-. now apply extractTripPlanFromText_fromCatalog in Hq'.
Qed.

(** A made-up identifier is replaced by the first catalog entry. *)
Lemma made_up_id_is_replaced :
  option_map (fun p => map attraction (plannedAttractions p))
    (processDirectTripPlan Sample.answerWithUnknownId (js "food then culture")
                           Sample.threeSites None)
  = Some [Sample.market; Sample.temple].
Proof. vm_compute. reflexivity. Qed.

(** ** The combined-intent selection *)

Lemma filter_permutation (A : Type) (p : A -> bool) (l l' : list A) :
  Permutation l l' -> Permutation (filter p l) (filter p l').
Proof.
  induction 1 as [|x l l' _ IH|x y l|l l' l'' _ IH1 _ IH2]; simpl.
  - constructor.
  - destruct (p x); [now constructor | exact IH].
  - destruct (p x), (p y); try reflexivity. apply perm_swap.
  - now transitivity (filter p l').
Qed.

(** A predicate that holds of exactly one of three entries picks that
    entry out of the catalog, whatever the order of the catalog. *)
Lemma filter_single (A : Type) (p : A -> bool) (l l0 : list A) (x : A) :
  Permutation l l0 -> filter p l0 = [x] -> filter p l = [x].
Proof.
  intros Hperm Hl0. apply (filter_permutation p) in Hperm.
  rewrite Hl0 in Hperm. apply Permutation_sym in Hperm.
  now apply Permutation_length_1_inv in Hperm.
Qed.

Lemma culturalFilter_weather (w : WeatherPreference) (a : Attraction) :
  culturalFilter AnyWeather a = false -> culturalFilter w a = false.
Proof.
  unfold culturalFilter. simpl. intros H. rewrite H.
  now destruct (is_indoor w && _).
Qed.

Lemma culturalFilter_cultural (w : WeatherPreference) (a : Attraction) :
  category a = js "cultural" -> culturalFilter w a = true.
Proof.
  intros H. unfold culturalFilter, category_in. rewrite H.
  destruct (is_indoor w); reflexivity.
Qed.

Lemma foodFilter_food (a : Attraction) :
  category a = js "food" -> foodFilter a = true.
Proof. intros H. unfold foodFilter, category_in. now rewrite H. Qed.

Lemma already_selected_two (c f a : Attraction) :
  already_selected [c; f] a = str_eqb (id c) (id a) || str_eqb (id f) (id a).
Proof. unfold already_selected. simpl. now rewrite orb_false_r. Qed.

Lemma selection_of_three_sites (text : str) (w : WeatherPreference)
    (c f n : Attraction) (catalog : list Attraction) :
  wantsCulturalAndFood text = true ->
  category c = js "cultural" -> category f = js "food" ->
  foodFilter c = false ->
  culturalFilter AnyWeather f = false ->
  culturalFilter AnyWeather n = false -> foodFilter n = false ->
  id n <> id c -> id n <> id f ->
  Permutation catalog [c; f; n] ->
  ensureEnough (keywordSelection text w catalog) catalog = [c; f; n].
Proof.
  intros Hwants Hc Hf Hcf Hfc Hnc Hnf Hic Hif Hperm.
  unfold keywordSelection. rewrite Hwants.
  assert (Hcult : filter (culturalFilter w) catalog = [c]).
  { apply (filter_single _ Hperm). simpl.
    rewrite (culturalFilter_cultural w c Hc).
    now rewrite (culturalFilter_weather w f Hfc), (culturalFilter_weather w n Hnc). }
  assert (Hfood : filter foodFilter catalog = [f]).
  { apply (filter_single _ Hperm). simpl.
    now rewrite Hcf, (foodFilter_food f Hf), Hnf. }
  rewrite Hcult, Hfood. simpl firstn. simpl app.
  unfold ensureEnough. simpl List.length. simpl Nat.ltb. cbv iota. simpl Nat.sub.
  assert (Hrest : filter (fun a => negb (already_selected [c; f] a)) catalog = [n]).
  { apply (filter_single _ Hperm). cbn [filter].
    rewrite !already_selected_two, !str_eqb_refl. simpl.
    rewrite orb_true_r. simpl.
    assert (E1 : str_eqb (id c) (id n) = false) by (apply str_eqb_neq; congruence).
    assert (E2 : str_eqb (id f) (id n) = false) by (apply str_eqb_neq; congruence).
    now rewrite E1, E2. }
  now rewrite Hrest.
Qed.

(** C6 (amended).  For a request text naming a cultural interest
    together with a meal, and a catalog made of one cultural site, one
    food site and one nature site (in any order, the nature site carrying
    no cultural or food keyword and an identifier of its own, the other
    two matching only their own filter), the fallback itinerary, in any
    weather, visits the cultural site, then the food site, and then the
    nature site, which the minimum of three visits brings in. *)
Theorem cultural_and_food_request_visits_all_three
    (userText : str) (realTimeData : option RealTimeData)
    (c f n : Attraction) (catalog : list Attraction) :
  wantsCulturalAndFood (toLowerCase userText) = true ->
  category c = js "cultural" -> category f = js "food" -> category n = js "nature" ->
  foodFilter c = false ->
  culturalFilter AnyWeather f = false ->
  culturalFilter AnyWeather n = false -> foodFilter n = false ->
  id n <> id c -> id n <> id f ->
  Permutation catalog [c; f; n] ->
  map attraction
      (plannedAttractions (getDirectFallbackTripPlan userText catalog realTimeData))
  = [c; f; n].
Proof.
  intros Hwants Hc Hf _ Hcf Hfc Hnc Hnf Hic Hif Hperm.
  rewrite fallback_attractions. unfold selectAttractions.
  now apply selection_of_three_sites.
Qed.

Lemma cultural_and_food_request_visits_all_three_witness :
  map attraction
      (plannedAttractions
         (getDirectFallbackTripPlan (js "Cultural sites with lunch, budget 500")
            [Sample.trail; Sample.temple; Sample.market] (Some Sample.clearWeather)))
  = [Sample.temple; Sample.market; Sample.trail].
Proof.
  apply (cultural_and_food_request_visits_all_three
           (js "Cultural sites with lunch, budget 500") (Some Sample.clearWeather)
           (c := Sample.temple) (f := Sample.market) (n := Sample.trail));
    try reflexivity; try (vm_compute; discriminate).
  apply Permutation_sym. apply perm_trans with [Sample.temple; Sample.trail; Sample.market].
  - apply perm_skip. apply perm_swap.
  - apply perm_swap.
Defined.

(** ** Ordinals *)

Lemma ordinalsFrom_cons (base : Z) (ordinal : PlannedAttraction -> Z)
    (pa : PlannedAttraction) (pas : list PlannedAttraction) :
  ordinal pa = base -> ordinalsFrom (base + 1) ordinal pas ->
  ordinalsFrom base ordinal (pa :: pas).
Proof.
  intros Hpa Hpas [|i] x; simpl.
  - intros [= <-]. lia.
  - intros Hx. rewrite (Hpas i x Hx). lia.
Qed.

Lemma ordinalsFrom_nil (base : Z) (ordinal : PlannedAttraction -> Z) :
  ordinalsFrom base ordinal [].
Proof. intros [|i] x; discriminate. Qed.

Lemma planFallback_ordinals (realTimeData : option RealTimeData) (sel : list Attraction) :
  forall index currentTime,
    ordinalsFrom (Z.of_nat index + 1) priority
                 (planFallback realTimeData index currentTime sel)
    /\ ordinalsFrom (Z.of_nat index + 1) recPriority
                    (planFallback realTimeData index currentTime sel).
Proof.
  induction sel as [|a rest IH]; intros index currentTime; simpl.
  - split; apply ordinalsFrom_nil.
  - match goal with
    | |- context [planFallback realTimeData (S index) ?c rest] =>
        destruct (IH (S index) c) as [H1 H2]
    end.
    replace (Z.of_nat (S index) + 1)%Z with (Z.of_nat index + 1 + 1)%Z in H1, H2 by lia.
    split; apply ordinalsFrom_cons; try reflexivity; assumption.
Qed.

Lemma planExtracted_ordinals (items : list Extracted) :
  forall index,
    ordinalsFrom (Z.of_nat index + 1) priority (planExtracted index items)
    /\ ordinalsFrom (Z.of_nat index + 1) recPriority (planExtracted index items).
Proof.
  induction items as [|item rest IH]; intros index; simpl.
  - split; apply ordinalsFrom_nil.
  - destruct (IH (S index)) as [H1 H2].
    replace (Z.of_nat (S index) + 1)%Z with (Z.of_nat index + 1 + 1)%Z in H1, H2 by lia.
    split; apply ordinalsFrom_cons; try reflexivity; assumption.
Qed.

Lemma planSelected_ordinals (catalog : list Attraction)
    (trafficData : option TrafficMatrix) (sel : list Selected) :
  forall index currentTime planned,
    planSelected catalog trafficData index currentTime sel = Some planned ->
    ordinalsFrom (Z.of_nat index + 1) recPriority planned.
Proof.
  induction sel as [|selected rest IH]; intros index currentTime planned; simpl.
  - intros [= <-]. apply ordinalsFrom_nil.
  - destruct (resolveAttraction catalog (attractionId selected)) as [a|]; [|discriminate].
    match goal with
    | |- context [planSelected catalog trafficData (S index) ?c rest] =>
        destruct (planSelected catalog trafficData (S index) c rest) as [tl|] eqn:Htl
    end; [|discriminate].
    intros [= <-]. apply IH in Htl.
    replace (Z.of_nat (S index) + 1)%Z with (Z.of_nat index + 1 + 1)%Z in Htl by lia.
    apply ordinalsFrom_cons; [reflexivity | assumption].
Qed.

(** On the generator path the visit's own [priority] is the answer's
    [visitOrder] when that is present and not 0. *)
Lemma planSelected_priority (catalog : list Attraction)
    (trafficData : option TrafficMatrix) (sel : list Selected) :
  forall index currentTime planned,
    planSelected catalog trafficData index currentTime sel = Some planned ->
    map priority planned
    = map (fun x => or_else (visitOrder (snd x)) (Z.of_nat (fst x) + 1))
          (combine (List.seq index (List.length sel)) sel).
Proof.
  induction sel as [|selected rest IH]; intros index currentTime planned; simpl.
  - now intros [= <-].
  - destruct (resolveAttraction catalog (attractionId selected)) as [a|]; [|discriminate].
    match goal with
    | |- context [planSelected catalog trafficData (S index) ?c rest] =>
        destruct (planSelected catalog trafficData (S index) c rest) as [tl|] eqn:Htl
    end; [|discriminate].
    intros [= <-]. apply IH in Htl. simpl. now rewrite Htl.
Qed.

Lemma fallback_ordinals (userText : str) (catalog : list Attraction)
    (realTimeData : option RealTimeData) :
  let visits := plannedAttractions (getDirectFallbackTripPlan userText catalog realTimeData) in
  ordinalsFrom 1 priority visits /\ ordinalsFrom 1 recPriority visits.
Proof. apply (planFallback_ordinals realTimeData _ 0). Qed.

Lemma processDirectTripPlan_ordinals (aiTripPlan : AiTripPlan) (userText : str)
    (catalog : list Attraction) (trafficData : option TrafficMatrix) (p : TripPlan) :
  processDirectTripPlan aiTripPlan userText catalog trafficData = Some p ->
  ordinalsFrom 1 recPriority (plannedAttractions p).
Proof.
  unfold processDirectTripPlan.
  destruct (planSelected _ _ _ _ _) as [planned|] eqn:Hplanned; [|discriminate].
  intros [= <-]. simpl. now apply planSelected_ordinals in Hplanned.
Qed.

Lemma extractTripPlanFromText_ordinals (aiResponse userText : str)
    (catalog : list Attraction) (p : TripPlan) :
  extractTripPlanFromText aiResponse userText catalog = Some p ->
  ordinalsFrom 1 priority (plannedAttractions p)
  /\ ordinalsFrom 1 recPriority (plannedAttractions p).
Proof.
  unfold extractTripPlanFromText.
  match goal with
  | |- context [match ?x with [] => None | _ :: _ => _ end] =>
      destruct x as [|item items]
  end; [discriminate|].
  intros [= <-]. apply (planExtracted_ordinals (item :: items) 0).
Qed.

(** On every path the ordinal the service assigns to the visit at
    position [i] is [i + 1]. *)
Lemma pipeline_ordinals
    (JSON_parse : str -> option AiTripPlan)
    (getTrafficMatrix : list Attraction -> option TrafficMatrix)
    (generator : str -> list Attraction -> option RealTimeData -> option str)
    (this : Service) (now : Z) (userText : str) (catalog : list Attraction)
    (realTimeData : option RealTimeData) :
  ordinalsFrom 1 recPriority
    (plannedAttractions
       (plan (generateDirectTripPlan JSON_parse getTrafficMatrix generator
                                     this now userText catalog realTimeData))).
Proof.
  unfold generateDirectTripPlan.
  destruct (same_key _ _); [apply fallback_ordinals|].
  destruct (negb (isAvailable this)); [apply fallback_ordinals|].
  destruct (generator _ _ _) as [aiResponse|]; [|apply fallback_ordinals].
  destruct (interpret _ _ _ _ _) as [p|] eqn:Hp; [|apply fallback_ordinals].
  simpl. unfold interpret in Hp.
  destruct (jsonCandidate aiResponse) as [jsonStr|]; [|discriminate].
  destruct (JSON_parse (cleanJson jsonStr)) as [tripPlan|].
  - destruct (processDirectTripPlan _ _ _ _) as [q|] eqn:Hq.
    + injection Hp as <-. now apply processDirectTripPlan_ordinals in Hq.
    + destruct (extractTripPlanFromText _ _ _) as [q|] eqn:Hq'; [|discriminate].
      injection Hp as <-. now apply extractTripPlanFromText_ordinals in Hq'.
  - destruct (extractTripPlanFromText _ _ _) as [q|] eqn:Hq'; [|discriminate].
    injection Hp as <-. now apply extractTripPlanFromText_ordinals in Hq'.
Qed.

(** ** The clock in exact arithmetic *)

Lemma Qtrunc_comp (x y : Q) : (x == y)%Q -> Qtrunc x = Qtrunc y.
Proof.
  intros H. unfold Qtrunc. rewrite (Qleb_comp 0%Q 0%Q (Qeq_refl 0%Q) x y H).
  now rewrite (Qfloor_comp x y H), (Qceiling_comp x y H).
Qed.

Lemma Qtrunc_Z (z : Z) : Qtrunc (inject_Z z) = z.
Proof. unfold Qtrunc. rewrite Qfloor_Z, Qceiling_Z. now destruct (Qle_bool _ _). Qed.

Lemma Qtrunc_nonneg (q : Q) : (0 <= q)%Q -> Qtrunc q = Qfloor q.
Proof.
  intros H. unfold Qtrunc. apply Qle_bool_iff in H. now rewrite H.
Qed.

Lemma minutes_nonneg (M : Z) : (0 <= M)%Z -> (0 <= inject_Z M / 60)%Q.
Proof.
  intros H. apply Qle_shift_div_l; [reflexivity|].
  rewrite Qmult_0_l. change 0%Q with (inject_Z 0%Z). now rewrite <- Zle_Qle.
Qed.

Lemma Qfloor_minutes (M : Z) : Qfloor (inject_Z M / 60) = (M / 60)%Z.
Proof. symmetry. apply (Zdiv_Qdiv M 60). Qed.

(** A clock that stands at a whole number [M >= 0] of minutes gives the
    date of that minute. *)
Lemma dateOfClock_exact (M : Z) (q : Q) :
  (0 <= M)%Z -> (q == inject_Z M / 60)%Q -> dateOfClock q = M.
Proof.
  intros HM Hq. unfold dateOfClock, mod1.
  assert (Hfloor : Qfloor q = (M / 60)%Z).
  { rewrite (Qfloor_comp _ _ Hq). apply Qfloor_minutes. }
  assert (Htrunc : Qtrunc q = (M / 60)%Z).
  { rewrite Qtrunc_nonneg; [exact Hfloor|]. rewrite Hq. now apply minutes_nonneg. }
  rewrite Htrunc, Hfloor.
  assert (Hfrac : ((q - inject_Z (M / 60)) * 60 == inject_Z (M mod 60))%Q).
  { rewrite Hq.
    replace (M mod 60)%Z with (M + - (60 * (M / 60)))%Z
      by (pose proof (Z.div_mod M 60); lia).
    rewrite inject_Z_plus, inject_Z_opp, inject_Z_mult. field. }
  rewrite (Qtrunc_comp Hfrac), Qtrunc_Z.
  pose proof (Z.div_mod M 60). lia.
Qed.

(** The minutes a journey takes on the fallback path. *)
Lemma travelTimeHours_minutes (realTimeData : option RealTimeData) (a b : Attraction) :
  (travelTimeHours realTimeData a b
   == inject_Z (travelTime (trafficOf realTimeData) a b) / 60)%Q.
Proof.
  unfold travelTimeHours, travelTime.
  destruct (trafficOf realTimeData) as [m|]; simpl.
  - destruct (0 <? _)%Z; [reflexivity | reflexivity].
  - reflexivity.
Qed.

Lemma travelTime_positive (trafficData : option TrafficMatrix) (a b : Attraction) :
  (0 < travelTime trafficData a b)%Z.
Proof.
  unfold travelTime. destruct (0 <? _)%Z eqn:E; [now apply Z.ltb_lt in E | lia].
Qed.

Lemma or_else_nonneg (x : Z) : (0 <= x)%Z -> (0 < or_else (Some x) 120)%Z.
Proof.
  intros H. unfold or_else, truthy_num.
  destruct (x =? 0)%Z eqn:E; [lia|]. apply Z.eqb_neq in E. lia.
Qed.

(** The fallback schedule in exact arithmetic: when the clock stands at
    minute [M], the first visit starts at [M], every visit is followed by
    the journey to the next, and start times grow. *)
Lemma planFallback_schedule (realTimeData : option RealTimeData) (sel : list Attraction) :
  Forall (fun a => 0 <= estimatedVisitTime a)%Z sel ->
  forall index currentTime M,
    (0 <= M)%Z -> (currentTime == inject_Z M / 60)%Q ->
    let visits := planFallback realTimeData index currentTime sel in
    (forall pa, nth_error visits 0 = Some pa -> plannedStartTime pa = StartDate (Some M))
    /\ spaced (trafficOf realTimeData) visits
    /\ startsIncrease visits.
Proof.
  induction 1 as [|a rest Ha _ IH]; intros index currentTime M HM Hclock; simpl.
  - repeat split. intros pa; discriminate.
  - rewrite (dateOfClock_exact HM Hclock).
    split; [intros pa [= <-]; reflexivity|].
    destruct rest as [|b rest']; [simpl; tauto|].
    set (d := or_else (Some (estimatedVisitTime a)) 120).
    set (t := travelTime (trafficOf realTimeData) a b).
    assert (Hd : (0 < d)%Z) by now apply or_else_nonneg.
    assert (Ht : (0 < t)%Z) by apply travelTime_positive.
    assert (Hnext : (currentTime + (inject_Z d / 60 + travelTimeHours realTimeData a b)
                     == inject_Z (M + d + t) / 60)%Q).
    { rewrite travelTimeHours_minutes, Hclock. fold t.
      rewrite !inject_Z_plus. field. }
    destruct (IH (S index) _ (M + d + t)%Z ltac:(lia) Hnext) as [Hhead [Hsp Hinc]].
    fold d. cbn zeta in Hhead, Hsp, Hinc.
    set (tail := planFallback realTimeData (S index) _ (b :: rest')) in *.
    destruct tail as [|pb tail'] eqn:Etail; [discriminate Etail|].
    specialize (Hhead pb eq_refl).
    assert (Eb : attraction pb = b).
    { pose proof (planFallback_attractions realTimeData (b :: rest') (S index)
                    (currentTime + (inject_Z d / 60 + travelTimeHours realTimeData a b))%Q) as Hmap.
      fold tail in Hmap. rewrite Etail in Hmap. simpl in Hmap. now injection Hmap. }
    split.
    + split; [|exact Hsp].
      exists (M + d)%Z, (M + d + t)%Z. simpl. rewrite Hhead, Eb. simpl.
      repeat split. fold t. lia.
    + split; [|exact Hinc].
      exists M, (M + d + t)%Z. simpl. rewrite Hhead. simpl. repeat split. lia.
Qed.

(** ** Printing and reading clock texts *)

Lemma digit_char_is_digit (d : nat) : d < 10 -> is_digit (digit_char d) = true.
Proof.
  intros H. do 10 (destruct d as [|d]; [reflexivity|]). lia.
Qed.

Lemma digit_char_val (d : nat) : d < 10 -> digit_val (digit_char d) = Z.of_nat d.
Proof.
  intros H. do 10 (destruct d as [|d]; [reflexivity|]). lia.
Qed.

Lemma digits_value_snoc (ds : str) (c : ascii) :
  digits_value (ds ++ [c]) = (10 * digits_value ds + digit_val c)%Z.
Proof. unfold digits_value. now rewrite fold_left_app. Qed.

Lemma pos_digits_S (fuel : nat) (n : N) (acc : str) :
  pos_digits (S fuel) n acc
  = if (n <? 10)%N then digit_char (N.to_nat (n mod 10)) :: acc
    else pos_digits fuel (n / 10)%N (digit_char (N.to_nat (n mod 10)) :: acc).
Proof. reflexivity. Qed.

Lemma pos_digits_spec (f : nat) :
  forall (n : N) (acc : str),
    (n < 2 ^ N.of_nat (S f))%N ->
    exists ds, pos_digits (S f) n acc = ds ++ acc
               /\ ds <> [] /\ all_digits ds /\ digits_value ds = Z.of_N n.
Proof.
  induction f as [|f IH]; intros n acc Hn.
  - assert (Hlt : (n < 10)%N).
    { change (2 ^ N.of_nat 1)%N with 2%N in Hn. lia. }
    simpl. apply N.ltb_lt in Hlt as Hb. rewrite Hb.
    exists [digit_char (N.to_nat (n mod 10))]. split; [reflexivity|].
    assert (Hd : N.to_nat (n mod 10) < 10)
      by (pose proof (N.mod_upper_bound n 10); lia).
    repeat split.
    + discriminate.
    + constructor; [now apply digit_char_is_digit | constructor].
    + unfold digits_value. simpl. rewrite digit_char_val by exact Hd.
      rewrite N.mod_small by exact Hlt. lia.
  - rewrite pos_digits_S. destruct (n <? 10)%N eqn:Hb.
    + apply N.ltb_lt in Hb.
      exists [digit_char (N.to_nat (n mod 10))]. split; [reflexivity|].
      assert (Hd : N.to_nat (n mod 10) < 10)
      by (pose proof (N.mod_upper_bound n 10); lia).
      repeat split.
      * discriminate.
      * constructor; [now apply digit_char_is_digit | constructor].
      * unfold digits_value. simpl. rewrite digit_char_val by exact Hd.
        rewrite N.mod_small by exact Hb. lia.
    + apply N.ltb_ge in Hb.
      assert (Hsmall : (n / 10 < 2 ^ N.of_nat (S f))%N).
      { rewrite Nat2N.inj_succ, N.pow_succ_r' in Hn.
        set (X := (2 ^ N.of_nat (S f))%N) in *.
        apply N.Div0.div_lt_upper_bound. lia. }
      destruct (IH (n / 10)%N (digit_char (N.to_nat (n mod 10)) :: acc) Hsmall)
        as [ds [Heq [Hne [Hall Hval]]]].
      exists (ds ++ [digit_char (N.to_nat (n mod 10))]).
      assert (Hd : N.to_nat (n mod 10) < 10)
      by (pose proof (N.mod_upper_bound n 10); lia).
      repeat split.
      * rewrite Heq. now rewrite <- app_assoc.
      * intros E. apply app_eq_nil in E as [E _]. contradiction.
      * apply Forall_app. split; [exact Hall|].
        constructor; [now apply digit_char_is_digit | constructor].
      * rewrite digits_value_snoc, Hval, digit_char_val by exact Hd.
        pose proof (N.div_mod' n 10). lia.
Qed.

Lemma int_toString_digits (z : Z) :
  (0 <= z)%Z ->
  let ds := int_toString z in
  ds <> [] /\ all_digits ds /\ digits_value ds = z.
Proof.
  intros Hz. unfold int_toString.
  assert (Hneg : (z <? 0)%Z = false) by (apply Z.ltb_ge; lia).
  rewrite Hneg.
  set (n := Z.to_N (Z.abs z)).
  assert (Hn : (n < 2 ^ N.of_nat (S (N.to_nat (N.log2 n))))%N).
  { rewrite Nat2N.inj_succ, N2Nat.id.
    destruct (N.eq_dec n 0) as [->|Hpos]; [reflexivity|].
    apply N.log2_spec. lia. }
  destruct (pos_digits_spec [] Hn) as [ds [Heq [Hne [Hall Hval]]]].
  rewrite Heq, app_nil_r. repeat split; try assumption.
  rewrite Hval. unfold n. lia.
Qed.

Lemma all_digits_prefix (ds : str) : all_digits ds -> digits_prefix ds = ds.
Proof.
  induction 1 as [|c ds Hc _ IH]; simpl; [reflexivity|]. now rewrite Hc, IH.
Qed.

Lemma digit_not_space (c : ascii) : is_digit c = true -> is_space c = false.
Proof.
  unfold is_digit, is_space. intros H. apply andb_prop in H as [H1 H2].
  apply Nat.leb_le in H1, H2.
  destruct (_ <=? code c) eqn:E1; simpl.
  - assert (E : (code c <=? 13) = false) by (apply Nat.leb_gt; lia). rewrite E. simpl.
    assert (E' : (code c =? 32) = false) by (apply Nat.eqb_neq; lia). rewrite E'. simpl.
    apply Nat.eqb_neq; lia.
  - assert (E' : (code c =? 32) = false) by (apply Nat.eqb_neq; lia). rewrite E'. simpl.
    apply Nat.eqb_neq; lia.
Qed.

Lemma digit_not_char (c x : ascii) :
  is_digit c = true -> is_digit x = false -> Ascii.eqb c x = false.
Proof.
  intros Hc Hx. destruct (Ascii.eqb c x) eqn:E; [|reflexivity].
  apply Ascii.eqb_eq in E. subst. congruence.
Qed.

(** [parseInt] reads back a non-empty run of digits. *)
Lemma parseInt_digits (ds : str) :
  ds <> [] -> all_digits ds -> parseInt ds = Some (digits_value ds).
Proof.
  intros Hne Hall. destruct ds as [|c ds']; [contradiction|].
  pose proof (all_digits_prefix Hall) as Hpre.
  inversion Hall as [|? ? Hc Hall']; subst.
  unfold parseInt. simpl drop_spaces. rewrite (digit_not_space c Hc).
  rewrite (digit_not_char c "-" Hc eq_refl), (digit_not_char c "+" Hc eq_refl).
  unfold parse_magnitude. destruct ds' as [|x ds''].
  - rewrite Hpre. reflexivity.
  - inversion Hall' as [|? ? Hx _]; subst.
    assert (E1 : Ascii.eqb x "x" = false)
      by (destruct (Ascii.eqb x "x") eqn:E; [apply Ascii.eqb_eq in E; subst; discriminate | reflexivity]).
    assert (E2 : Ascii.eqb x "X" = false)
      by (destruct (Ascii.eqb x "X") eqn:E; [apply Ascii.eqb_eq in E; subst; discriminate | reflexivity]).
    rewrite E1, E2. simpl orb. rewrite andb_false_r. rewrite Hpre. reflexivity.
Qed.

Lemma all_digits_pad (n : nat) (ds : str) : all_digits ds -> all_digits (padStart0 n ds).
Proof.
  intros H. unfold padStart0. apply Forall_app. split; [|exact H].
  induction (n - List.length ds); simpl; constructor; [reflexivity | assumption].
Qed.

Lemma digits_value_pad (n : nat) (ds : str) :
  digits_value (padStart0 n ds) = digits_value ds.
Proof.
  unfold padStart0, digits_value. rewrite fold_left_app.
  induction (n - List.length ds); simpl; [reflexivity | assumption].
Qed.

Lemma pad_nonempty (n : nat) (ds : str) : ds <> [] -> padStart0 n ds <> [].
Proof.
  unfold padStart0. intros H E. apply app_eq_nil in E as [_ E]. contradiction.
Qed.

(** Printing a non-negative integer, padding it and parsing it back. *)
Lemma parseInt_padded (n : nat) (z : Z) :
  (0 <= z)%Z -> parseInt (padStart0 n (int_toString z)) = Some z.
Proof.
  intros Hz. destruct (int_toString_digits Hz) as [Hne [Hall Hval]].
  rewrite parseInt_digits.
  - now rewrite digits_value_pad, Hval.
  - now apply pad_nonempty.
  - now apply all_digits_pad.
Qed.

Lemma split_char_digits (ds rest : str) :
  all_digits ds ->
  split_char ":" (ds ++ ":"%char :: rest)
  = match split_char ":" rest with
    | piece :: more => ds :: piece :: more
    | [] => [ds]
    end.
Proof.
  induction 1 as [|c ds Hc _ IH]; simpl.
  - destruct (split_char ":" rest); reflexivity.
  - rewrite (digit_not_char c ":" Hc eq_refl), IH.
    destruct (split_char ":" rest); reflexivity.
Qed.

Lemma split_char_no_sep (ds : str) :
  all_digits ds -> split_char ":" ds = [ds].
Proof.
  induction 1 as [|c ds Hc _ IH]; simpl; [reflexivity|].
  now rewrite (digit_not_char c ":" Hc eq_refl), IH.
Qed.

Lemma Math_round_Z (z : Z) (q : Q) : (q == inject_Z z)%Q -> Math_round q = z.
Proof.
  intros H. unfold Math_round.
  assert (E : (q + (1 # 2) == inject_Z (2 * z + 1) / 2)%Q).
  { rewrite H, inject_Z_plus, inject_Z_mult. field. }
  rewrite (Qfloor_comp _ _ E).
  transitivity ((2 * z + 1) / 2)%Z; [symmetry; apply (Zdiv_Qdiv (2 * z + 1) 2)|].
  rewrite Z.mul_comm, Z.div_add_l by lia. change (1 / 2)%Z with 0%Z. lia.
Qed.

Lemma formatClock_exact (M : Z) (q : Q) :
  (0 <= M)%Z -> (q == inject_Z M / 60)%Q ->
  dateOfString (formatClock (Some q)) = Some M.
Proof.
  intros HM Hq. unfold formatClock. cbn [option_map num_toString].
  assert (Hfloor : Qfloor q = (M / 60)%Z).
  { rewrite (Qfloor_comp _ _ Hq). symmetry. apply (Zdiv_Qdiv M 60). }
  assert (Hq0 : (0 <= q)%Q).
  { rewrite Hq. apply Qle_shift_div_l; [reflexivity|].
    rewrite Qmult_0_l. change 0%Q with (inject_Z 0%Z). now rewrite <- Zle_Qle. }
  assert (Hfrac : (mod1 q * 60 == inject_Z (M mod 60))%Q).
  { unfold mod1. unfold Qtrunc. apply Qle_bool_iff in Hq0. rewrite Hq0, Hfloor, Hq.
    replace (M mod 60)%Z with (M + - (60 * (M / 60)))%Z
      by (pose proof (Z.div_mod M 60); lia).
    rewrite inject_Z_plus, inject_Z_opp, inject_Z_mult. field. }
  rewrite (Math_round_Z Hfrac), Hfloor.
  assert (Hh : (0 <= M / 60)%Z) by (apply Z.div_pos; lia).
  assert (Hm : (0 <= M mod 60)%Z) by (apply Z.mod_pos_bound; lia).
  destruct (int_toString_digits Hh) as [_ [Hallh _]].
  destruct (int_toString_digits Hm) as [_ [Hallm _]].
  unfold dateOfString.
  change (js ":") with [":"%char]. simpl app.
  rewrite (split_char_digits _ (all_digits_pad 2 Hallh)).
  rewrite (split_char_no_sep (all_digits_pad 2 Hallm)).
  simpl nth_error. unfold parseInt_opt.
  rewrite (parseInt_padded 2 Hh), (parseInt_padded 2 Hm).
  f_equal. pose proof (Z.div_mod M 60). lia.
Qed.


Lemma clockOfString_minutes (s : str) (M : Z) :
  dateOfString s = Some M ->
  exists ct, clockOfString s = Some ct /\ (ct == inject_Z M / 60)%Q.
Proof.
  unfold dateOfString, clockOfString.
  destruct (parseInt_opt _) as [h|]; [|discriminate].
  destruct (parseInt_opt _) as [m|]; [|discriminate].
  intros [= <-]. eexists. split; [reflexivity|].
  rewrite inject_Z_plus, inject_Z_mult. field.
Qed.

Lemma effective_duration_positive (selected : Selected) (a : Attraction) :
  match duration selected with Some d => (0 <= d)%Z | None => True end ->
  (0 <= estimatedVisitTime a)%Z ->
  (0 < or_else (duration selected) (or_else (Some (estimatedVisitTime a)) 120))%Z.
Proof.
  intros Hd Ha. unfold or_else at 1. unfold truthy_num.
  destruct (duration selected) as [d|].
  - destruct (d =? 0)%Z eqn:E.
    + now apply or_else_nonneg.
    + apply Z.eqb_neq in E. lia.
  - now apply or_else_nonneg.
Qed.

Lemma travelTimeMinutes_positive (trafficData : option TrafficMatrix) (a : Attraction)
    (next : option Attraction) :
  (0 < travelTimeMinutes trafficData a next)%Z.
Proof.
  unfold travelTimeMinutes. destruct trafficData; [|lia]. destruct next; [|lia].
  destruct (0 <? _)%Z eqn:E; [now apply Z.ltb_lt in E | lia].
Qed.

Lemma travelTimeMinutes_known (trafficData : option TrafficMatrix) (a b : Attraction) :
  travelTimeMinutes trafficData a (Some b) = travelTime trafficData a b.
Proof.
  unfold travelTimeMinutes, travelTime. destruct trafficData; [reflexivity|].
  reflexivity.
Qed.

Lemma planSelected_schedule (catalog : list Attraction) (trafficData : option TrafficMatrix) :
  nonneg_times catalog ->
  forall sel, nonneg_durations sel ->
  forall index currentTime M planned,
    (0 <= M)%Z ->
    match index with
    | O => match sel with
           | s0 :: _ => dateOfString (firstText s0) = Some M
           | [] => True
           end
    | S _ => exists ct, currentTime = Some ct /\ (ct == inject_Z M / 60)%Q
    end ->
    planSelected catalog trafficData index currentTime sel = Some planned ->
    (forall pa, nth_error planned 0 = Some pa ->
                startMinutes (plannedStartTime pa) = Some M)
    /\ startsIncrease planned
    /\ (ids_known catalog sel -> spaced trafficData planned).
Proof.
  intros Hcat. induction 1 as [|selected rest Hsel Hrest IH];
    intros index currentTime M planned HM Hstart; simpl.
  - intros [= <-]. repeat split. intros pa; discriminate.
  - destruct (resolveAttraction catalog (attractionId selected)) as [a|] eqn:Ha;
      [|discriminate].
    fold (firstText selected).
    set (startTimeStr := match index with O => firstText selected | S _ => formatClock currentTime end).
    set (currentTime1 := match index with O => clockOfString (firstText selected) | S _ => currentTime end).
    assert (Hclock : dateOfString startTimeStr = Some M
                     /\ exists ct, currentTime1 = Some ct /\ (ct == inject_Z M / 60)%Q).
    { unfold startTimeStr, currentTime1. destruct index as [|k].
      - split; [exact Hstart|]. now apply clockOfString_minutes.
      - destruct Hstart as [ct [-> Hct]]. split; [now apply formatClock_exact|].
        now exists ct. }
    destruct Hclock as [Hdate [ct [Hct1 Hct]]].
    set (d := or_else (duration selected) (or_else (Some (estimatedVisitTime a)) 120)).
    assert (Hd : (0 < d)%Z).
    { apply effective_duration_positive; [exact Hsel|].
      apply resolveAttraction_In in Ha.
      exact (proj1 (Forall_forall _ _) Hcat a Ha). }
    destruct rest as [|next rest'].
    + simpl. intros [= <-]. split; [|simpl; tauto].
      intros pa [= <-]. simpl. exact Hdate.
    + set (nextAttraction := findAttraction catalog (attractionId next)).
      set (t := travelTimeMinutes trafficData a nextAttraction).
      assert (Ht : (0 < t)%Z) by apply travelTimeMinutes_positive.
      rewrite Hct1. cbn [advance option_map].
      match goal with
      | |- context [planSelected catalog trafficData (S index) ?c (next :: rest')] =>
          destruct (planSelected catalog trafficData (S index) c (next :: rest'))
            as [tl|] eqn:Htl; [|discriminate]
      end.
      intros [= <-].
      assert (Hnext : exists ct', Some (ct + (inject_Z d / 60 + inject_Z t / 60))%Q = Some ct'
                                  /\ (ct' == inject_Z (M + d + t) / 60)%Q).
      { eexists. split; [reflexivity|]. rewrite Hct, !inject_Z_plus. field. }
      destruct (IH (S index) _ (M + d + t)%Z tl ltac:(lia) Hnext Htl)
        as [Hhead [Hinc Hsp]].
      destruct tl as [|pb tl'].
      { simpl in Htl.
        destruct (resolveAttraction catalog (attractionId next)); [|discriminate].
        match type of Htl with
        | context [planSelected ?c1 ?c2 ?c3 ?c4 rest'] =>
            destruct (planSelected c1 c2 c3 c4 rest'); discriminate
        end. }
      specialize (Hhead pb eq_refl).
      split; [intros pa [= <-]; simpl; exact Hdate|].
      split.
      * split; [|exact Hinc].
        exists M, (M + d + t)%Z. simpl. rewrite Hdate, Hhead. repeat split. lia.
      * intros Hknown. inversion Hknown as [|? ? _ Hknown']; subst.
        split; [|now apply Hsp].
        exists (M + d)%Z, (M + d + t)%Z. simpl. rewrite Hdate, Hhead. simpl.
        repeat split.
        assert (Eb : nextAttraction = Some (attraction pb)).
        { inversion Hknown' as [|? ? Hk _]; subst. clear - Htl Hk.
          simpl in Htl. unfold resolveAttraction in Htl. unfold nextAttraction.
          destruct (findAttraction catalog (attractionId next)) as [nb|]; [|contradiction].
          match type of Htl with
          | context [planSelected ?c1 ?c2 ?c3 ?c4 rest'] =>
              destruct (planSelected c1 c2 c3 c4 rest'); [|discriminate]
          end.
          injection Htl as <- _. reflexivity. }
        unfold t. rewrite Eb, travelTimeMinutes_known. lia.
Qed.

(** ** The whitespace passes *)

Lemma rep_match_greedy (A : Type) (p : ascii -> bool) (k : str -> option A) (f : str -> A) :
  (forall s, k s = Some (f s)) ->
  forall s lo,
    rep_match p lo None s k
    = if lo <=? run p s then Some (f (drop_run p s)) else None.
Proof.
  intros Hk. induction s as [|c s IH]; intros lo; simpl.
  - destruct lo; simpl; [apply Hk | reflexivity].
  - destruct (p c) eqn:Hc; simpl.
    + rewrite IH. destruct lo as [|lo]; simpl.
      * reflexivity.
      * destruct (lo <=? run p s); reflexivity.
    + destruct lo; simpl; [apply Hk | reflexivity].
Qed.

Lemma drop_run_length (p : ascii -> bool) (s : str) :
  List.length s - List.length (drop_run p s) = run p s.
Proof.
  induction s as [|c s IH]; cbn [run drop_run List.length]; [reflexivity|].
  destruct (p c); cbn [List.length].
  - assert (List.length (drop_run p s) <= List.length s).
    { clear. induction s as [|c s IH]; simpl; [lia|]. destruct (p c); simpl; lia. }
    lia.
  - lia.
Qed.


Lemma match_at_blanks (s : str) :
  match_at blanks s
  = if 1 <=? run is_space s then Some (run is_space s, []) else None.
Proof.
  unfold match_at, blanks, plus. simpl rmatch.
  rewrite (rep_match_greedy is_space _
             (fun s' => (List.length s - List.length s', @nil str)))
    by reflexivity.
  now rewrite drop_run_length.
Qed.

Lemma match_at_line_break (c : ascii) (s : str) :
  c <> newline -> match_at line_break (c :: s) = None.
Proof.
  intros H. unfold match_at, line_break. cbn [seq rmatch lit_match].
  destruct (Ascii.eqb newline c) eqn:E; [|reflexivity].
  apply Ascii.eqb_eq in E. congruence.
Qed.

Lemma replace_from_skip (r : regex) (t : template) (k : nat) (c : ascii) (s : str) :
  replace_from r t (S k) (c :: s) = replace_from r t k s.
Proof. reflexivity. Qed.

Lemma replace_from_nil (r : regex) (t : template) (k : nat) :
  match_at r [] = None -> replace_from r t k [] = [].
Proof. intros H. destruct k; simpl; [now rewrite H | reflexivity]. Qed.

Lemma replace_from_miss (r : regex) (t : template) (c : ascii) (s : str) :
  match_at r (c :: s) = None ->
  replace_from r t 0 (c :: s) = c :: replace_from r t 0 s.
Proof. intros H. cbn [replace_from]. now rewrite H. Qed.

Lemma replace_from_hit (r : regex) (t : template) (c : ascii) (s : str) (n : nat) (cs : caps) :
  match_at r (c :: s) = Some (S n, cs) ->
  replace_from r t 0 (c :: s) = expand t cs ++ replace_from r t n s.
Proof. intros H. cbn [replace_from]. now rewrite H. Qed.

Lemma expand_blank (cs : caps) : expand blank cs = [space].
Proof. reflexivity. Qed.

(** Squeezing blanks: what the second pass returns, from the scanning
    position and from inside a run. *)
Lemma squeeze_blanks (s : str) :
  sparse (replace_from blanks blank 0 s)
  /\ sparse (replace_from blanks blank (run is_space s) s)
  /\ head_not_space (replace_from blanks blank (run is_space s) s).
Proof.
  induction s as [|c s [IH0 [IHrun IHhead]]].
  - cbn [run]. rewrite replace_from_nil by reflexivity. simpl. tauto.
  - cbn [run]. destruct (is_space c) eqn:Hc.
    + rewrite replace_from_skip.
      rewrite (@replace_from_hit blanks blank c s (run is_space s) []).
      * rewrite expand_blank. cbn [app]. repeat split; assumption.
      * rewrite match_at_blanks. cbn [run]. now rewrite Hc.
    + rewrite replace_from_miss.
      * repeat split; try assumption; simpl; try congruence.
      * rewrite match_at_blanks. cbn [run]. now rewrite Hc.
Qed.

Lemma head_not_space_drop (s : str) : head_not_space (drop_spaces s).
Proof.
  induction s as [|c s IH]; simpl; [exact I|].
  destruct (is_space c) eqn:Hc; [exact IH | exact Hc].
Qed.

Lemma sparse_tail (c : ascii) (s : str) : sparse (c :: s) -> sparse s.
Proof. simpl. tauto. Qed.

Lemma sparse_drop (s : str) : sparse s -> sparse (drop_spaces s).
Proof.
  induction s as [|c s IH]; simpl; [tauto|].
  intros [Hc Hs]. destruct (is_space c) eqn:E; [now apply IH|].
  simpl. split; [rewrite E; discriminate | exact Hs].
Qed.

Lemma drop_trailing_head (c : ascii) (s : str) :
  is_space c = false ->
  exists r, drop_trailing_spaces (c :: s) = c :: r.
Proof.
  intros Hc. simpl. destruct (drop_trailing_spaces s) as [|d r].
  - rewrite Hc. now exists [].
  - now exists (d :: r).
Qed.

Lemma head_not_space_trailing (s : str) :
  head_not_space s -> head_not_space (drop_trailing_spaces s).
Proof.
  destruct s as [|c s]; [simpl; tauto|]. intros Hc.
  destruct (@drop_trailing_head c s Hc) as [r ->]. exact Hc.
Qed.

Lemma tidy_tail_trailing (s : str) :
  sparse s -> tidy_tail (drop_trailing_spaces s).
Proof.
  induction s as [|c s IH]; [simpl; tauto|].
  intros [Hc Hs]. specialize (IH Hs).
  cbn [drop_trailing_spaces].
  destruct (drop_trailing_spaces s) as [|d r] eqn:Hr.
  - destruct (is_space c) eqn:E; simpl; [tauto|]. split; [congruence | exact I].
  - split; [|exact IH].
    intros E. destruct (Hc E) as [-> Hhead]. split; [reflexivity|].
    destruct s as [|e s']; [discriminate Hr|].
    simpl in Hhead. destruct (@drop_trailing_head e s' Hhead) as [r' Hr'].
    rewrite Hr' in Hr. injection Hr as <- <-.
    now exists e, r'.
Qed.

Lemma trim_tidy (s : str) : sparse s -> tidy (trim s).
Proof.
  intros H. unfold trim. split.
  - apply head_not_space_trailing, head_not_space_drop.
  - apply tidy_tail_trailing. now apply sparse_drop.
Qed.

Lemma space_is_space : is_space space = true.
Proof. reflexivity. Qed.

Lemma newline_is_space : is_space newline = true.
Proof. reflexivity. Qed.

Lemma tidy_tail_no_newline (c : ascii) (s : str) : tidy_tail (c :: s) -> c <> newline.
Proof.
  intros [Hc _] E. subst c. destruct (Hc newline_is_space) as [E _]. discriminate E.
Qed.

Lemma line_breaks_fixed (s : str) :
  tidy_tail s -> replace_from line_break blank 0 s = s.
Proof.
  induction s as [|c s IH]; intros H.
  - reflexivity.
  - rewrite replace_from_miss.
    + f_equal. apply IH. simpl in H. tauto.
    + apply match_at_line_break. now apply tidy_tail_no_newline in H.
Qed.

Lemma blanks_fixed (s : str) :
  tidy_tail s -> replace_from blanks blank 0 s = s.
Proof.
  induction s as [|c s IH]; intros H.
  - reflexivity.
  - destruct H as [Hc Hs]. specialize (IH Hs).
    destruct (is_space c) eqn:E.
    + destruct (Hc eq_refl) as [-> [d [s' [-> Hd]]]].
      rewrite (@replace_from_hit blanks blank space (d :: s') 0 []).
      * rewrite expand_blank. cbn [app]. now rewrite IH.
      * rewrite match_at_blanks. cbn [run]. now rewrite space_is_space, Hd.
    + rewrite replace_from_miss; [now rewrite IH|].
      rewrite match_at_blanks. cbn [run]. now rewrite E.
Qed.

Lemma drop_spaces_fixed (s : str) : head_not_space s -> drop_spaces s = s.
Proof. destruct s as [|c s]; simpl; [reflexivity|]. now intros ->. Qed.

Lemma drop_trailing_fixed (s : str) : tidy_tail s -> drop_trailing_spaces s = s.
Proof.
  induction s as [|c s IH]; [reflexivity|].
  intros [Hc Hs]. cbn [drop_trailing_spaces]. rewrite (IH Hs).
  destruct s as [|d s'].
  - destruct (is_space c) eqn:E; [|reflexivity].
    destruct (Hc eq_refl) as [_ [d [s'' [E' _]]]]. discriminate E'.
  - reflexivity.
Qed.

Lemma trim_fixed (s : str) : tidy s -> trim s = s.
Proof.
  intros [Hhead Htail]. unfold trim.
  rewrite (@drop_spaces_fixed s Hhead). now apply drop_trailing_fixed.
Qed.

Lemma normalizeWhitespace_unfold (s : str) :
  normalizeWhitespace s
  = trim (replace_from blanks blank 0 (replace_from line_break blank 0 s)).
Proof. reflexivity. Qed.

Lemma normalizeWhitespace_tidy (s : str) : tidy (normalizeWhitespace s).
Proof.
  rewrite normalizeWhitespace_unfold. apply trim_tidy. apply squeeze_blanks.
Qed.

(** C7 (amended).  The whitespace passes of the cleaning chain (line
    breaks with the white space after them replaced by a blank, runs of
    white space replaced by a blank, [trim]) are idempotent: applied
    twice to any text they yield what one application yields.  The chain
    as a whole is not idempotent. *)
Theorem normalizeWhitespace_idempotent (s : str) :
  normalizeWhitespace (normalizeWhitespace s) = normalizeWhitespace s.
Proof.
  pose proof (normalizeWhitespace_tidy s) as H.
  set (t := normalizeWhitespace s) in *.
  rewrite normalizeWhitespace_unfold.
  destruct H as [Hhead Htail].
  rewrite (@line_breaks_fixed t Htail), (@blanks_fixed t Htail).
  now apply trim_fixed.
Qed.

(** ** Schedules in exact arithmetic *)

Lemma nonneg_times_incl (sel catalog : list Attraction) :
  incl sel catalog -> nonneg_times catalog -> nonneg_times sel.
Proof.
  intros Hincl Hcat. apply Forall_forall. intros a Ha.
  exact (proj1 (Forall_forall _ _) Hcat a (Hincl a Ha)).
Qed.

(** The rule-based fallback itinerary, its clock taken as an exact
    number: consecutive visits are spaced by the travel time of the
    matrix, or by 90 minutes, and start times grow. *)
Lemma fallback_schedule (userText : str) (catalog : list Attraction)
    (realTimeData : option RealTimeData) :
  nonneg_times catalog ->
  let visits := plannedAttractions
                  (getDirectFallbackTripPlan userText catalog realTimeData) in
  spaced (trafficOf realTimeData) visits /\ startsIncrease visits.
Proof.
  intros Hcat. simpl.
  assert (Hsel : nonneg_times (selectAttractions userText catalog realTimeData))
    by (apply (nonneg_times_incl (selectAttractions_incl userText catalog realTimeData) Hcat)).
  assert (H9 : (inject_Z 9 == inject_Z 540 / 60)%Q) by reflexivity.
  destruct (@planFallback_schedule realTimeData _ Hsel 0 (inject_Z 9) 540%Z
              ltac:(lia) H9) as [_ [Hsp Hinc]].
  split; assumption.
Qed.

(** An itinerary scheduled from a parsed answer, in exact arithmetic:
    start times grow, and when every identifier of the answer is known
    the visits are spaced by the travel time. *)
Lemma processDirectTripPlan_schedule (aiTripPlan : AiTripPlan) (userText : str)
    (catalog : list Attraction) (trafficData : option TrafficMatrix) (p : TripPlan) :
  nonneg_times catalog ->
  nonneg_durations (selection aiTripPlan) ->
  first_time_reads (selection aiTripPlan) ->
  processDirectTripPlan aiTripPlan userText catalog trafficData = Some p ->
  startsIncrease (plannedAttractions p)
  /\ (ids_known catalog (selection aiTripPlan) -> spaced trafficData (plannedAttractions p)).
Proof.
  intros Hcat Hdur Hfirst. unfold processDirectTripPlan.
  destruct (planSelected _ _ _ _ _) as [planned|] eqn:Hplanned; [|discriminate].
  intros [= <-]. simpl.
  destruct (selection aiTripPlan) as [|s0 rest] eqn:Hsel.
  - simpl in Hplanned. injection Hplanned as <-. simpl. tauto.
  - destruct Hfirst as [M [HM Hread]].
    destruct (@planSelected_schedule catalog trafficData Hcat _ Hdur 0
                (Some (inject_Z 9)) M planned HM Hread Hplanned) as [_ [Hinc Hsp]].
    split; assumption.
Qed.

(** C4 (counterexample).  The fallback itinerary for the three sample
    sites numbers its visits 1, 2, 3: the first ordinal is 1, not 0.  And
    when a broken answer sends the pipeline to text extraction, the visits
    keep the generator's own times, here 14:00 followed by 09:00. *)
Lemma ordinals_start_at_one :
  let visits := plannedAttractions
                  (getDirectFallbackTripPlan (js "a quiet day out") Sample.threeSites None) in
  map priority visits = [1; 2; 3]%Z
  /\ map recVisitOrder visits = [1; 2; 3]%Z
  /\ ~ ordinalsFrom 0 priority visits
  /\ let out := generateDirectTripPlan parseTripPlan Sample.noTraffic
                  (fun _ _ _ => Some Sample.unorderedAnswer)
                  Sample.idle 0 (js "culture then food") Sample.threeSites None in
     aiProvider (plan out) = js "Local Llama 3.1 (Text Extraction)"
     /\ map (fun pa => startMinutes (plannedStartTime pa)) (plannedAttractions (plan out))
        = [Some 840%Z; Some 540%Z]
     /\ ~ startsIncrease (plannedAttractions (plan out)).
Proof.
  split; [vm_compute; reflexivity|].
  split; [vm_compute; reflexivity|].
  split.
  - intros H.
    assert (E : exists pa,
               nth_error (plannedAttractions
                            (getDirectFallbackTripPlan (js "a quiet day out")
                                                       Sample.threeSites None)) 0
               = Some pa /\ priority pa = 1%Z).
    { eexists. split; vm_compute; reflexivity. }
    destruct E as [pa [Hpa Hone]].
    specialize (H 0 pa Hpa). rewrite Hone in H. discriminate H.
  - split; [vm_compute; reflexivity|].
    split; [vm_compute; reflexivity|].
    intros H. vm_compute in H. destruct H as [[s [t [Hs [Ht Hlt]]]] _].
    injection Hs as <-. injection Ht as <-. discriminate Hlt.
Qed.

(** C4 (amended).  On every path of the pipeline the ordinal assigned to
    the visit at position [i] is [i + 1]: ordinals are contiguous and
    start at 1.  The visit's own [priority] is that ordinal on the
    fallback and text-extraction paths.  Start times grow strictly with
    position in a fallback itinerary whose catalog visit times are not
    negative, and in an itinerary scheduled from a parsed answer whose
    first start time reads as a time of day and whose durations and
    catalog visit times are not negative (clock in exact arithmetic). *)
Theorem visits_numbered_from_one_and_ordered :
  (forall (JSON_parse : str -> option AiTripPlan)
          (getTrafficMatrix : list Attraction -> option TrafficMatrix)
          (generator : str -> list Attraction -> option RealTimeData -> option str)
          (this : Service) (now : Z) (userText : str) (catalog : list Attraction)
          (realTimeData : option RealTimeData),
      ordinalsFrom 1 recPriority
        (plannedAttractions
           (plan (generateDirectTripPlan JSON_parse getTrafficMatrix generator
                                         this now userText catalog realTimeData))))
  /\ (forall (userText : str) (catalog : list Attraction)
             (realTimeData : option RealTimeData),
         let visits := plannedAttractions
                         (getDirectFallbackTripPlan userText catalog realTimeData) in
         ordinalsFrom 1 priority visits
         /\ (nonneg_times catalog -> startsIncrease visits))
  /\ (forall (aiResponse userText : str) (catalog : list Attraction) (p : TripPlan),
         extractTripPlanFromText aiResponse userText catalog = Some p ->
         ordinalsFrom 1 priority (plannedAttractions p))
  /\ (forall (aiTripPlan : AiTripPlan) (userText : str) (catalog : list Attraction)
             (trafficData : option TrafficMatrix) (p : TripPlan),
         processDirectTripPlan aiTripPlan userText catalog trafficData = Some p ->
         nonneg_times catalog ->
         nonneg_durations (selection aiTripPlan) ->
         first_time_reads (selection aiTripPlan) ->
         startsIncrease (plannedAttractions p)).
Proof.
  split; [exact pipeline_ordinals|].
  split.
  - intros userText catalog realTimeData visits. split.
    + apply fallback_ordinals.
    + intros Hcat. now apply fallback_schedule.
  - split.
    + intros aiResponse userText catalog p Hp.
      now apply extractTripPlanFromText_ordinals in Hp.
    + intros aiTripPlan userText catalog trafficData p Hp Hcat Hdur Hfirst.
      now apply (@processDirectTripPlan_schedule aiTripPlan userText catalog
                   trafficData p Hcat Hdur Hfirst Hp).
Qed.

Lemma visits_numbered_from_one_and_ordered_witness :
  let fallback := plannedAttractions
                    (getDirectFallbackTripPlan (js "a quiet day out") Sample.threeSites None) in
  (ordinalsFrom 1 priority fallback /\ startsIncrease fallback)
  /\ exists p,
       processDirectTripPlan Sample.answerWithoutAggregates (js "a day of culture")
                             Sample.threeSites None = Some p
       /\ startsIncrease (plannedAttractions p).
Proof.
  destruct visits_numbered_from_one_and_ordered as [_ [Hfallback [_ Hparsed]]].
  assert (Hcat : nonneg_times Sample.threeSites).
  { repeat constructor; vm_compute; discriminate. }
  split.
  - destruct (Hfallback (js "a quiet day out") Sample.threeSites None) as [Hord Hinc].
    split; [exact Hord | exact (Hinc Hcat)].
  - eexists. split; [vm_compute; reflexivity|].
    apply (Hparsed Sample.answerWithoutAggregates (js "a day of culture")
                   Sample.threeSites None).
    + vm_compute. reflexivity.
    + exact Hcat.
    + repeat constructor; vm_compute; discriminate.
    + exists 540%Z. split; [lia | vm_compute; reflexivity].
Defined.

(** ** Further properties of the schedule and of the passes *)



(** X3.  One application of the whitespace passes leaves any text in
    whitespace normal form: no white space first or last, and single
    blanks only in between. *)
Theorem whitespace_passes_normal_form (s : str) : tidy (normalizeWhitespace s).
Proof. apply normalizeWhitespace_tidy. Qed.

(** A catalog of three or more entries with pairwise different
    identifiers always yields at least three visits. *)
Lemma fallback_visit_count_unique_ids (userText : str) (catalog : list Attraction)
    (realTimeData : option RealTimeData) :
  NoDup (map id catalog) -> 3 <= List.length catalog ->
  3 <= List.length
         (plannedAttractions (getDirectFallbackTripPlan userText catalog realTimeData)).
Proof.
  intros Hnodup H3. apply fallback_visit_count. unfold distinctIds.
  rewrite (nodup_fixed_point (list_eq_dec ascii_dec) Hnodup). now rewrite length_map.
Qed.

Lemma fresh_request_reaches_generator_witness :
  In GeneratorRequest
     (calls (generateDirectTripPlan parseTripPlan Sample.noTraffic Sample.silentGenerator
                                    Sample.idle 1700000000000 (js "temples and dim sum")
                                    Sample.threeSites None)).
Proof.
  apply (@fresh_request_reaches_generator parseTripPlan Sample.noTraffic
           Sample.silentGenerator Sample.idle 1700000000000 (js "temples and dim sum")
           Sample.threeSites None); reflexivity.
Defined.

(* ================================================================= *)
(** * Properties of the other methods *)

(** ** Loops, sorting and maps *)

Lemma forEach_invariant (A State : Type)
    (callback : State -> A -> nat -> option State) (P : State -> Prop) :
  (forall s x i s', P s -> callback s x i = Some s' -> P s') ->
  forall l i s s', P s -> JsArray.forEach callback i l s = Some s' -> P s'.
Proof.
  intros Hstep. induction l as [|x l IH]; intros i s s' Hs H; simpl in H.
  - now inversion H; subst.
  - destruct (callback s x i) as [s1|] eqn:E; [|discriminate].
    eapply IH; [|exact H]. eapply Hstep; eauto.
Qed.

Lemma forEach_total (A State : Type)
    (callback : State -> A -> nat -> option State) (bound : nat) (l : list A) :
  (forall s x i, In x l -> i < bound -> exists s', callback s x i = Some s') ->
  forall i s, i + List.length l <= bound ->
    exists s', JsArray.forEach callback i l s = Some s'.
Proof.
  induction l as [|x l IH]; intros Hstep i s Hlen; simpl in *.
  - now exists s.
  - destruct (Hstep s x i) as [s1 E]; [now left|lia|]. rewrite E.
    apply IH; [|lia]. intros s0 y j Hy Hj. apply Hstep; [now right|exact Hj].
Qed.

Lemma insert_permutation (A : Type) (le : A -> A -> bool) (x : A) (l : list A) :
  Permutation (JsArray.insert le x l) (x :: l).
Proof.
  induction l as [|y l IH]; simpl; [reflexivity|].
  destruct (le x y); [reflexivity|].
  rewrite IH. apply perm_swap.
Qed.

Lemma sort_permutation (A : Type) (le : A -> A -> bool) (l : list A) :
  Permutation (JsArray.sort le l) l.
Proof.
  induction l as [|x l IH]; simpl; [reflexivity|].
  rewrite insert_permutation. now constructor.
Qed.

Lemma insert_ordered (A : Type) (le : A -> A -> bool) (x : A) (l : list A) :
  (forall a b, le a b = true \/ le b a = true) ->
  (forall a b c, le a b = true -> le b c = true -> le a c = true) ->
  Sorted.StronglySorted (fun a b => le a b = true) l ->
  Sorted.StronglySorted (fun a b => le a b = true) (JsArray.insert le x l).
Proof.
  intros le_total le_trans. induction l as [|y l IH]; intros Hl; simpl.
  - constructor; constructor.
  - inversion Hl as [|? ? Hl' Hy]; subst.
    destruct (le x y) eqn:E.
    + constructor; [exact Hl|]. constructor; [exact E|].
      eapply Forall_impl; [|exact Hy]. intros z Hz. eapply le_trans; eauto.
    + constructor; [now apply IH|].
      assert (Hyx : le y x = true) by (destruct (le_total x y); congruence).
      apply (Permutation_Forall (Permutation_sym (insert_permutation le x l))).
      now constructor.
Qed.

Lemma sort_ordered (A : Type) (le : A -> A -> bool) (l : list A) :
  (forall a b, le a b = true \/ le b a = true) ->
  (forall a b c, le a b = true -> le b c = true -> le a c = true) ->
  Sorted.StronglySorted (fun a b => le a b = true) (JsArray.sort le l).
Proof.
  intros le_total le_trans.
  induction l as [|x l IH]; simpl; [constructor|]. now apply insert_ordered.
Qed.

(** The same for a comparator that is consistent on the elements of the
    list only. *)
Lemma insert_ordered_on (A : Type) (le : A -> A -> bool) (P : A -> Prop)
    (x : A) (l : list A) :
  (forall a b, P a -> P b -> le a b = true \/ le b a = true) ->
  (forall a b c, P a -> P b -> P c -> le a b = true -> le b c = true -> le a c = true) ->
  P x -> Forall P l ->
  Sorted.StronglySorted (fun a b => le a b = true) l ->
  Sorted.StronglySorted (fun a b => le a b = true) (JsArray.insert le x l).
Proof.
  intros le_total le_trans Hx. induction l as [|y l IH]; intros HP Hl; simpl.
  - constructor; constructor.
  - inversion Hl as [|? ? Hl' Hy]; subst.
    inversion HP as [|? ? Py Pl]; subst.
    destruct (le x y) eqn:E.
    + constructor; [exact Hl|]. constructor; [exact E|].
      rewrite Forall_forall in Hy, Pl. apply Forall_forall. intros z Hz.
      apply (le_trans x y z); auto.
    + constructor; [now apply IH|].
      assert (Hyx : le y x = true) by (destruct (le_total x y Hx Py); congruence).
      apply (Permutation_Forall (Permutation_sym (insert_permutation le x l))).
      now constructor.
Qed.

Lemma sort_ordered_on (A : Type) (le : A -> A -> bool) (P : A -> Prop) (l : list A) :
  (forall a b, P a -> P b -> le a b = true \/ le b a = true) ->
  (forall a b c, P a -> P b -> P c -> le a b = true -> le b c = true -> le a c = true) ->
  Forall P l ->
  Sorted.StronglySorted (fun a b => le a b = true) (JsArray.sort le l).
Proof.
  intros le_total le_trans.
  induction l as [|x l IH]; intros HP; simpl; [constructor|].
  inversion HP as [|? ? Px Pl]; subst.
  apply (@insert_ordered_on A le P); auto.
  apply (Permutation_Forall (Permutation_sym (sort_permutation le l))). exact Pl.
Qed.

Lemma skipn_incl (A : Type) (n : nat) (l : list A) : incl (skipn n l) l.
Proof.
  revert n. induction l as [|a l IH]; intros [|n] x Hx; simpl in *; auto.
  right. now apply (IH n).
Qed.

Lemma ordered_firstn_skipn (A : Type) (R : A -> A -> Prop) (l : list A) (n : nat) :
  Sorted.StronglySorted R l ->
  forall x y, In x (firstn n l) -> In y (skipn n l) -> R x y.
Proof.
  intros Hl. revert n. induction Hl as [|a l Hl IH Ha]; intros n x y Hx Hy.
  - now rewrite firstn_nil in Hx.
  - destruct n as [|n]; simpl in *; [contradiction|].
    destruct Hx as [->|Hx].
    + rewrite Forall_forall in Ha. apply Ha. eapply skipn_incl. exact Hy.
    + eapply IH; eauto.
Qed.

(** ** [processTrafficMatrix] *)

Lemma visitElement_counted (attractions : list Attraction) (i : nat)
    (p : DM.Progress) (e : DM.Element) (j : nat) (p' : DM.Progress) :
  counted p -> DM.visitElement attractions i p e j = Some p' -> counted p'.
Proof.
  intros [Hv Hh]. unfold DM.visitElement.
  destruct (i =? j); [intros E; inversion E; subst; now split|].
  destruct (str_eqb (DM.status e) (js "OK")); [|intros E; inversion E; subst; now split].
  destruct (nth_error attractions i) as [o|]; [|discriminate].
  destruct (nth_error attractions j) as [d|]; [|discriminate].
  intros E; inversion E; subst; clear E. unfold counted; simpl.
  rewrite filter_app, !length_app. simpl.
  destruct (DM.is_heavy (DM.conditionOf (DM.delayPercent e))); simpl; lia.
Qed.

Lemma visitRow_counted (attractions : list Attraction)
    (p : DM.Progress) (row : DM.Row) (i : nat) (p' : DM.Progress) :
  counted p -> DM.visitRow attractions p row i = Some p' -> counted p'.
Proof.
  intros Hp H. unfold DM.visitRow in H.
  eapply forEach_invariant; [|exact Hp|exact H].
  intros s x j s' Hs E. eapply visitElement_counted; eauto.
Qed.

Lemma visitElement_total (attractions : list Attraction) (i j : nat)
    (p : DM.Progress) (e : DM.Element) :
  i < List.length attractions -> j < List.length attractions ->
  exists p', DM.visitElement attractions i p e j = Some p'.
Proof.
  intros Hi Hj. unfold DM.visitElement.
  destruct (i =? j); [eauto|].
  destruct (str_eqb (DM.status e) (js "OK")); [|eauto].
  destruct (nth_error attractions i) as [o|] eqn:Eo;
    [|apply nth_error_None in Eo; lia].
  destruct (nth_error attractions j) as [d|] eqn:Ed;
    [|apply nth_error_None in Ed; lia].
  eauto.
Qed.

Lemma processTrafficMatrix_total (data : DM.Answer) (attractions : list Attraction) :
  fits data attractions ->
  exists m, DM.processTrafficMatrix data attractions = Some m.
Proof.
  intros [Hrows Hcells]. unfold DM.processTrafficMatrix.
  destruct (@forEach_total DM.Row DM.Progress (DM.visitRow attractions)
              (List.length attractions) (DM.rows data)) with
      (i := 0) (s := {| DM.pushed := []; DM.totalDelay := 0%Z;
                        DM.validRoutes := 0; DM.heavySoFar := 0 |})
    as [p Hp].
  - intros s row i Hrow Hi. unfold DM.visitRow.
    apply (@forEach_total DM.Element DM.Progress (DM.visitElement attractions i)
             (List.length attractions)).
    + intros s0 e j _ Hj. now apply visitElement_total.
    + rewrite Forall_forall in Hcells. simpl. now apply Hcells.
  - simpl. exact Hrows.
  - rewrite Hp. eauto.
Qed.

Lemma processTrafficMatrix_counted (data : DM.Answer) (attractions : list Attraction)
    (m : DM.Matrix) :
  DM.processTrafficMatrix data attractions = Some m ->
  DM.totalRoutes (DM.summary m) = List.length (DM.routes m)
  /\ DM.heavyTrafficRoutes (DM.summary m)
     = List.length (filter (fun r => DM.is_heavy (DM.trafficCondition r)) (DM.routes m)).
Proof.
  unfold DM.processTrafficMatrix.
  destruct (JsArray.forEach _ _ _ _) as [p|] eqn:E; [|discriminate].
  intros H; inversion H; subst; clear H. simpl.
  assert (Hc : counted p).
  { eapply forEach_invariant; [|
      |exact E].
    - intros s x i s' Hs Hx. eapply visitRow_counted; eauto.
    - now split. }
  exact Hc.
Qed.

Lemma visitElement_pushed (attractions : list Attraction) (i j : nat)
    (p p' : DM.Progress) (e : DM.Element) :
  DM.visitElement attractions i p e j = Some p' ->
  forall r, In r (DM.pushed p') <-> In r (DM.pushed p) \/ built_from attractions i j e r.
Proof.
  unfold DM.visitElement, built_from.
  destruct (i =? j) eqn:Eij.
  { apply Nat.eqb_eq in Eij. intros E; inversion E; subst. intros r. split; [now left|].
    intros [H|[H _]]; [exact H|contradiction]. }
  apply Nat.eqb_neq in Eij.
  destruct (str_eqb (DM.status e) (js "OK")) eqn:Est.
  2:{ apply str_eqb_neq in Est. intros E; inversion E; subst. intros r.
      split; [now left|]. intros [H|[_ [H _]]]; [exact H|contradiction]. }
  apply str_eqb_eq in Est.
  destruct (nth_error attractions i) as [o|] eqn:Eo; [|discriminate].
  destruct (nth_error attractions j) as [d|] eqn:Ed; [|discriminate].
  intros E; inversion E; subst; clear E. simpl. intros r. rewrite in_app_iff. simpl.
  split.
  - intros [H|[H|[]]]; [now left|]. right. repeat split; auto. exists o, d. now subst.
  - intros [H|[_ [_ [o' [d' [Ho [Hd Hr]]]]]]]; [now left|].
    right. left. congruence.
Qed.

Lemma forEach_elements_pushed (attractions : list Attraction) (i : nat) :
  forall es j0 p p',
    JsArray.forEach (DM.visitElement attractions i) j0 es p = Some p' ->
    forall r, In r (DM.pushed p')
              <-> In r (DM.pushed p)
                  \/ exists k e, nth_error es k = Some e
                                 /\ built_from attractions i (j0 + k) e r.
Proof.
  induction es as [|e es IH]; intros j0 p p' H r; simpl in H.
  - inversion H; subst. split; [now left|].
    intros [Hr|[k [e [Hk _]]]]; [exact Hr|]. now destruct k.
  - destruct (DM.visitElement attractions i p e j0) as [p1|] eqn:E1; [|discriminate].
    rewrite (IH _ _ _ H r), (visitElement_pushed _ _ _ _ _ E1 r).
    split.
    + intros [[Hr|Hb]|[k [e' [Hk Hb]]]].
      * now left.
      * right. exists 0, e. rewrite Nat.add_0_r. now split.
      * right. exists (S k), e'. split; [exact Hk|].
        now replace (j0 + S k) with (S j0 + k) by lia.
    + intros [Hr|[k [e' [Hk Hb]]]]; [now left; left|].
      destruct k as [|k]; simpl in Hk.
      * inversion Hk; subst. rewrite Nat.add_0_r in Hb. now left; right.
      * right. exists k, e'. split; [exact Hk|].
        now replace (S j0 + k) with (j0 + S k) by lia.
Qed.

Lemma forEach_rows_pushed (attractions : list Attraction) :
  forall rows i0 p p',
    JsArray.forEach (DM.visitRow attractions) i0 rows p = Some p' ->
    forall r, In r (DM.pushed p')
              <-> In r (DM.pushed p)
                  \/ exists k row j e,
                       nth_error rows k = Some row
                       /\ nth_error (DM.elements row) j = Some e
                       /\ built_from attractions (i0 + k) j e r.
Proof.
  induction rows as [|row rows IH]; intros i0 p p' H r; simpl in H.
  - inversion H; subst. split; [now left|].
    intros [Hr|[k [row [j [e [Hk _]]]]]]; [exact Hr|]. now destruct k.
  - destruct (DM.visitRow attractions p row i0) as [p1|] eqn:E1; [|discriminate].
    unfold DM.visitRow in E1.
    rewrite (IH _ _ _ H r), (forEach_elements_pushed _ _ _ _ _ E1 r).
    split.
    + intros [[Hr|[j [e [Hj Hb]]]]|[k [row' [j [e [Hk [Hj Hb]]]]]]].
      * now left.
      * right. exists 0, row, j, e. rewrite Nat.add_0_r. simpl in Hb.
        split; [reflexivity|split; [exact Hj|exact Hb]].
      * right. exists (S k), row', j, e. split; [exact Hk|split; [exact Hj|]].
        now replace (i0 + S k) with (S i0 + k) by lia.
    + intros [Hr|[k [row' [j [e [Hk [Hj Hb]]]]]]]; [now left; left|].
      destruct k as [|k]; simpl in Hk.
      * inversion Hk; subst. rewrite Nat.add_0_r in Hb. left; right.
        exists j, e. split; [exact Hj|exact Hb].
      * right. exists k, row', j, e. split; [exact Hk|split; [exact Hj|]].
        now replace (S i0 + k) with (i0 + S k) by lia.
Qed.

(** The routes of the processed matrix are the routes of the usable
    cells off the diagonal. *)
Lemma processTrafficMatrix_routes (data : DM.Answer) (attractions : list Attraction)
    (m : DM.Matrix) :
  DM.processTrafficMatrix data attractions = Some m ->
  forall r, In r (DM.routes m)
            <-> exists i j e, cell data i j = Some e /\ built_from attractions i j e r.
Proof.
  unfold DM.processTrafficMatrix.
  destruct (JsArray.forEach _ _ _ _) as [p|] eqn:E; [|discriminate].
  intros H; inversion H; subst; clear H. simpl. intros r.
  rewrite (forEach_rows_pushed _ _ _ _ E r). simpl. unfold cell. split.
  - intros [[]|[k [row [j [e [Hk [Hj Hb]]]]]]]. exists k, j, e. now rewrite Hk.
  - intros [i [j [e [Hc Hb]]]]. right.
    destruct (nth_error (DM.rows data) i) as [row|] eqn:Hrow; [|discriminate].
    now exists i, row, j, e.
Qed.

Lemma ceilDiv_positive (x : Z) : (0 < x)%Z -> (0 < DM.ceilDiv x 60)%Z.
Proof.
  intros Hx. unfold DM.ceilDiv.
  assert ((- x) / 60 < 0)%Z by (apply Z.div_lt_upper_bound; lia). lia.
Qed.

Lemma ceilDiv_sub_add (x y : Z) :
  (DM.ceilDiv x 60 + DM.ceilDiv (y - x) 60 - 1 <= DM.ceilDiv y 60
   /\ DM.ceilDiv y 60 <= DM.ceilDiv x 60 + DM.ceilDiv (y - x) 60)%Z.
Proof.
  unfold DM.ceilDiv.
  pose proof (Z.div_mod (- x) 60 ltac:(lia)) as Hx.
  pose proof (Z.div_mod (- y) 60 ltac:(lia)) as Hy.
  pose proof (Z.div_mod (- (y - x)) 60 ltac:(lia)) as Hd.
  pose proof (Z.mod_pos_bound (- x) 60 ltac:(lia)).
  pose proof (Z.mod_pos_bound (- y) 60 ltac:(lia)).
  pose proof (Z.mod_pos_bound (- (y - x)) 60 ltac:(lia)).
  lia.
Qed.

(** X6.  For an answer of the Distance Matrix API whose rows and cells
    all stand for attractions, [processTrafficMatrix] returns a matrix
    whose summary counts its routes: [totalRoutes] is the number of
    routes and [heavyTrafficRoutes] the number of those in heavy
    traffic. *)
Theorem summary_counts_the_routes (data : DM.Answer) (attractions : list Attraction) :
  fits data attractions ->
  exists m,
    DM.processTrafficMatrix data attractions = Some m
    /\ DM.totalRoutes (DM.summary m) = List.length (DM.routes m)
    /\ DM.heavyTrafficRoutes (DM.summary m)
       = List.length (filter (fun r => DM.is_heavy (DM.trafficCondition r)) (DM.routes m))
    /\ DM.heavyTrafficRoutes (DM.summary m) <= DM.totalRoutes (DM.summary m).
Proof.
  intros Hfits. destruct (processTrafficMatrix_total Hfits) as [m Hm].
  exists m. split; [exact Hm|].
  destruct (processTrafficMatrix_counted _ _ Hm) as [Ht Hh].
  split; [exact Ht|]. split; [exact Hh|].
  rewrite Hh, Ht. apply filter_length_le.
Qed.

Lemma summary_counts_the_routes_witness :
  exists m,
    DM.processTrafficMatrix Cases.twoByTwo Cases.templeAndMarket = Some m
    /\ DM.totalRoutes (DM.summary m) = List.length (DM.routes m)
    /\ DM.heavyTrafficRoutes (DM.summary m)
       = List.length (filter (fun r => DM.is_heavy (DM.trafficCondition r)) (DM.routes m))
    /\ DM.heavyTrafficRoutes (DM.summary m) <= DM.totalRoutes (DM.summary m).
Proof.
  apply (@summary_counts_the_routes Cases.twoByTwo Cases.templeAndMarket).
  split; [simpl; lia|]. repeat constructor; simpl; lia.
Defined.

(** X7.  Every route of a processed matrix joins two different
    positions of the attraction list and carries their names and
    identifiers; its three durations, each rounded up to minutes on its
    own, agree within one minute. *)
Theorem routes_join_different_attractions (data : DM.Answer)
    (attractions : list Attraction) (m : DM.Matrix) (r : DM.RouteEntry) :
  DM.processTrafficMatrix data attractions = Some m ->
  In r (DM.routes m) ->
  (exists i j o d,
     i <> j
     /\ nth_error attractions i = Some o /\ nth_error attractions j = Some d
     /\ DM.from r = name o /\ DM.fromId r = id o
     /\ DM.to r = name d /\ DM.toId r = id d)
  /\ (DM.normalDuration r + DM.trafficDelay r - 1 <= DM.trafficDuration r
      <= DM.normalDuration r + DM.trafficDelay r)%Z.
Proof.
  intros Hm Hr. apply (processTrafficMatrix_routes _ _ Hm) in Hr.
  destruct Hr as [i [j [e [_ [Hij [_ [o [d [Ho [Hd ->]]]]]]]]]].
  split.
  - exists i, j, o, d. now repeat split.
  - simpl. unfold DM.delaySeconds. apply ceilDiv_sub_add.
Qed.

Lemma routes_join_different_attractions_witness :
  (exists i j o d,
     i <> j
     /\ nth_error Cases.templeAndMarket i = Some o
     /\ nth_error Cases.templeAndMarket j = Some d
     /\ DM.from Cases.templeToMarket = name o /\ DM.fromId Cases.templeToMarket = id o
     /\ DM.to Cases.templeToMarket = name d /\ DM.toId Cases.templeToMarket = id d)
  /\ (DM.normalDuration Cases.templeToMarket + DM.trafficDelay Cases.templeToMarket - 1
      <= DM.trafficDuration Cases.templeToMarket
      <= DM.normalDuration Cases.templeToMarket + DM.trafficDelay Cases.templeToMarket)%Z.
Proof.
  apply (@routes_join_different_attractions Cases.twoByTwo Cases.templeAndMarket
           Cases.twoByTwoMatrix Cases.templeToMarket).
  - vm_compute. reflexivity.
  - left. reflexivity.
Defined.

(** ** From the processed matrix to [getTrafficTime] *)

Lemma find_unique (A : Type) (f : A -> bool) (l : list A) (x : A) :
  In x l -> f x = true -> (forall y, In y l -> f y = true -> y = x) ->
  find f l = Some x.
Proof.
  induction l as [|a l IH]; intros Hin Hx Huniq; [contradiction|]. simpl.
  destruct (f a) eqn:Ea.
  - f_equal. apply Huniq; [now left|exact Ea].
  - apply IH; auto.
    + destruct Hin as [->|Hin]; [congruence|exact Hin].
    + intros y Hy. apply Huniq. now right.
Qed.

Lemma starts_with_refl (s : str) : starts_with s s = true.
Proof. induction s as [|c s IH]; simpl; [reflexivity|]. now rewrite Ascii.eqb_refl. Qed.

Lemma includes_refl (s : str) : includes s s = true.
Proof. destruct s as [|c s]; simpl; [reflexivity|]. now rewrite Ascii.eqb_refl, starts_with_refl. Qed.

Lemma related_refl (s : str) : related s s = true.
Proof. unfold related. now rewrite includes_refl. Qed.

Lemma related_sym (a b : str) : related a b = related b a.
Proof. unfold related. apply orb_comm. Qed.

Lemma route_matches_related (a b : str) (r : Route) :
  route_matches a b r = related (Model.from r) a && related (Model.to r) b.
Proof. reflexivity. Qed.

Lemma cell_unique (data : DM.Answer) (i j : nat) (e e' : DM.Element) :
  cell data i j = Some e -> cell data i j = Some e' -> e = e'.
Proof. congruence. Qed.

Lemma unrelatedb_sound (attractions : list Attraction) :
  unrelatedb attractions = true -> unrelated_names attractions.
Proof.
  induction attractions as [|x rest IH]; intros H k l a b Hk Hl Hrel.
  - now destruct k.
  - cbn [unrelatedb] in H. apply andb_prop in H as [Hx Hrest].
    rewrite forallb_forall in Hx.
    destruct k as [|k], l as [|l]; cbn [nth_error] in Hk, Hl.
    + reflexivity.
    + inversion Hk; subst. apply nth_error_In in Hl. apply Hx in Hl.
      rewrite Hrel in Hl. discriminate.
    + inversion Hl; subst. apply nth_error_In in Hk. apply Hx in Hk.
      rewrite related_sym, Hrel in Hk. discriminate.
    + f_equal. eapply IH; eauto.
Qed.

(** X8.  Round trip.  When no attraction name contains another (case
    apart), the travel time looked up by name in a processed matrix is
    the traffic duration of the cell of that journey, rounded up to
    minutes, as long as the cell is usable and its duration positive. *)
Theorem lookup_returns_the_cell_of_the_journey (data : DM.Answer)
    (attractions : list Attraction) (m : DM.Matrix) (i j : nat)
    (e : DM.Element) (o d : Attraction) :
  DM.processTrafficMatrix data attractions = Some m ->
  unrelated_names attractions ->
  cell data i j = Some e -> i <> j -> DM.status e = js "OK" ->
  nth_error attractions i = Some o -> nth_error attractions j = Some d ->
  (0 < DM.trafficSeconds e)%Z ->
  getTrafficTime (Some (DM.asTrafficMatrix m)) (name o) (name d)
  = DM.ceilDiv (DM.trafficSeconds e) 60.
Proof.
  intros Hm Hnames Hcell Hij Hok Ho Hd Hpos.
  unfold getTrafficTime, DM.asTrafficMatrix. cbn [Model.routes].
  rewrite (@find_unique _ (route_matches (name o) (name d))
             (map DM.asRoute (DM.routes m)) (DM.asRoute (DM.routeOf o d e))).
  - cbn [DM.asRoute DM.routeOf Model.trafficDuration DM.trafficDuration].
    pose proof (ceilDiv_positive Hpos) as Hc. apply Z.ltb_lt in Hc. now rewrite Hc.
  - apply in_map. apply (processTrafficMatrix_routes _ _ Hm).
    exists i, j, e. split; [exact Hcell|]. split; [exact Hij|]. split; [exact Hok|].
    now exists o, d.
  - rewrite route_matches_related. cbn. now rewrite !related_refl.
  - intros y Hy Hmatch. apply in_map_iff in Hy as [r [<- Hr]].
    apply (processTrafficMatrix_routes _ _ Hm) in Hr.
    destruct Hr as [i' [j' [e' [Hcell' [_ [_ [o' [d' [Ho' [Hd' ->]]]]]]]]]].
    rewrite route_matches_related in Hmatch. cbn in Hmatch.
    apply andb_prop in Hmatch as [Hfrom Hto].
    assert (i' = i) by (eapply Hnames; eauto). subst i'.
    assert (j' = j) by (eapply Hnames; eauto). subst j'.
    assert (e' = e) by (eapply cell_unique; eauto). congruence.
Qed.

Lemma lookup_returns_the_cell_of_the_journey_witness :
  getTrafficTime (Some (DM.asTrafficMatrix Cases.twoByTwoMatrix))
                 (name Sample.temple) (name Sample.market)
  = DM.ceilDiv (DM.trafficSeconds (Cases.usable 600 900)) 60.
Proof.
  apply (@lookup_returns_the_cell_of_the_journey Cases.twoByTwo Cases.templeAndMarket
           Cases.twoByTwoMatrix 0 1 (Cases.usable 600 900) Sample.temple Sample.market).
  - vm_compute. reflexivity.
  - apply unrelatedb_sound. vm_compute. reflexivity.
  - reflexivity.
  - lia.
  - reflexivity.
  - reflexivity.
  - reflexivity.
  - vm_compute. reflexivity.
Defined.

Lemma nth_error_firstn_some (A : Type) (n : nat) (l : list A) (i : nat) (x : A) :
  nth_error (firstn n l) i = Some x -> i < n /\ nth_error l i = Some x.
Proof.
  revert l i. induction n as [|n IH]; intros l i H.
  - rewrite firstn_O in H. now destruct i.
  - destruct l as [|a l]; [now destruct i|]. destruct i as [|i]; simpl in H.
    + split; [lia|exact H].
    + apply IH in H as [Hi Hx]. split; [lia|exact Hx].
Qed.

(** X9.  Traffic data reach the first ten attractions only: when no
    attraction name contains another, the matrix that
    [getTrafficMatrix] returns has no travel time from or to an
    attraction beyond the tenth, so that [getTrafficTime] answers 0 and
    the schedulers fall back on their default. *)
Theorem no_traffic_time_beyond_the_tenth (request : list Attraction -> option DM.Answer)
    (isAvailable : bool) (attractions : list Attraction) (m : DM.Matrix)
    (k : nat) (a : Attraction) (other : str) :
  DM.getTrafficMatrix request isAvailable attractions = Some m ->
  unrelated_names attractions ->
  nth_error attractions k = Some a -> 10 <= k ->
  getTrafficTime (Some (DM.asTrafficMatrix m)) (name a) other = 0%Z
  /\ getTrafficTime (Some (DM.asTrafficMatrix m)) other (name a) = 0%Z.
Proof.
  intros Hm Hnames Hk H10. unfold DM.getTrafficMatrix in Hm.
  destruct (negb isAvailable); [discriminate|].
  destruct (request (firstn 10 attractions)) as [data|]; [|discriminate].
  destruct (negb (str_eqb (DM.answerStatus data) (js "OK"))); [discriminate|].
  assert (Hnone : forall r, In r (DM.routes m) ->
                    related (DM.from r) (name a) = false
                    /\ related (DM.to r) (name a) = false).
  { intros r Hr. apply (processTrafficMatrix_routes _ _ Hm) in Hr.
    destruct Hr as [i [j [e [_ [_ [_ [o [d [Ho [Hd ->]]]]]]]]]].
    apply nth_error_firstn_some in Ho as [Hi Ho].
    apply nth_error_firstn_some in Hd as [Hj Hd].
    cbn [DM.routeOf DM.from DM.to]. split.
    - destruct (related (name o) (name a)) eqn:E; [|reflexivity].
      assert (i = k) by (eapply Hnames; eauto). lia.
    - destruct (related (name d) (name a)) eqn:E; [|reflexivity].
      assert (j = k) by (eapply Hnames; eauto). lia. }
  unfold getTrafficTime, DM.asTrafficMatrix. cbn [Model.routes].
  split.
  - rewrite find_none_intro; [reflexivity|].
    intros y Hy. apply in_map_iff in Hy as [r [<- Hr]].
    rewrite route_matches_related. cbn [DM.asRoute Model.from Model.to].
    destruct (Hnone r Hr) as [Hf _]. now rewrite Hf.
  - rewrite find_none_intro; [reflexivity|].
    intros y Hy. apply in_map_iff in Hy as [r [<- Hr]].
    rewrite route_matches_related. cbn [DM.asRoute Model.from Model.to].
    destruct (Hnone r Hr) as [_ Ht]. rewrite Ht. apply andb_false_r.
Qed.

Lemma no_traffic_time_beyond_the_tenth_witness :
  getTrafficTime (Some (DM.asTrafficMatrix Cases.twoByTwoMatrix))
                 (js "Ocean Bay") (js "Man Mo Hall") = 0%Z
  /\ getTrafficTime (Some (DM.asTrafficMatrix Cases.twoByTwoMatrix))
                    (js "Man Mo Hall") (js "Ocean Bay") = 0%Z.
Proof.
  apply (@no_traffic_time_beyond_the_tenth Cases.twoByTwoApi true Cases.elevenSites
           Cases.twoByTwoMatrix 10 (Sample.site "s11" "Ocean Bay" "nature" "free" 120)
           (js "Man Mo Hall")).
  - vm_compute. reflexivity.
  - apply unrelatedb_sound. vm_compute. reflexivity.
  - reflexivity.
  - lia.
Defined.

(** ** [generateTrafficSummary] *)

Lemma byDelay_total (a b : DM.RouteEntry) : DM.byDelay a b = true \/ DM.byDelay b a = true.
Proof. unfold DM.byDelay. rewrite !Z.leb_le. lia. Qed.

Lemma byDelay_trans (a b c : DM.RouteEntry) :
  DM.byDelay a b = true -> DM.byDelay b c = true -> DM.byDelay a c = true.
Proof. unfold DM.byDelay. rewrite !Z.leb_le. lia. Qed.

(** X10.  The routes listed in the traffic summary are the routes with
    the longest delays: ten at most, each a route of the matrix with a
    delay above five minutes, in order of falling delay, and a route
    with such a delay is only left out when ten routes with delays at
    least as long are listed. *)
Theorem summary_lists_the_longest_delays (m : DM.Matrix) :
  List.length (DM.significantRoutes m) <= 10
  /\ Forall (fun r => In r (DM.routes m) /\ (5 < DM.trafficDelay r)%Z)
            (DM.significantRoutes m)
  /\ Sorted.StronglySorted (fun a b => (DM.trafficDelay b <= DM.trafficDelay a)%Z)
                           (DM.significantRoutes m)
  /\ forall r, In r (DM.routes m) /\ (5 < DM.trafficDelay r)%Z ->
               In r (DM.significantRoutes m)
               \/ (List.length (DM.significantRoutes m) = 10
                   /\ Forall (fun s => (DM.trafficDelay r <= DM.trafficDelay s)%Z)
                             (DM.significantRoutes m)).
Proof.
  unfold DM.significantRoutes.
  set (kept := filter (fun r => (5 <? DM.trafficDelay r)%Z) (DM.routes m)).
  set (sorted := JsArray.sort DM.byDelay kept).
  assert (Hperm : Permutation sorted kept) by apply sort_permutation.
  assert (Hsorted : Sorted.StronglySorted (fun a b => DM.byDelay a b = true) sorted)
    by (apply sort_ordered; [apply byDelay_total|apply byDelay_trans]).
  split; [apply firstn_le_length|]. split; [|split].
  - apply Forall_forall. intros r Hr. apply firstn_incl in Hr.
    apply (Permutation_in _ Hperm) in Hr. apply filter_In in Hr as [Hin H5].
    split; [exact Hin|]. now apply Z.ltb_lt.
  - assert (Hfirst : forall n, Sorted.StronglySorted (fun a b => DM.byDelay a b = true)
                                  (firstn n sorted)).
    { clear -Hsorted. induction Hsorted as [|a l Hl IH Ha]; intros [|n]; simpl;
        try constructor.
      - apply IH.
      - apply Forall_forall. intros x Hx. apply firstn_incl in Hx.
        rewrite Forall_forall in Ha. now apply Ha. }
    specialize (Hfirst 10). revert Hfirst. generalize (firstn 10 sorted).
    intros l Hl. induction Hl as [|a l Hl IH Ha]; constructor; auto.
    eapply Forall_impl; [|exact Ha]. intros b Hb. now apply Z.leb_le.
  - intros r [Hin H5].
    assert (Hr : In r sorted).
    { apply (Permutation_in _ (Permutation_sym Hperm)). apply filter_In. split; auto.
      now apply Z.ltb_lt. }
    rewrite <- (firstn_skipn 10 sorted) in Hr. apply in_app_or in Hr as [Hr|Hr];
      [now left|right].
    split.
    + assert (10 < List.length sorted).
      { destruct (Nat.lt_ge_cases 10 (List.length sorted)) as [H|H]; [exact H|].
        rewrite skipn_all2 in Hr by exact H. contradiction. }
      rewrite length_firstn. lia.
    + apply Forall_forall. intros s Hs.
      apply Z.leb_le. apply (ordered_firstn_skipn 10 Hsorted s r Hs Hr).
Qed.

(** ** [validatePreferences] *)



Lemma Qle_bool_false (x y : Q) : Qle_bool x y = false -> (y < x)%Q.
Proof.
  intros H. apply Qnot_le_lt. intros Hle. apply Qle_bool_iff in Hle. congruence.
Qed.

Ltac qcases :=
  repeat match goal with
         | |- context [Qeq_bool ?a ?b] =>
             let E := fresh "E" in
             destruct (Qeq_bool a b) eqn:E;
             [apply Qeq_bool_iff in E | apply Qeq_bool_neq in E]
         | |- context [Qle_bool ?a ?b] =>
             lazymatch b with
             | context [Qle_bool _ _] => fail
             | _ =>
                 let E := fresh "E" in
                 destruct (Qle_bool a b) eqn:E;
                 [apply Qle_bool_iff in E | apply Qle_bool_false in E]
             end
         end.

Lemma clamp_within (lo hi x : Q) :
  (lo <= hi)%Q -> within lo hi (Some (P.Math_max lo (P.Math_min hi x))).
Proof.
  intros H. unfold within, P.Math_max, P.Math_min. qcases; split; lra.
Qed.

Lemma Array_includes_In (l : list str) (x : str) :
  P.Array_includes l x = true <-> In x l.
Proof.
  unfold P.Array_includes. rewrite existsb_exists. split.
  - intros [y [Hy E]]. apply str_eqb_eq in E. now subst.
  - intros H. exists x. split; [exact H|apply str_eqb_refl].
Qed.

Lemma mixed_is_valid : In (js "mixed") P.validTransport.
Proof. vm_compute. tauto. Qed.

Lemma validatePreferences_valid (p : P.Preferences) : valid (P.validatePreferences p).
Proof.
  unfold valid, valid_but_budget, P.validatePreferences.
  cbn [P.budget P.maxTravelTime P.preferredActivities P.groupSize P.confidence
       P.transportMode all_in one_of].
  split; [apply clamp_within; lra|].
  split; [apply clamp_within; lra|].
  split; [apply clamp_within; lra|].
  split; [apply clamp_within; lra|].
  split.
  - apply Forall_forall. intros c Hc. apply filter_In in Hc as [_ Hc].
    now apply (proj1 (Array_includes_In _ _)).
  - destruct (P.transportMode p) as [t|]; [|apply mixed_is_valid].
    destruct (P.Array_includes P.validTransport t) eqn:E; [|apply mixed_is_valid].
    now apply (proj1 (Array_includes_In _ _)).
Qed.

(** X11.  Whatever the answer of the generator holds, the validated
    preferences are within the ranges of the service: budget 100 to
    10000, travel time 15 to 300, group size 1 to 20, confidence 0 to
    1, activities among the eight categories and one of the four
    transport modes. *)
Theorem validated_preferences_are_in_range (preferences : P.Preferences) :
  valid (P.validatePreferences preferences).
Proof. apply validatePreferences_valid. Qed.

Lemma filter_idempotent (A : Type) (f : A -> bool) (l : list A) :
  filter f (filter f l) = filter f l.
Proof.
  induction l as [|a l IH]; simpl; [reflexivity|].
  destruct (f a) eqn:E; simpl; [rewrite E|]; now rewrite IH.
Qed.

(** A clamped value that is not zero is left alone by the same clamp. *)
Lemma clamp_fixed (lo hi d x : Q) :
  (lo < hi)%Q -> (0 <= lo)%Q ->
  ~ (P.Math_max lo (P.Math_min hi x) == 0)%Q ->
  P.Math_max lo (P.Math_min hi (P.orQ (Some (P.Math_max lo (P.Math_min hi x))) d))
  = P.Math_max lo (P.Math_min hi x).
Proof.
  intros Hlt Hlo Hb. unfold P.orQ.
  destruct (Qeq_bool (P.Math_max lo (P.Math_min hi x)) 0) eqn:E0;
    [apply Qeq_bool_iff in E0; contradiction|].
  clear E0 Hb. unfold P.Math_max, P.Math_min.
  destruct (Qle_bool hi x) eqn:E1.
  - assert (E2 : Qle_bool lo hi = true) by (apply Qle_bool_iff; lra).
    rewrite E2. assert (E3 : Qle_bool hi hi = true) by (apply Qle_bool_iff; lra).
    now rewrite E3, E2.
  - destruct (Qle_bool lo x) eqn:E2.
    + now rewrite E1, E2.
    + assert (E3 : Qle_bool hi lo = false).
      { destruct (Qle_bool hi lo) eqn:E; [|reflexivity].
        apply Qle_bool_iff in E. lra. }
      rewrite E3. assert (E4 : Qle_bool lo lo = true) by (apply Qle_bool_iff; lra).
      now rewrite E4.
Qed.

Lemma clamp_positive (lo hi x : Q) :
  (0 < lo)%Q -> (lo <= hi)%Q -> ~ (P.Math_max lo (P.Math_min hi x) == 0)%Q.
Proof.
  intros Hlo Hhi. pose proof (clamp_within x Hhi) as [H _]. lra.
Qed.

(** The confidence after validation is zero exactly for a negative
    confidence. *)
Lemma confidence_zero (c : option Q) :
  (P.Math_max 0 (P.Math_min 1 (P.orQ c (4 # 5))) == 0)%Q
  <-> exists q, c = Some q /\ (q < 0)%Q.
Proof.
  unfold P.orQ. destruct c as [q|].
  - split.
    + intros H. exists q. split; [reflexivity|]. revert H.
      unfold P.Math_max, P.Math_min. qcases; intros H; try lra.
      all: revert H; unfold Qeq; simpl; lia.
    + intros [q' [Hq Hneg]]. inversion Hq; subst q'.
      unfold P.Math_max, P.Math_min. qcases; try lra.
  - split; [|intros [q [Hq _]]; discriminate].
    vm_compute. discriminate.
Qed.

(** X12.  For a preferences object whose fields are absent or of the
    types of the schema, validating twice is the same as validating
    once, except when the confidence is negative: it becomes 0, which
    the second validation takes for a missing one and replaces by
    0.8. *)
Theorem validation_twice (preferences : P.Preferences) :
  P.validatePreferences (P.validatePreferences preferences)
  = P.validatePreferences preferences
  <-> ~ (exists q, P.confidence preferences = Some q /\ (q < 0)%Q).
Proof.
  split.
  - intros H Hneg. apply confidence_zero in Hneg.
    apply (f_equal P.confidence) in H.
    unfold P.validatePreferences in H. cbn [P.confidence] in H.
    inversion H as [H1]. clear H.
    revert H1 Hneg.
    generalize (P.Math_max 0 (P.Math_min 1 (P.orQ (P.confidence preferences) (4 # 5)))).
    intros b Hb H0. unfold P.orQ in Hb.
    rewrite (Qeq_eq_bool _ _ H0) in Hb.
    assert (Hc : P.Math_max 0 (P.Math_min 1 (4 # 5)) = (4 # 5)%Q) by reflexivity.
    rewrite Hc in Hb. subst b. revert H0. vm_compute. discriminate.
  - intros Hneg. unfold P.validatePreferences.
    cbn [P.budget P.maxTravelTime P.preferredActivities P.groupSize P.confidence
         P.transportMode P.hasChildren P.accessibilityNeeds P.extractedKeywords
         P.orEmpty].
    rewrite !clamp_fixed, filter_idempotent; try lra;
      try (apply clamp_positive; lra).
    + f_equal. destruct (P.transportMode preferences) as [t|]; [|reflexivity].
      destruct (P.Array_includes P.validTransport t) eqn:E; [now rewrite E|reflexivity].
    + intros H0. apply Hneg. now apply confidence_zero.
Qed.

(** ** [getFallbackPreferences] *)

Lemma pushIf_valid (text : str) (words : list string) (c : string) :
  In (js c) P.validCategories ->
  Forall (fun x => In x P.validCategories) (P.pushIf text words c).
Proof.
  intros Hc. unfold P.pushIf.
  destruct (P.mentions text words); [constructor; [exact Hc|constructor]|constructor].
Qed.

Ltac in_list := vm_compute; repeat (first [left; reflexivity | right]).

Lemma getFallbackPreferences_valid (userText : str) :
  valid_but_budget (P.getFallbackPreferences userText).
Proof.
  unfold valid_but_budget, P.getFallbackPreferences.
  cbn [P.maxTravelTime P.preferredActivities P.groupSize P.confidence
       P.transportMode within all_in one_of].
  split; [split; unfold Qle; simpl; lia|].
  split.
  { repeat match goal with
           | |- context [P.mentions ?t ?w] => destruct (P.mentions t w)
           end; split; unfold Qle; simpl; lia. }
  split; [split; unfold Qle; simpl; lia|].
  split.
  - repeat (apply Forall_app; split); apply pushIf_valid; in_list.
  - repeat match goal with
           | |- context [P.mentions ?t ?w] => destruct (P.mentions t w)
           end; in_list.
Qed.

Lemma firstn_run_digits (s : str) : firstn (run is_digit s) s = digits_prefix s.
Proof.
  induction s as [|c s IH]; simpl; [reflexivity|].
  destruct (is_digit c); simpl; [now rewrite IH|reflexivity].
Qed.

Lemma digits_prefix_all (s : str) : all_digits (digits_prefix s).
Proof.
  induction s as [|c s IH]; simpl; [constructor|].
  destruct (is_digit c) eqn:E; constructor; auto.
Qed.

Lemma digits_prefix_nonempty (c : ascii) (s : str) :
  is_digit c = true -> digits_prefix (c :: s) <> [].
Proof. intros H. simpl. now rewrite H. Qed.

Lemma run_head (p : ascii -> bool) (c : ascii) (s : str) :
  (1 <=? run p (c :: s)) = p c.
Proof. simpl. now destruct (p c). Qed.

(** The capture group [(\d+)] at the head of a text. *)
Lemma group_digits (A : Type) (s : str) (k : str -> caps -> option A)
    (g : str -> caps -> A) :
  (forall s' cs, k s' cs = Some (g s' cs)) ->
  rmatch (RGroup (plus is_digit)) s [] k
  = if 1 <=? run is_digit s
    then Some (g (drop_run is_digit s) [digits_prefix s]) else None.
Proof.
  intros Hk. unfold plus. cbn [rmatch].
  rewrite (rep_match_greedy is_digit _
             (fun s' => g s' ([] ++ [firstn (List.length s - List.length s') s])))
    by (intros; apply Hk).
  now rewrite drop_run_length, firstn_run_digits.
Qed.

Lemma dollar_not_digit (c : ascii) : is_char "$"%char c = true -> is_digit c = false.
Proof. unfold is_char. intros H. apply Ascii.eqb_eq in H. now subst. Qed.

Lemma rmatch_seq (A : Type) (r1 r2 : regex) (s : str) (cs : caps)
    (k : str -> caps -> option A) :
  rmatch (RSeq r1 r2) s cs k = rmatch r1 s cs (fun s1 cs1 => rmatch r2 s1 cs1 k).
Proof. reflexivity. Qed.

Lemma rmatch_rep (A : Type) (lo : nat) (hi : option nat) (p : ascii -> bool)
    (s : str) (cs : caps) (k : str -> caps -> option A) :
  rmatch (RRep lo hi p) s cs k = rep_match p lo hi s (fun s' => k s' cs).
Proof. reflexivity. Qed.

Lemma amount_unfold :
  P.amount = RSeq (RRep 0 (Some 1) (is_char "$"%char)) (RGroup (plus is_digit)).
Proof. reflexivity. Qed.

(** A match of [/\$?(\d+)/] at the head of a text. *)
Lemma rmatch_amount (A : Type) (s : str) (k : str -> caps -> option A)
    (g : str -> caps -> A) :
  (forall s' cs, k s' cs = Some (g s' cs)) ->
  rmatch P.amount s [] k
  = match s with
    | c :: s' =>
        if is_char "$"%char c
        then if 1 <=? run is_digit s'
             then Some (g (drop_run is_digit s') [digits_prefix s']) else None
        else if is_digit c
             then Some (g (drop_run is_digit s) [digits_prefix s]) else None
    | [] => None
    end.
Proof.
  intros Hk. rewrite amount_unfold, rmatch_seq, rmatch_rep.
  destruct s as [|c s'].
  - cbn [rep_match]. now rewrite (@group_digits _ _ _ _ Hk).
  - cbn [rep_match may_repeat dec_hi option_map pred].
    destruct (is_char "$"%char c) eqn:Ec; cbn [andb].
    + assert (Hinner : rep_match (is_char "$"%char) 0 (Some 0) s'
                         (fun s1 => rmatch (RGroup (plus is_digit)) s1 [] k)
                       = rmatch (RGroup (plus is_digit)) s' [] k).
      { destruct s' as [|c' s'']; cbn [rep_match may_repeat]; [reflexivity|].
        now rewrite andb_false_r. }
      rewrite Hinner, !(@group_digits _ _ _ _ Hk), run_head, (@dollar_not_digit _ Ec).
      now destruct (1 <=? run is_digit s').
    + now rewrite (@group_digits _ _ _ _ Hk), run_head.
Qed.

Lemma match_first_amount (s : str) :
  option_map snd (match_first P.amount s) = option_map (fun ds => [ds]) (firstDigits s).
Proof.
  induction s as [|c s IH].
  - reflexivity.
  - cbn [match_first firstDigits]. unfold match_at.
    rewrite (@rmatch_amount _ (c :: s) _
               (fun s' cs => (List.length (c :: s) - List.length s', cs)))
      by reflexivity.
    destruct (is_char "$"%char c) eqn:Ec.
    + rewrite (@dollar_not_digit _ Ec).
      destruct s as [|d s']; [reflexivity|].
      rewrite run_head. destruct (is_digit d) eqn:Ed.
      * cbn [option_map snd firstDigits]. now rewrite Ed.
      * exact IH.
    + destruct (is_digit c); [reflexivity|exact IH].
Qed.

Lemma firstDigits_spec (s : str) (ds : str) :
  firstDigits s = Some ds -> ds <> [] /\ all_digits ds.
Proof.
  induction s as [|c s IH]; simpl; [discriminate|].
  destruct (is_digit c) eqn:E; [|exact IH].
  intros H; inversion H; subst; clear H. split.
  - discriminate.
  - constructor; [exact E|apply digits_prefix_all].
Qed.

Lemma firstDigits_some (pre : str) (c : ascii) (rest : str) :
  is_digit c = true -> firstDigits (pre ++ c :: rest) <> None.
Proof.
  intros Hc. induction pre as [|x pre IH]; simpl.
  - now rewrite Hc.
  - destruct (is_digit x); [discriminate|exact IH].
Qed.

Lemma match_first_suffix (r : regex) (s : str) (x : str * caps) :
  match_first r s = Some x ->
  exists pre suf, s = pre ++ suf /\ match_at r suf <> None.
Proof.
  induction s as [|c s IH]; cbn [match_first].
  - destruct (match_at r []) eqn:E; [|discriminate].
    intros _. exists [], []. split; [reflexivity|congruence].
  - destruct (match_at r (c :: s)) as [[n cs]|] eqn:E.
    + intros _. exists [], (c :: s). split; [reflexivity|congruence].
    + intros H. destruct (IH H) as [pre [suf [-> Hm]]].
      now exists (c :: pre), suf.
Qed.

Lemma rep_match_at_least_one (A : Type) (p : ascii -> bool) (lo : nat)
    (hi : option nat) (s : str) (k : str -> option A) :
  rep_match p (S lo) hi s k <> None -> exists c s', s = c :: s' /\ p c = true.
Proof.
  destruct s as [|c s']; cbn [rep_match]; [congruence|].
  destruct (p c) eqn:E; [eauto|]. cbn [andb]. congruence.
Qed.

(** A text in which an amount is recognised has a digit. *)
Lemma amount_has_digits (text : str) :
  P.test P.dollar_amount text || P.test P.hk_amount text = true ->
  firstDigits text <> None.
Proof.
  intros H. apply orb_prop in H. unfold P.test in H.
  destruct H as [H|H].
  - destruct (match_first P.dollar_amount text) as [x|] eqn:E; [|discriminate].
    destruct (@match_first_suffix _ _ _ E) as [pre [suf [-> Hm]]].
    unfold match_at, P.dollar_amount, plus in Hm. cbn [seq rmatch] in Hm.
    unfold lit in Hm. destruct suf as [|c suf]; [now vm_compute in Hm|].
    change (js "$") with ["$"%char] in Hm. cbn [rmatch lit_match] in Hm.
    destruct (Ascii.eqb "$" c); [|congruence].
    apply rep_match_at_least_one in Hm as [d [s' [-> Hd]]].
    replace (pre ++ c :: d :: s') with ((pre ++ [c]) ++ d :: s')
      by (now rewrite <- app_assoc).
    now apply firstDigits_some.
  - destruct (match_first P.hk_amount text) as [x|] eqn:E; [|discriminate].
    destruct (@match_first_suffix _ _ _ E) as [pre [suf [-> Hm]]].
    unfold match_at, P.hk_amount, plus in Hm. cbn [seq rmatch] in Hm.
    apply rep_match_at_least_one in Hm as [d [s' [-> Hd]]].
    now apply firstDigits_some.
Qed.

(** X13.  When the keyword analysis recognises an amount in the request
    (a dollar sign before digits, or digits before [hk]), the budget it
    returns is the first number written in the request, whether or not
    that number is the amount. *)
Theorem keyword_budget_is_the_first_number (userText : str) :
  P.test P.dollar_amount (toLowerCase userText)
  || P.test P.hk_amount (toLowerCase userText) = true ->
  exists n, firstNumber (toLowerCase userText) = Some n
            /\ P.budget (P.getFallbackPreferences userText) = Some (inject_Z n).
Proof.
  set (text := toLowerCase userText). intros Htest. pose proof (@amount_has_digits _ Htest) as Hsome.
  destruct (firstDigits text) as [ds|] eqn:Hds; [|congruence].
  exists (digits_value ds). unfold firstNumber. rewrite Hds. split; [reflexivity|].
  unfold P.getFallbackPreferences. cbn [P.budget]. fold text. rewrite Htest.
  pose proof (match_first_amount text) as Hm. rewrite Hds in Hm.
  destruct (match_first P.amount text) as [[whole cs]|]; [|discriminate].
  cbn in Hm. inversion Hm; subst cs.
  destruct (@firstDigits_spec _ _ Hds) as [Hne Hall].
  now rewrite (parseInt_digits Hne Hall).
Qed.

Lemma keyword_budget_is_the_first_number_witness :
  exists n, firstNumber (toLowerCase Cases.twoNights) = Some n
            /\ P.budget (P.getFallbackPreferences Cases.twoNights) = Some (inject_Z n).
Proof.
  apply (@keyword_budget_is_the_first_number Cases.twoNights).
  vm_compute. reflexivity.
Defined.

(** ** [analyzeUserText] *)

(** X14.  Whether or not the generator can be reached, and for every
    answer of it that [JSON.parse] rejects or turns into an object whose
    fields, where present, are of the types of the schema, the
    preferences that [analyzeUserText] returns are within the ranges of
    the service, the budget apart; the budget is within 100 to 10000
    unless the keyword analysis produced the result; and a generator
    that is not available is not asked. *)
Theorem analysed_preferences_are_in_range
    (JSON_parse : str -> option P.Preferences) (generator : str -> option str)
    (isAvailable : bool) (userText : str) :
  valid_but_budget (fst (P.analyzeUserText JSON_parse generator isAvailable userText))
  /\ (valid (fst (P.analyzeUserText JSON_parse generator isAvailable userText))
      \/ fst (P.analyzeUserText JSON_parse generator isAvailable userText)
         = P.getFallbackPreferences userText)
  /\ (isAvailable = false ->
      P.analyzeUserText JSON_parse generator isAvailable userText
      = (P.getFallbackPreferences userText, [])).
Proof.
  unfold P.analyzeUserText. destruct isAvailable; cbn [negb].
  - split; [|split; [|discriminate]].
    + destruct (generator userText) as [aiResponse|];
        [|apply getFallbackPreferences_valid].
      destruct (match_first brace_span aiResponse) as [[jsonStr cs]|];
        [|apply getFallbackPreferences_valid].
      destruct (JSON_parse jsonStr) as [p|]; [|apply getFallbackPreferences_valid].
      apply validatePreferences_valid.
    + destruct (generator userText) as [aiResponse|]; [|now right].
      destruct (match_first brace_span aiResponse) as [[jsonStr cs]|]; [|now right].
      destruct (JSON_parse jsonStr) as [p|]; [|now right].
      left. apply validatePreferences_valid.
  - split; [apply getFallbackPreferences_valid|]. split; [now right|reflexivity].
Qed.

(** ** The preferences and the weather notes of the rule-based plan *)

Lemma guessActivities_valid (text : str) :
  P.guessActivitiesFromText text <> []
  /\ Forall (fun c => In c P.validCategories) (P.guessActivitiesFromText text).
Proof.
  unfold P.guessActivitiesFromText.
  set (activities := _ ++ _).
  assert (Hall : Forall (fun c => In c P.validCategories) activities).
  { subst activities. repeat (apply Forall_app; split); apply pushIf_valid; in_list. }
  destruct activities as [|a rest]; [|split; [discriminate|exact Hall]].
  split; [discriminate|]. constructor; [in_list|constructor].
Qed.

Lemma getRecommendedTransportMode_valid (realTimeData : option RealTimeData) :
  In (P.getRecommendedTransportMode realTimeData) P.validTransport.
Proof.
  unfold P.getRecommendedTransportMode.
  destruct realTimeData as [rtd|]; [|in_list].
  destruct (weather rtd) as [w|]; [|in_list].
  destruct (_ || _); [in_list|]. destruct (gtQ _ _); in_list.
Qed.

(** X15.  The preferences reported with a rule-based trip plan always
    name at least one activity, every activity is one of the eight
    categories, and the transport mode is one of the four modes. *)
Theorem fallback_plan_reports_valid_preferences (userText : str)
    (realTimeData : option RealTimeData) :
  P.preferredActivities (P.fallbackExtractedPreferences userText realTimeData) <> Some []
  /\ all_in P.validCategories
            (P.preferredActivities (P.fallbackExtractedPreferences userText realTimeData))
  /\ one_of P.validTransport
            (P.transportMode (P.fallbackExtractedPreferences userText realTimeData)).
Proof.
  unfold P.fallbackExtractedPreferences. cbn [P.preferredActivities P.transportMode].
  destruct (guessActivities_valid (toLowerCase userText)) as [Hne Hall].
  split; [congruence|]. split; [exact Hall|apply getRecommendedTransportMode_valid].
Qed.

Lemma includes_nil (p : str) : p <> [] -> includes [] p = false.
Proof. destruct p; [contradiction|reflexivity]. Qed.

(** What the transport rule reads of the weather text, the selection
    rule reads too. *)
Lemma weatherText_conditionText (w : Weather) (word : str) :
  word <> [] -> includes (P.weatherText w) word = true ->
  includes (conditionText w) word = true.
Proof.
  intros Hword. unfold P.weatherText, conditionText.
  destruct (truthy_str (weatherCondition w)); [auto|].
  destruct (truthy_str (condition w)); [auto|].
  now rewrite (includes_nil Hword).
Qed.

(** X16.  Whenever the weather preference that the rule-based plan
    computes is [any], the transport mode that
    [getRecommendedTransportMode] recommends is [mixed]. *)
Theorem unrestricted_weather_means_mixed_transport (realTimeData : option RealTimeData) :
  weatherPreferenceOf realTimeData = AnyWeather ->
  P.getRecommendedTransportMode realTimeData = js "mixed".
Proof.
  unfold weatherPreferenceOf, P.getRecommendedTransportMode.
  destruct realTimeData as [rtd|]; [|reflexivity].
  destruct (weather rtd) as [w|]; [|reflexivity].
  destruct (includes (P.weatherText w) (js "rain")) eqn:Erain.
  { rewrite (@weatherText_conditionText w (js "rain")) by (discriminate || exact Erain).
    discriminate. }
  destruct (includes (P.weatherText w) (js "storm")) eqn:Estorm.
  { rewrite (@weatherText_conditionText w (js "storm")) by (discriminate || exact Estorm).
    rewrite orb_true_r. discriminate. }
  destruct (hasAlerts rtd); [rewrite !orb_true_r; discriminate|].
  cbn [orb]. destruct (_ || _ || _ || false); [discriminate|].
  destruct (gtQ (temperature w) 30) eqn:E30; [discriminate|].
  cbn [orb]. destruct (gtQ (uvIndex w) 8); [discriminate|].
  destruct (ltQ (airQuality w) 50); [discriminate|]. intros _.
  assert (E32 : gtQ (temperature w) 32 = false).
  { unfold gtQ in *. destruct (temperature w) as [q|]; [|reflexivity].
    apply negb_false_iff in E30. apply Qle_bool_iff in E30.
    apply negb_false_iff. apply Qle_bool_iff.
    eapply Qle_trans; [exact E30|]. unfold Qle; simpl; lia. }
  now rewrite E32.
Qed.

Lemma unrestricted_weather_means_mixed_transport_witness :
  P.getRecommendedTransportMode (Some Sample.clearWeather) = js "mixed".
Proof.
  apply (@unrestricted_weather_means_mixed_transport (Some Sample.clearWeather)).
  vm_compute. reflexivity.
Defined.

Lemma storm_is_indoor (rtd : RealTimeData) (w : Weather) :
  weather rtd = Some w ->
  includes (P.weatherText w) (js "storm") = true ->
  weatherPreferenceOf (Some rtd) = Indoor
  /\ P.getRecommendedTransportMode (Some rtd) = js "public_transport".
Proof.
  intros Hw Hstorm. unfold weatherPreferenceOf, P.getRecommendedTransportMode.
  rewrite Hw, Hstorm.
  rewrite (@weatherText_conditionText w (js "storm")) by (discriminate || exact Hstorm).
  now rewrite !orb_true_r.
Qed.

(** X17.  In a storm that the weather text does not call rain, on an
    otherwise mild day without alerts, the weather preference that the
    rule-based plan computes is [indoor] and the transport mode it
    recommends is public transport, and yet its weather note reads:
    good conditions for outdoor activities. *)
Theorem storm_is_reported_as_good_conditions (rtd : RealTimeData) (w : Weather) :
  weather rtd = Some w ->
  includes (P.weatherText w) (js "storm") = true ->
  includes (P.weatherText w) (js "rain") = false ->
  mild w -> hasAlerts rtd = false ->
  weatherPreferenceOf (Some rtd) = Indoor
  /\ P.getRecommendedTransportMode (Some rtd) = js "public_transport"
  /\ P.getWeatherRecommendation (Some rtd) = P.goodConditions.
Proof.
  intros Hw Hstorm Hrain [Ht [Hu Ha]] Halerts.
  destruct (storm_is_indoor rtd Hw Hstorm) as [Hp Hm].
  split; [exact Hp|]. split; [exact Hm|].
  unfold P.getWeatherRecommendation. rewrite Hw, Hrain, Ht, Hu, Ha.
  unfold hasAlerts in Halerts. unfold P.orEmpty.
  destruct (alerts rtd) as [[|a l]|]; try discriminate; reflexivity.
Qed.

Lemma storm_is_reported_as_good_conditions_witness :
  weatherPreferenceOf (Some Cases.stormyDay) = Indoor
  /\ P.getRecommendedTransportMode (Some Cases.stormyDay) = js "public_transport"
  /\ P.getWeatherRecommendation (Some Cases.stormyDay) = P.goodConditions.
Proof.
  apply (@storm_is_reported_as_good_conditions Cases.stormyDay Cases.thunderstorm).
  - reflexivity.
  - vm_compute. reflexivity.
  - vm_compute. reflexivity.
  - vm_compute. repeat split.
  - reflexivity.
Defined.

(** ** [processRecommendations] *)

Lemma find_app (A : Type) (f : A -> bool) (l1 l2 : list A) :
  find f (l1 ++ l2) = match find f l1 with
                      | Some x => Some x
                      | None => find f l2
                      end.
Proof.
  induction l1 as [|a l1 IH]; simpl; [reflexivity|]. now destruct (f a).
Qed.

Lemma Map_get_set (V : Type) (m : JsArray.Map V) (k : str) (v : V) (k' : str) :
  JsArray.Map_get (JsArray.Map_set m k v) (Some k')
  = if str_eqb k k' then Some v else JsArray.Map_get m (Some k').
Proof.
  unfold JsArray.Map_get. induction m as [|[k0 v0] m IH]; cbn [JsArray.Map_set].
  - cbn [find fst]. now destruct (str_eqb k k').
  - destruct (str_eqb k0 k) eqn:E0.
    + apply str_eqb_eq in E0. subst k0. cbn [find fst].
      now destruct (str_eqb k k').
    + cbn [find fst]. destruct (str_eqb k0 k') eqn:E1.
      * apply str_eqb_eq in E1. subst k0.
        assert (E2 : str_eqb k k' = false).
        { apply str_eqb_neq. apply str_eqb_neq in E0. congruence. }
        now rewrite E2.
      * exact IH.
Qed.

Lemma Map_get_fold (V : Type) (pairs : list (str * V)) (k : str) :
  forall m : JsArray.Map V,
    JsArray.Map_get
      (fold_left (fun m kv => JsArray.Map_set m (fst kv) (snd kv)) pairs m) (Some k)
    = match find (fun kv => str_eqb (fst kv) k) (rev pairs) with
      | Some kv => Some (snd kv)
      | None => JsArray.Map_get m (Some k)
      end.
Proof.
  induction pairs as [|p pairs IH]; intros m; [reflexivity|].
  cbn [fold_left rev]. rewrite IH, find_app.
  destruct (find _ (rev pairs)); [reflexivity|].
  rewrite Map_get_set. cbn [find]. now destruct (str_eqb (fst p) k).
Qed.

(** A key of a new map leads to the last of the pairs with that key. *)
Lemma Map_get_new (V : Type) (pairs : list (str * V)) (k : str) :
  JsArray.Map_get (JsArray.Map_new pairs) (Some k)
  = option_map snd (find (fun kv => str_eqb (fst kv) k) (rev pairs)).
Proof.
  unfold JsArray.Map_new. rewrite Map_get_fold.
  now destruct (find _ (rev pairs)).
Qed.

Lemma find_map (A B : Type) (f : B -> bool) (g : A -> B) (l : list A) :
  find f (map g l) = option_map g (find (fun x => f (g x)) l).
Proof.
  induction l as [|a l IH]; simpl; [reflexivity|]. now destruct (f (g a)).
Qed.

(** The catalog map of [processRecommendations] leads to the last entry
    with the identifier asked for. *)
Lemma attractionMap_get (catalog : list R.Entry) (k : str) :
  JsArray.Map_get
    (JsArray.Map_new (map (fun a => (id (R.attraction a), a)) catalog)) (Some k)
  = find (fun a => str_eqb (id (R.attraction a)) k) (rev catalog).
Proof.
  rewrite Map_get_new, <- map_rev, find_map. cbn [fst].
  now destruct (find _ (rev catalog)).
Qed.

Lemma attractionMap_In (catalog : list R.Entry) (key : option str) (a : R.Entry) :
  JsArray.Map_get
    (JsArray.Map_new (map (fun a => (id (R.attraction a), a)) catalog)) key = Some a ->
  In a catalog /\ key = Some (id (R.attraction a)).
Proof.
  destruct key as [k|]; [|discriminate]. rewrite attractionMap_get.
  intros H. apply find_some in H as [Hin Hk]. apply str_eqb_eq in Hk.
  split; [now apply in_rev|congruence].
Qed.

Lemma byScore_total (a b : R.Recommended) :
  R.score (R.aiRecommendation a) <> None -> R.score (R.aiRecommendation b) <> None ->
  R.byScore a b = true \/ R.byScore b a = true.
Proof.
  unfold R.byScore.
  destruct (R.score (R.aiRecommendation a)) as [x|]; [|congruence].
  destruct (R.score (R.aiRecommendation b)) as [y|]; [|congruence].
  intros _ _. rewrite !Qle_bool_iff.
  destruct (Qlt_le_dec x y); [right; lra|left; lra].
Qed.

Lemma byScore_trans (a b c : R.Recommended) :
  R.score (R.aiRecommendation a) <> None -> R.score (R.aiRecommendation b) <> None ->
  R.score (R.aiRecommendation c) <> None ->
  R.byScore a b = true -> R.byScore b c = true -> R.byScore a c = true.
Proof.
  unfold R.byScore.
  destruct (R.score (R.aiRecommendation a)) as [x|]; [|congruence].
  destruct (R.score (R.aiRecommendation b)) as [y|]; [|congruence].
  destruct (R.score (R.aiRecommendation c)) as [z|]; [|congruence].
  intros _ _ _. rewrite !Qle_bool_iff. lra.
Qed.

Lemma byScore_falling (a b : R.Recommended) :
  R.score (R.aiRecommendation a) <> None -> R.score (R.aiRecommendation b) <> None ->
  R.byScore a b = true -> falling a b.
Proof.
  unfold R.byScore, falling.
  destruct (R.score (R.aiRecommendation a)) as [x|]; [|congruence].
  destruct (R.score (R.aiRecommendation b)) as [y|]; [|congruence].
  intros _ _. now rewrite Qle_bool_iff.
Qed.

Lemma flat_map_length_le (A B : Type) (f : A -> list B) (l : list A) :
  (forall x, List.length (f x) <= 1) -> List.length (flat_map f l) <= List.length l.
Proof.
  intros Hf. induction l as [|a l IH]; simpl; [lia|].
  rewrite length_app. specialize (Hf a). lia.
Qed.

Lemma processRecommendations_spec (recommendations : list R.Recommendation)
    (catalog : list R.Entry) :
  Forall (fun r =>
            In (R.entry r) catalog
            /\ exists rec, In rec recommendations
                           /\ R.attractionId rec = Some (id (R.attraction (R.entry r)))
                           /\ R.score (R.aiRecommendation r) = R.recommendationScore rec)
         (R.processRecommendations recommendations catalog)
  /\ List.length (R.processRecommendations recommendations catalog)
     <= List.length recommendations.
Proof.
  unfold R.processRecommendations.
  set (m := JsArray.Map_new _). set (kept := filter _ recommendations).
  set (f := fun rec : R.Recommendation => match JsArray.Map_get m (R.attractionId rec) with
                                          | Some a => _
                                          | None => []
                                          end).
  pose proof (sort_permutation R.byScore (flat_map f kept)) as Hperm.
  split.
  - apply Forall_forall. intros r Hr. apply (Permutation_in _ Hperm) in Hr.
    apply in_flat_map in Hr as [rec [Hrec Hr]]. subst f. cbn beta in Hr.
    destruct (JsArray.Map_get m (R.attractionId rec)) as [a|] eqn:Ea; [|contradiction].
    destruct Hr as [<-|[]]. cbn [R.entry R.aiRecommendation R.score].
    apply attractionMap_In in Ea as [Hin Hid]. split; [exact Hin|].
    exists rec. subst kept. apply filter_In in Hrec as [Hrec _]. now repeat split.
  - rewrite (Permutation_length Hperm).
    transitivity (List.length kept).
    + apply flat_map_length_le. intros rec. subst f. cbn beta.
      destruct (JsArray.Map_get m (R.attractionId rec)); simpl; lia.
    + subst kept. apply filter_length_le.
Qed.

(** X18.  Every recommendation that [processRecommendations] returns is
    an entry of the catalog and answers an element of the generator's
    list with that entry's identifier, whose score it carries (a number,
    or none when the element has none); the list is no longer than the
    generator's; and when every element of the generator's list has a
    number as its score, the list is in order of falling score. *)
Theorem recommendations_come_from_the_catalog (recommendations : list R.Recommendation)
    (catalog : list R.Entry) :
  Forall (fun r =>
            In (R.entry r) catalog
            /\ exists rec, In rec recommendations
                           /\ R.attractionId rec = Some (id (R.attraction (R.entry r)))
                           /\ R.score (R.aiRecommendation r) = R.recommendationScore rec)
         (R.processRecommendations recommendations catalog)
  /\ List.length (R.processRecommendations recommendations catalog)
     <= List.length recommendations
  /\ (Forall has_score recommendations ->
      Sorted.StronglySorted falling (R.processRecommendations recommendations catalog)).
Proof.
  destruct (processRecommendations_spec recommendations catalog) as [Hall Hlen].
  split; [exact Hall|]. split; [exact Hlen|].
  intros Hscores.
  assert (HP : Forall (fun r => R.score (R.aiRecommendation r) <> None)
                      (R.processRecommendations recommendations catalog)).
  { eapply Forall_impl; [|exact Hall]. intros r [_ [rec [Hrec [_ ->]]]].
    rewrite Forall_forall in Hscores. now apply Hscores. }
  assert (Hs : Sorted.StronglySorted (fun a b => R.byScore a b = true)
                 (R.processRecommendations recommendations catalog)).
  { unfold R.processRecommendations in *.
    apply (@sort_ordered_on _ R.byScore
             (fun r => R.score (R.aiRecommendation r) <> None)).
    - apply byScore_total.
    - apply byScore_trans.
    - apply (Permutation_Forall (sort_permutation R.byScore _)). exact HP. }
  revert HP Hs. generalize (R.processRecommendations recommendations catalog).
  intros l HP Hl. induction Hl as [|a l Hl IH Ha]; [constructor|].
  inversion HP as [|? ? Pa Pl]; subst.
  constructor; [now apply IH|].
  rewrite Forall_forall in Ha, Pl. apply Forall_forall. intros b Hb.
  apply byScore_falling; auto.
Qed.

Lemma find_skip (A : Type) (f : A -> bool) (l1 l2 : list A) (x : A) :
  Forall (fun y => f y = false) l1 -> f x = true -> find f (l1 ++ x :: l2) = Some x.
Proof.
  intros Hl1 Hx. rewrite find_app, (find_none_intro f l1).
  - simpl. now rewrite Hx.
  - now apply Forall_forall.
Qed.

(** X19.  When two entries of a catalog share an identifier, a
    recommendation of that identifier is resolved to the last of them,
    whereas the scheduler of [processDirectTripPlan] resolves the same
    identifier to the first. *)
Theorem shared_identifier_resolves_differently
    (before between after : list R.Entry) (first last : R.Entry) (i : str)
    (rec : R.Recommendation) :
  id (R.attraction first) = i -> id (R.attraction last) = i ->
  Forall (fun a => id (R.attraction a) <> i) before ->
  Forall (fun a => id (R.attraction a) <> i) after ->
  R.attractionId rec = Some i ->
  map R.entry
      (R.processRecommendations [rec] (before ++ first :: between ++ last :: after))
  = [last]
  /\ resolveAttraction
       (map R.attraction (before ++ first :: between ++ last :: after)) (Some i)
     = Some (R.attraction first).
Proof.
  intros Hfirst Hlast Hbefore Hafter Hrec. split.
  - unfold R.processRecommendations. cbn [filter]. unfold JsArray.Map_has.
    rewrite Hrec, attractionMap_get.
    assert (Hfind : find (fun a => str_eqb (id (R.attraction a)) i)
                         (rev (before ++ first :: between ++ last :: after))
                    = Some last).
    { replace (before ++ first :: between ++ last :: after)
        with ((before ++ first :: between) ++ last :: after)
        by (now rewrite <- app_assoc).
      rewrite rev_app_distr. cbn [rev]. rewrite <- app_assoc. cbn [app].
      apply find_skip.
      - apply Forall_forall. intros y Hy. apply in_rev in Hy.
        rewrite Forall_forall in Hafter. apply str_eqb_neq. now apply Hafter.
      - apply str_eqb_eq. exact Hlast. }
    rewrite Hfind. cbn [flat_map app]. rewrite Hrec, attractionMap_get, Hfind.
    reflexivity.
  - unfold resolveAttraction, findAttraction. rewrite map_app. cbn [map].
    rewrite (@find_skip _ (has_id (Some i)) (map R.attraction before)
               (map R.attraction (between ++ last :: after)) (R.attraction first)).
    + reflexivity.
    + apply Forall_forall. intros y Hy. apply in_map_iff in Hy as [a [<- Ha]].
      rewrite Forall_forall in Hbefore. cbn [has_id]. apply str_eqb_neq.
      now apply Hbefore.
    + cbn [has_id]. apply str_eqb_eq. exact Hfirst.
Qed.

Lemma shared_identifier_resolves_differently_witness :
  map R.entry (R.processRecommendations [Cases.recommendX] Cases.sharedEntries)
  = [ {| R.attraction := Sample.site "x" "Lion Rock" "nature" "free" 60;
         R.wheelchairAccessible := true |} ]
  /\ resolveAttraction (map R.attraction Cases.sharedEntries) (Some (js "x"))
     = Some (Sample.site "x" "Man Mo Hall" "cultural" "low" 120).
Proof.
  apply (@shared_identifier_resolves_differently
           []
           [ {| R.attraction := Sample.site "x" "Dragon Back Trail" "nature" "free" 180;
                R.wheelchairAccessible := true |} ]
           []
           {| R.attraction := Sample.site "x" "Man Mo Hall" "cultural" "low" 120;
              R.wheelchairAccessible := true |}
           {| R.attraction := Sample.site "x" "Lion Rock" "nature" "free" 60;
              R.wheelchairAccessible := true |}
           (js "x") Cases.recommendX).
  - reflexivity.
  - reflexivity.
  - constructor.
  - constructor.
  - reflexivity.
Defined.

(** ** [getFallbackRecommendations] *)

Lemma filter_throwing_some (A : Type) (keep : A -> option bool) (f : A -> bool)
    (l : list A) :
  (forall x, In x l -> keep x = Some (f x)) ->
  JsArray.filter_throwing keep l = Some (filter f l).
Proof.
  induction l as [|a l IH]; intros H; simpl; [reflexivity|].
  rewrite (H a (or_introl eq_refl)), IH by (intros x Hx; apply H; now right).
  reflexivity.
Qed.

Lemma filter_throwing_none (A : Type) (keep : A -> option bool) (l : list A) :
  Exists (fun x => keep x = None) l -> JsArray.filter_throwing keep l = None.
Proof.
  induction 1 as [a l Ha|a l _ IH]; simpl.
  - now rewrite Ha.
  - rewrite IH. now destruct (keep a).
Qed.

(** The condition of the filter as a boolean, for preferences that list
    their activities. *)
Lemma passes_meets (p : P.Preferences) (acts : list str) (a : R.Entry) :
  P.preferredActivities p = Some acts ->
  exists b, R.passes p a = Some b /\ (b = true <-> meets p acts a).
Proof.
  intros Hacts. unfold R.passes, meets. rewrite Hacts.
  destruct (R.overBudget _ _).
  { exists false. split; [reflexivity|]. split; [discriminate|]. now intros [H _]. }
  destruct acts as [|c acts'].
  - cbn [List.length Nat.ltb Nat.leb andb].
    destruct (P.accessibilityNeeds p); cbn [andb].
    + destruct (R.wheelchairAccessible a); cbn [negb].
      * exists true. repeat split; auto.
      * exists false. split; [reflexivity|]. split; [discriminate|].
        intros [_ [_ H]]. now apply H.
    + exists true. repeat split; auto. discriminate.
  - assert (Hlen : (0 <? List.length (c :: acts')) = true) by reflexivity.
    rewrite Hlen. cbn [andb].
    destruct (P.Array_includes (c :: acts') (category (R.attraction a))) eqn:Einc;
      cbn [negb].
    + apply Array_includes_In in Einc.
      destruct (P.accessibilityNeeds p); cbn [andb].
      * destruct (R.wheelchairAccessible a); cbn [negb].
        -- exists true. repeat split; auto.
        -- exists false. split; [reflexivity|]. split; [discriminate|].
           intros [_ [_ H]]. now apply H.
      * exists true. repeat split; auto. discriminate.
    + exists false. split; [reflexivity|]. split; [discriminate|].
      intros [_ [[H|H] _]]; [discriminate|].
      apply Array_includes_In in H. congruence.
Qed.

Lemma scored_entries (l : list R.Entry) : forall index, map R.entry (R.scored index l) = l.
Proof. induction l as [|a l IH]; intros index; simpl; [reflexivity|]. now rewrite IH. Qed.

(** X20.  For preferences that list their activities, the rule-based
    recommendations are at most six entries of the catalog, each within
    the budget, of a preferred category when any is named and
    accessible when that is needed; and fewer than six are returned
    only when no other entry meets these conditions. *)
Theorem rule_based_recommendations_meet_the_preferences (p : P.Preferences)
    (acts : list str) (catalog : list R.Entry) :
  P.preferredActivities p = Some acts ->
  exists out,
    R.getFallbackRecommendations p catalog = Some out
    /\ List.length out <= 6
    /\ Forall (fun r => In (R.entry r) catalog /\ meets p acts (R.entry r)) out
    /\ (List.length out < 6 ->
        forall a, In a catalog -> meets p acts a -> In a (map R.entry out)).
Proof.
  intros Hacts. unfold R.getFallbackRecommendations.
  set (f := fun a => match R.passes p a with Some b => b | None => false end).
  assert (Hf : forall a, R.passes p a = Some (f a) /\ (f a = true <-> meets p acts a)).
  { intros a. destruct (@passes_meets p acts a Hacts) as [b [Hb Hm]]. subst f. cbn beta.
    rewrite Hb. now split. }
  rewrite (@filter_throwing_some _ (R.passes p) f catalog) by (intros x _; apply Hf).
  eexists. split; [reflexivity|].
  assert (Hentries : map R.entry (R.scored 0 (firstn 6 (filter f catalog)))
                     = firstn 6 (filter f catalog)) by apply scored_entries.
  assert (Hlen : List.length (R.scored 0 (firstn 6 (filter f catalog)))
                 = List.length (firstn 6 (filter f catalog))).
  { now rewrite <- Hentries at 2; rewrite length_map. }
  split; [rewrite Hlen; apply firstn_le_length|]. split.
  - apply Forall_forall. intros r Hr.
    assert (Hin : In (R.entry r) (firstn 6 (filter f catalog))).
    { rewrite <- Hentries. now apply in_map. }
    apply firstn_incl in Hin. apply filter_In in Hin as [Hin Hfa].
    split; [exact Hin|]. now apply Hf.
  - rewrite Hlen. intros Hlt a Hin Hmeets. rewrite Hentries.
    rewrite length_firstn in Hlt.
    rewrite firstn_all2 by lia. apply filter_In. split; [exact Hin|]. now apply Hf.
Qed.

Lemma rule_based_recommendations_meet_the_preferences_witness :
  exists out,
    R.getFallbackRecommendations Cases.foodLover Cases.threeEntries = Some out
    /\ List.length out <= 6
    /\ Forall (fun r => In (R.entry r) Cases.threeEntries
                        /\ meets Cases.foodLover [js "food"] (R.entry r)) out
    /\ (List.length out < 6 ->
        forall a, In a Cases.threeEntries -> meets Cases.foodLover [js "food"] a ->
                  In a (map R.entry out)).
Proof.
  apply (@rule_based_recommendations_meet_the_preferences
           Cases.foodLover [js "food"] Cases.threeEntries).
  reflexivity.
Defined.

Lemma getFallbackRecommendations_throws (p : P.Preferences) (catalog : list R.Entry) :
  P.preferredActivities p = None ->
  Exists (fun a => R.overBudget (getPriceEstimate (priceRange (R.attraction a)))
                                (P.budget p) = false) catalog ->
  R.getFallbackRecommendations p catalog = None.
Proof.
  intros Hacts Hex. unfold R.getFallbackRecommendations.
  rewrite filter_throwing_none; [reflexivity|].
  eapply Exists_impl; [|exact Hex]. intros a Ha. unfold R.passes. cbn beta.
  now rewrite Ha, Hacts.
Qed.

(** X21.  Preferences without a list of activities make the rule-based
    recommendation throw as soon as one catalog entry is within the
    budget; with the generator unavailable or failing, nothing catches
    it and [getPersonalizedRecommendations] is rejected. *)
Theorem missing_activities_reject_the_request
    (JSON_parse : str -> option (list R.Recommendation))
    (generator : P.Preferences -> list R.Entry -> option str)
    (isAvailable : bool) (p : P.Preferences) (catalog : list R.Entry) :
  P.preferredActivities p = None ->
  Exists (fun a => R.overBudget (getPriceEstimate (priceRange (R.attraction a)))
                                (P.budget p) = false) catalog ->
  isAvailable = false \/ generator p catalog = None ->
  R.getPersonalizedRecommendations JSON_parse generator isAvailable p catalog = None.
Proof.
  intros Hacts Hex Hgen. unfold R.getPersonalizedRecommendations.
  rewrite (@getFallbackRecommendations_throws _ _ Hacts Hex).
  destruct isAvailable; cbn [negb]; [|reflexivity].
  destruct Hgen as [Hgen|Hgen]; [discriminate|]. now rewrite Hgen.
Qed.

Lemma missing_activities_reject_the_request_witness :
  R.getPersonalizedRecommendations Cases.noRecommendations Cases.unreachable false
    Cases.budgetOnly Cases.threeEntries = None.
Proof.
  apply (@missing_activities_reject_the_request Cases.noRecommendations Cases.unreachable
           false Cases.budgetOnly Cases.threeEntries).
  - reflexivity.
  - apply Exists_cons_hd. vm_compute. reflexivity.
  - left. reflexivity.
Defined.

Lemma scored_In (p : P.Preferences) (catalog : list R.Entry) (out : list R.Recommended) :
  R.getFallbackRecommendations p catalog = Some out ->
  Forall (fun r => In (R.entry r) catalog) out.
Proof.
  unfold R.getFallbackRecommendations.
  destruct (JsArray.filter_throwing (R.passes p) catalog) as [kept|] eqn:E; [|discriminate].
  intros H; inversion H; subst; clear H.
  assert (Hkept : incl kept catalog).
  { clear -E. revert kept E. induction catalog as [|a l IH]; simpl; intros kept E.
    - inversion E; subst. intros x [].
    - destruct (R.passes p a) as [b|]; [|discriminate].
      destruct (JsArray.filter_throwing (R.passes p) l) as [kept'|]; [|discriminate].
      inversion E; subst. specialize (IH kept' eq_refl).
      destruct b; intros x Hx; [destruct Hx as [->|Hx]; [now left|right; auto]|right; auto]. }
  apply Forall_forall. intros r Hr. apply Hkept. apply (@firstn_incl _ 6).
  rewrite <- (scored_entries (firstn 6 kept) 0). now apply in_map.
Qed.

(** X22.  Whichever way [getPersonalizedRecommendations] produces its
    list (from the generator's answer, or by the rules when the
    generator is unavailable, fails or answers something unreadable),
    every recommendation is an entry of the catalog. *)
Theorem personalized_recommendations_come_from_the_catalog
    (JSON_parse : str -> option (list R.Recommendation))
    (generator : P.Preferences -> list R.Entry -> option str)
    (isAvailable : bool) (p : P.Preferences) (catalog : list R.Entry)
    (out : list R.Recommended) :
  R.getPersonalizedRecommendations JSON_parse generator isAvailable p catalog = Some out ->
  Forall (fun r => In (R.entry r) catalog) out.
Proof.
  unfold R.getPersonalizedRecommendations.
  destruct (negb isAvailable); [apply scored_In|].
  destruct (generator p catalog) as [aiResponse|]; [|apply scored_In].
  destruct (match_first R.bracket_span aiResponse) as [[jsonStr cs]|]; [|apply scored_In].
  destruct (JSON_parse jsonStr) as [recs|]; [|apply scored_In].
  intros H; inversion H; subst; clear H.
  destruct (processRecommendations_spec recs catalog) as [Hall _].
  eapply Forall_impl; [|exact Hall]. now intros r [Hr _].
Qed.

Lemma personalized_recommendations_come_from_the_catalog_witness :
  Forall (fun r => In (R.entry r) Cases.threeEntries) Cases.marketOnly.
Proof.
  apply (@personalized_recommendations_come_from_the_catalog
           Cases.noRecommendations Cases.unreachable false Cases.foodLover
           Cases.threeEntries Cases.marketOnly).
  vm_compute. reflexivity.
Defined.

(** ** The plan of [/trip-plan] *)

Lemma fold_visit_times (recs : list R.Recommended) (acc : Z) :
  fold_left (fun total r => (total + C.visitTimeOf r)%Z) recs acc
  = (acc + fold_right Z.add 0%Z (map C.visitTimeOf recs))%Z.
Proof.
  revert acc. induction recs as [|r recs IH]; intros acc; simpl; [lia|].
  rewrite IH. lia.
Qed.

Lemma fold_prices (recs : list R.Recommended) (acc : option Z) :
  fold_left (fun total r => add_cost total (C.priceOf r)) recs acc
  = match acc, sumOpt (map (fun r => costNumber (C.priceOf r)) recs) with
    | Some a, Some b => Some (a + b)%Z
    | _, _ => None
    end.
Proof.
  revert acc. induction recs as [|r recs IH]; intros acc; simpl.
  - destruct acc; [f_equal; lia|reflexivity].
  - rewrite IH. destruct acc as [a|]; simpl; [|reflexivity].
    destruct (C.priceOf r) as [n|m]; simpl; [|reflexivity].
    destruct (sumOpt _); [f_equal; lia|reflexivity].
Qed.

Lemma planRecommended_lengths (recs : list R.Recommended) :
  forall index,
    map (fun pl => (C.plannedEndTime pl - C.plannedStartTime pl)%Z)
        (C.planRecommended index recs)
    = map C.visitTimeOf recs.
Proof.
  induction recs as [|r recs IH]; intros index; simpl; [reflexivity|].
  rewrite IH. f_equal. lia.
Qed.

Lemma planRecommended_costs (recs : list R.Recommended) :
  forall index,
    map (fun pl => costNumber (C.estimatedCost pl)) (C.planRecommended index recs)
    = map (fun r => costNumber (C.priceOf r)) recs.
Proof.
  induction recs as [|r recs IH]; intros index; simpl; [reflexivity|]. now rewrite IH.
Qed.

(** X23.  In the plan of [/trip-plan] the totals are the sums of the
    per-visit values: the total time is the sum of the lengths of the
    visits and the total cost the sum of their cost estimates. *)
Theorem trip_plan_totals_are_sums (recommendations : list R.Recommended) :
  C.totalTime (C.tripPlanItinerary recommendations)
  = fold_right Z.add 0%Z
      (map (fun pl => (C.plannedEndTime pl - C.plannedStartTime pl)%Z)
           (C.attractions (C.tripPlanItinerary recommendations)))
  /\ C.totalCost (C.tripPlanItinerary recommendations)
     = sumOpt (map (fun pl => costNumber (C.estimatedCost pl))
                   (C.attractions (C.tripPlanItinerary recommendations))).
Proof.
  unfold C.tripPlanItinerary. cbn [C.totalTime C.totalCost C.attractions].
  rewrite fold_visit_times, fold_prices, planRecommended_lengths, planRecommended_costs.
  split; [lia|]. now destruct (sumOpt _).
Qed.

Lemma planRecommended_nth (recs : list R.Recommended) :
  forall index k pl,
    nth_error (C.planRecommended index recs) k = Some pl ->
    C.plannedStartTime pl = ((9 + Z.of_nat (index + k) * 2) * 60)%Z
    /\ C.plannedEndTime pl = (C.plannedStartTime pl + C.visitTimeOf (C.visited pl))%Z
    /\ C.priority pl = (Z.of_nat (index + k) + 1)%Z.
Proof.
  induction recs as [|r recs IH]; intros index k pl H; [now destruct k|].
  destruct k as [|k]; simpl in H.
  - inversion H; subst. simpl. rewrite Nat.add_0_r. repeat split.
  - apply IH in H. now replace (index + S k) with (S index + k) by lia.
Qed.

(** X24.  The visits of the [/trip-plan] plan start two hours apart
    whatever their length: a visit runs into the next one exactly when
    it takes more than 120 minutes. *)
Theorem trip_plan_visits_start_two_hours_apart (recommendations : list R.Recommended)
    (k : nat) (a b : C.Planned) :
  nth_error (C.attractions (C.tripPlanItinerary recommendations)) k = Some a ->
  nth_error (C.attractions (C.tripPlanItinerary recommendations)) (S k) = Some b ->
  C.plannedStartTime b = (C.plannedStartTime a + 120)%Z
  /\ ((C.plannedStartTime b < C.plannedEndTime a)%Z
      <-> (120 < C.visitTimeOf (C.visited a))%Z).
Proof.
  unfold C.tripPlanItinerary. cbn [C.attractions]. intros Ha Hb.
  apply planRecommended_nth in Ha as [Hsa [Hea _]].
  apply planRecommended_nth in Hb as [Hsb _].
  cbn [Nat.add] in Hsa, Hsb. split; lia.
Qed.

Lemma trip_plan_visits_start_two_hours_apart_witness :
  C.plannedStartTime Cases.marketVisit = (C.plannedStartTime Cases.trailVisit + 120)%Z
  /\ ((C.plannedStartTime Cases.marketVisit < C.plannedEndTime Cases.trailVisit)%Z
      <-> (120 < C.visitTimeOf (C.visited Cases.trailVisit))%Z).
Proof.
  apply (@trip_plan_visits_start_two_hours_apart Cases.trailThenMarket 0
           Cases.trailVisit Cases.marketVisit).
  - reflexivity.
  - reflexivity.
Defined.

(** ** More on the rule-based plan *)

Lemma ensureEnough_prefix (sel catalog : list Attraction) :
  sel <> [] -> exists extra, ensureEnough sel catalog = sel ++ extra.
Proof.
  intros Hne. unfold ensureEnough. destruct sel as [|s sel']; [contradiction|].
  destruct (_ <? 3); [eauto|]. exists []. now rewrite app_nil_r.
Qed.

Lemma In_nth_error_lt (A : Type) (l : list A) (x : A) :
  In x l -> exists i, i < List.length l /\ nth_error l i = Some x.
Proof.
  intros H. apply In_nth_error in H as [i Hi]. exists i. split; [|exact Hi].
  apply nth_error_Some. congruence.
Qed.

Lemma keywordSelection_twice (text : str) (w : WeatherPreference)
    (catalog : list Attraction) (a : Attraction) :
  wantsCulturalAndFood text = true ->
  In a (firstn 2 (filter (culturalFilter w) catalog)) ->
  In a (firstn 2 (filter foodFilter catalog)) ->
  forall extra, occurs_twice a (keywordSelection text w catalog ++ extra).
Proof.
  intros Hboth Hc Hf extra. unfold keywordSelection. rewrite Hboth.
  set (cultural := firstn 2 (filter (culturalFilter w) catalog)) in *.
  set (food := firstn 2 (filter foodFilter catalog)) in *.
  apply In_nth_error_lt in Hc as [i [Hi Hic]].
  apply In_nth_error_lt in Hf as [j [Hj Hjf]].
  exists i, (List.length cultural + j). split; [lia|]. split.
  - rewrite <- app_assoc. rewrite nth_error_app1 by exact Hi. exact Hic.
  - rewrite <- app_assoc. rewrite nth_error_app2 by lia.
    replace (List.length cultural + j - List.length cultural) with j by lia.
    rewrite nth_error_app1 by exact Hj. exact Hjf.
Qed.

(** X25.  For a request for culture and food, an attraction that is
    among the first two cultural matches and among the first two food
    matches is visited twice by the rule-based plan. *)
Theorem cultural_food_site_is_visited_twice (userText : str)
    (catalog : list Attraction) (realTimeData : option RealTimeData) (a : Attraction) :
  wantsCulturalAndFood (toLowerCase userText) = true ->
  In a (firstn 2 (filter (culturalFilter (weatherPreferenceOf realTimeData)) catalog)) ->
  In a (firstn 2 (filter foodFilter catalog)) ->
  occurs_twice a
    (map attraction
         (plannedAttractions (getDirectFallbackTripPlan userText catalog realTimeData))).
Proof.
  intros Hboth Hc Hf. rewrite fallback_attractions. unfold selectAttractions.
  destruct (@ensureEnough_prefix
              (keywordSelection (toLowerCase userText)
                                (weatherPreferenceOf realTimeData) catalog) catalog)
    as [extra Hextra].
  - unfold keywordSelection. rewrite Hboth. intros Hnil.
    apply app_eq_nil in Hnil as [Hnil _]. rewrite Hnil in Hc. contradiction.
  - rewrite Hextra. now apply keywordSelection_twice.
Qed.

Lemma cultural_food_site_is_visited_twice_witness :
  occurs_twice
    (C.builtIn "temple-street" "Temple Street Night Market" "food" "low" 150
               "Famous night market with street food and shopping")
    (map attraction
         (plannedAttractions
            (getDirectFallbackTripPlan Cases.cultureAndFood C.directPlanCatalog None))).
Proof.
  apply (@cultural_food_site_is_visited_twice Cases.cultureAndFood C.directPlanCatalog
           None).
  - vm_compute. reflexivity.
  - vm_compute. right. left. reflexivity.
  - vm_compute. left. reflexivity.
Defined.

Lemma keywordSelection_length (text : str) (w : WeatherPreference)
    (catalog : list Attraction) :
  List.length (keywordSelection text w catalog) <= 5.
Proof.
  unfold keywordSelection. destruct (wantsCulturalAndFood text).
  - rewrite length_app.
    pose proof (firstn_le_length 2 (filter (culturalFilter w) catalog)).
    pose proof (firstn_le_length 2 (filter foodFilter catalog)). lia.
  - apply firstn_le_length.
Qed.

Lemma ensureEnough_at_most (sel catalog : list Attraction) :
  List.length sel <= 5 -> List.length (ensureEnough sel catalog) <= 5.
Proof.
  intros H. unfold ensureEnough. destruct sel as [|s sel'].
  - pose proof (firstn_le_length 4 catalog). lia.
  - destruct (List.length (s :: sel') <? 3) eqn:E; [|exact H].
    apply Nat.ltb_lt in E. rewrite length_app.
    pose proof (firstn_le_length (4 - List.length (s :: sel'))
                  (filter (fun a => negb (already_selected (s :: sel') a)) catalog)).
    lia.
Qed.

(** X26.  A rule-based plan never has more than five visits. *)
Theorem fallback_plan_has_at_most_five_visits (userText : str)
    (catalog : list Attraction) (realTimeData : option RealTimeData) :
  List.length (plannedAttractions (getDirectFallbackTripPlan userText catalog realTimeData))
  <= 5.
Proof.
  rewrite <- (length_map attraction), fallback_attractions. unfold selectAttractions.
  apply ensureEnough_at_most, keywordSelection_length.
Qed.

Lemma planFallback_durations (realTimeData : option RealTimeData) (sel : list Attraction) :
  forall index currentTime,
    sumOfDurations (planFallback realTimeData index currentTime sel)
    = Some (fold_right Z.add 0%Z
              (map (fun a => or_else (Some (estimatedVisitTime a)) 120) sel)).
Proof.
  unfold sumOfDurations.
  induction sel as [|a rest IH]; intros index currentTime; [reflexivity|].
  cbn [planFallback map sumOpt]. rewrite IH.
  unfold visitMinutes. cbn [plannedStartTime plannedEndTime startMinutes fold_right].
  f_equal. lia.
Qed.

Lemma fold_times (pas : list PlannedAttraction) (acc : Z) :
  fold_left (fun total pa => (total + estimatedVisitTime (attraction pa))%Z) pas acc
  = (acc + fold_right Z.add 0%Z (map (fun pa => estimatedVisitTime (attraction pa)) pas))%Z.
Proof.
  revert acc. induction pas as [|pa pas IH]; intros acc; simpl; [lia|].
  rewrite IH. lia.
Qed.

Lemma or_else_120 (l : list Attraction) :
  fold_right Z.add 0%Z (map (fun a => or_else (Some (estimatedVisitTime a)) 120) l)
  = (fold_right Z.add 0%Z (map estimatedVisitTime l)
     + 120 * Z.of_nat (List.length (filter (fun a => (estimatedVisitTime a =? 0)%Z) l)))%Z.
Proof.
  induction l as [|a l IH]; [reflexivity|].
  cbn [map fold_right filter]. rewrite IH. unfold or_else, truthy_num.
  destruct (estimatedVisitTime a =? 0)%Z eqn:E.
  - apply Z.eqb_eq in E. cbn [List.length]. lia.
  - lia.
Qed.

(** X27.  The rule-based plan reports as its total time the sum of the
    catalog visit times of its visits, which is 120 minutes short of
    the sum of the lengths of the visits for every visit to an
    attraction whose catalog visit time is 0; its total cost is the sum
    of the per-visit cost estimates. *)
Theorem fallback_totals (userText : str) (catalog : list Attraction)
    (realTimeData : option RealTimeData) :
  exists T,
    totalTime (getDirectFallbackTripPlan userText catalog realTimeData) = Some T
    /\ sumOfDurations
         (plannedAttractions (getDirectFallbackTripPlan userText catalog realTimeData))
       = Some (T + 120 * Z.of_nat
                           (untimedVisits
                              (plannedAttractions
                                 (getDirectFallbackTripPlan userText catalog
                                                            realTimeData))))%Z
    /\ totalCost (getDirectFallbackTripPlan userText catalog realTimeData)
       = sumOfCosts
           (plannedAttractions (getDirectFallbackTripPlan userText catalog realTimeData)).
Proof.
  unfold getDirectFallbackTripPlan.
  cbn [totalTime totalCost plannedAttractions].
  set (sel := selectAttractions userText catalog realTimeData).
  set (visits := planFallback realTimeData 0 (inject_Z 9) sel).
  assert (Hatt : map attraction visits = sel) by apply planFallback_attractions.
  eexists. split; [reflexivity|]. split; [|apply sum_costs_spec].
  subst visits. rewrite planFallback_durations, or_else_120, fold_times. f_equal.
  unfold untimedVisits.
  rewrite <- (map_map attraction estimatedVisitTime), Hatt.
  f_equal. f_equal. f_equal.
  rewrite <- Hatt at 1. clear.
  generalize (planFallback realTimeData 0 (inject_Z 9) sel). intros l.
  induction l as [|pa l IH]; [reflexivity|].
  cbn [map filter]. destruct (estimatedVisitTime (attraction pa) =? 0)%Z; cbn [List.length];
    now rewrite IH.
Qed.

(** ** The list of attractions in the prompt *)

Lemma split_char_plain (sep : ascii) (s : str) :
  ~ In sep s -> split_char sep s = [s].
Proof.
  induction s as [|c s IH]; intros H; simpl; [reflexivity|].
  destruct (Ascii.eqb c sep) eqn:E.
  - apply Ascii.eqb_eq in E. subst. exfalso. apply H. now left.
  - rewrite IH; [reflexivity|]. intros Hin. apply H. now right.
Qed.

Lemma split_char_app (sep : ascii) (s rest : str) :
  ~ In sep s -> split_char sep (s ++ sep :: rest) = s :: split_char sep rest.
Proof.
  induction s as [|c s IH]; intros H; simpl.
  - now rewrite Ascii.eqb_refl.
  - destruct (Ascii.eqb c sep) eqn:E.
    + apply Ascii.eqb_eq in E. subst. exfalso. apply H. now left.
    + rewrite IH; [reflexivity|]. intros Hin. apply H. now right.
Qed.

(** Round trip: splitting what [join] has put together gives the pieces
    back, when no piece holds the separator. *)
Lemma split_join (sep : ascii) (l : list str) :
  l <> [] -> Forall (fun s => ~ In sep s) l ->
  split_char sep (JsArray.join [sep] l) = l.
Proof.
  induction l as [|x l IH]; intros Hne Hall; [contradiction|].
  inversion Hall as [|? ? Hx Hl]; subst.
  destruct l as [|y l'].
  - simpl. now apply split_char_plain.
  - change (JsArray.join [sep] (x :: y :: l'))
      with (x ++ sep :: JsArray.join [sep] (y :: l')).
    rewrite split_char_app by exact Hx. f_equal. apply IH; [discriminate|exact Hl].
Qed.

Lemma pos_digits_no_newline (fuel : nat) :
  forall (n : N) (acc : str),
    ~ In newline acc -> ~ In newline (pos_digits fuel n acc).
Proof.
  induction fuel as [|fuel IH]; intros n acc Hacc; simpl; [exact Hacc|].
  assert (Hd : ~ In newline (digit_char (N.to_nat (n mod 10)) :: acc)).
  { intros [H|H]; [|contradiction].
    pose proof (N.mod_upper_bound n 10 ltac:(discriminate)) as Hlt.
    apply (f_equal nat_of_ascii) in H. unfold digit_char in H.
    assert (Hb : 48 + N.to_nat (n mod 10) < 256) by lia.
    rewrite (nat_ascii_embedding _ Hb) in H.
    change (nat_of_ascii newline) with 10 in H.
    revert H. generalize (N.to_nat (n mod 10)). intros d H. lia. }
  destruct (n <? 10)%N; [exact Hd|]. now apply IH.
Qed.

Lemma int_toString_no_newline (z : Z) : ~ In newline (int_toString z).
Proof.
  unfold int_toString.
  assert (H : ~ In newline (pos_digits (S (N.to_nat (N.log2 (Z.to_N (Z.abs z)))))
                                       (Z.to_N (Z.abs z)) []))
    by (apply pos_digits_no_newline; intros []).
  destruct (z <? 0)%Z; [|exact H]. intros [E|E]; [discriminate E|contradiction].
Qed.

Lemma attractionLine_one_line (a : Attraction) :
  one_line a -> ~ In newline (Prompt.attractionLine a).
Proof.
  intros [Hid [Hname [Hdesc [Hcat Hprice]]]]. unfold Prompt.attractionLine.
  rewrite !in_app_iff.
  pose proof (int_toString_no_newline (estimatedVisitTime a)) as Hn.
  assert (H1 : ~ In newline (js ": ")) by (vm_compute; intuition discriminate).
  assert (H2 : ~ In newline (js " - ")) by (vm_compute; intuition discriminate).
  assert (H3 : ~ In newline (js " (")) by (vm_compute; intuition discriminate).
  assert (H4 : ~ In newline (js ", ")) by (vm_compute; intuition discriminate).
  assert (H5 : ~ In newline (js "min)")) by (vm_compute; intuition discriminate).
  tauto.
Qed.

(** X28.  When no field shown in the prompt has a line break, the list
    of attractions that [createDirectTripPlanPrompt] puts in the prompt
    is that of the first eight entries of the catalog, one line each:
    joining the first fifteen lines, splitting the text at line breaks
    and keeping eight pieces gives the first eight lines back. *)
Theorem prompt_lists_the_first_eight_attractions (attractions : list Attraction) :
  Forall one_line attractions ->
  Prompt.firstFewAttractions attractions
  = JsArray.join [newline] (map Prompt.attractionLine (firstn 8 attractions)).
Proof.
  intros Hall. unfold Prompt.firstFewAttractions, Prompt.attractionsList.
  destruct attractions as [|a rest]; [reflexivity|].
  rewrite split_join.
  - rewrite <- firstn_map, <- firstn_map, firstn_firstn. reflexivity.
  - discriminate.
  - apply Forall_forall. intros s Hs. apply in_map_iff in Hs as [x [<- Hx]].
    apply attractionLine_one_line. apply firstn_incl in Hx.
    rewrite Forall_forall in Hall. now apply Hall.
Qed.

Lemma prompt_lists_the_first_eight_attractions_witness :
  Prompt.firstFewAttractions Cases.elevenSites
  = JsArray.join [newline] (map Prompt.attractionLine (firstn 8 Cases.elevenSites)).
Proof.
  apply (@prompt_lists_the_first_eight_attractions Cases.elevenSites).
  repeat constructor; vm_compute; intuition discriminate.
Defined.
